(** * The entity/component/system runtime of [ecs.h]

    A shallow embedding of [CHULUBME::System] and [CHULUBME::EntityManager]
    (src/Assets/ecs.h) and the properties of its entity life cycle, component
    store, system subscriptions and deferred destruction.

    Conventions of the embedding.
    - [EntityID], [ComponentID] and [SystemID] are [std::uint32_t]: values of
      [N], incremented modulo [2^32].
    - [ComponentMask] is [std::bitset<64>]: a value of [N]; [set], [reset] and
      [test] at a position check the range and raise [std::out_of_range].
    - [std::unordered_map] is a [gmap]; [operator[]] inserts a default value
      for a missing key, [at] raises [std::out_of_range].  The order in which a
      range-for visits an [unordered_map] is unspecified by the language: it is
      the parameter [UnorderedMapOrder].
    - [std::set<EntityID>] is a [gset N], visited in ascending order.
    - [std::queue<EntityID>] is a list, front first.
    - A component instance is the address of the object built by
      [std::make_shared]; [nullptr] is [None].
    - The virtual hooks ([Initialize], [Finalize], [Update], [Render],
      [OnEntityAdded], [OnEntityRemoved]) are recorded, in call order, in the
      [trace] of the world; the base-class bodies are empty.
    - A template parameter [T] is the name of the type; the function-local
      static of [GetComponentTypeID<T>] is an entry of [componentTypeID]. *)

From Stdlib Require Import NArith ZArith Lia.
From Stdlib Require Import Floats.SpecFloat.
From stdpp Require Import gmap strings list sorting.

Local Open Scope N_scope.

(** ** Constants and exceptions *)

Definition MAX_COMPONENTS : N := 64.
Definition MAX_ENTITIES : N := 10000.

(** [x++] on a [std::uint32_t]. *)
Definition uint32_incr (x : N) : N := (x + 1) mod 2 ^ 32.

Inductive exception := out_of_range.

(** How a call ends: it returns, it throws, or it has no defined behaviour
    (a call through a null pointer). *)
Inductive Outcome (A : Type) :=
| Ret (a : A)
| Throw (x : exception)
| Undefined.
Arguments Ret {A} a.
Arguments Throw {A} x.
Arguments Undefined {A}.

(** ** [ComponentMask = std::bitset<MAX_COMPONENTS>] *)

Module Bitset.
Definition empty : N := 0.

Definition test (b pos : N) : Outcome bool :=
  if pos <? MAX_COMPONENTS then Ret (N.testbit b pos) else Throw out_of_range.

Definition set (b pos : N) : Outcome N :=
  if pos <? MAX_COMPONENTS then Ret (N.setbit b pos) else Throw out_of_range.

Definition reset (b pos : N) : Outcome N :=
  if pos <? MAX_COMPONENTS then Ret (N.clearbit b pos) else Throw out_of_range.

(** [(entityMask & systemMask) == systemMask] *)
Definition covers (entityMask systemMask : N) : bool :=
  N.land entityMask systemMask =? systemMask.
End Bitset.

(** The mask [m] has every component type that [required] has. *)
Definition superset (m required : N) : Prop :=
  ∀ i, N.testbit required i = true → N.testbit m i = true.

(** ** Data model *)

(** [float deltaTime] is only handed on to [Update]: its bit pattern. *)
Inductive float := float_bits (b : N).

Record System := mkSystem {
  m_componentMask : N;
  m_entities : gset N;
  m_id : N;
  m_active : bool
}.

(** Calls of the virtual hooks.  A system is named by its [SystemID], a
    component by its address. *)
Inductive Event :=
| Component_Initialize (component : N)
| Component_Finalize (component : N)
| System_Initialize (system : N)
| System_Update (system : N) (deltaTime : float)
| System_Render (system : N)
| System_OnEntityAdded (system entity : N)
| System_OnEntityRemoved (system entity : N).

Global Instance float_eq_dec : EqDecision float.
Proof. solve_decision. Defined.
Global Instance Event_eq_dec : EqDecision Event.
Proof. solve_decision. Defined.

(** The two static counters with the initialised function-local statics, one
    [EntityManager], and the trace of hook calls. *)
Record World := mkWorld {
  s_componentTypeCounter : N;
  s_systemTypeCounter : N;
  componentTypeID : gmap string N;
  systemTypeID : gmap string N;
  m_entityMasks : gmap N N;
  m_entityComponents : gmap N (gmap N N);
  m_availableEntityIDs : list N;
  m_nextEntityID : N;
  m_systems : gmap N System;
  m_entitiesToDestroy : gset N;
  trace : list Event
}.

(** Program start followed by [EntityManager::EntityManager()]. *)
Definition initial : World :=
  {| s_componentTypeCounter := 0; s_systemTypeCounter := 0;
     componentTypeID := ∅; systemTypeID := ∅;
     m_entityMasks := ∅; m_entityComponents := ∅;
     m_availableEntityIDs := []; m_nextEntityID := 0;
     m_systems := ∅; m_entitiesToDestroy := ∅; trace := [] |}.

Definition set_componentTypes (c : N) (ids : gmap string N) (w : World) : World :=
  {| s_componentTypeCounter := c; s_systemTypeCounter := s_systemTypeCounter w;
     componentTypeID := ids; systemTypeID := systemTypeID w;
     m_entityMasks := m_entityMasks w; m_entityComponents := m_entityComponents w;
     m_availableEntityIDs := m_availableEntityIDs w; m_nextEntityID := m_nextEntityID w;
     m_systems := m_systems w; m_entitiesToDestroy := m_entitiesToDestroy w;
     trace := trace w |}.

Definition set_systemTypes (c : N) (ids : gmap string N) (w : World) : World :=
  {| s_componentTypeCounter := s_componentTypeCounter w; s_systemTypeCounter := c;
     componentTypeID := componentTypeID w; systemTypeID := ids;
     m_entityMasks := m_entityMasks w; m_entityComponents := m_entityComponents w;
     m_availableEntityIDs := m_availableEntityIDs w; m_nextEntityID := m_nextEntityID w;
     m_systems := m_systems w; m_entitiesToDestroy := m_entitiesToDestroy w;
     trace := trace w |}.

Definition set_entityMasks (masks : gmap N N) (w : World) : World :=
  {| s_componentTypeCounter := s_componentTypeCounter w;
     s_systemTypeCounter := s_systemTypeCounter w;
     componentTypeID := componentTypeID w; systemTypeID := systemTypeID w;
     m_entityMasks := masks; m_entityComponents := m_entityComponents w;
     m_availableEntityIDs := m_availableEntityIDs w; m_nextEntityID := m_nextEntityID w;
     m_systems := m_systems w; m_entitiesToDestroy := m_entitiesToDestroy w;
     trace := trace w |}.

Definition set_entityComponents (cs : gmap N (gmap N N)) (w : World) : World :=
  {| s_componentTypeCounter := s_componentTypeCounter w;
     s_systemTypeCounter := s_systemTypeCounter w;
     componentTypeID := componentTypeID w; systemTypeID := systemTypeID w;
     m_entityMasks := m_entityMasks w; m_entityComponents := cs;
     m_availableEntityIDs := m_availableEntityIDs w; m_nextEntityID := m_nextEntityID w;
     m_systems := m_systems w; m_entitiesToDestroy := m_entitiesToDestroy w;
     trace := trace w |}.

Definition set_entityIDs (available : list N) (next : N) (w : World) : World :=
  {| s_componentTypeCounter := s_componentTypeCounter w;
     s_systemTypeCounter := s_systemTypeCounter w;
     componentTypeID := componentTypeID w; systemTypeID := systemTypeID w;
     m_entityMasks := m_entityMasks w; m_entityComponents := m_entityComponents w;
     m_availableEntityIDs := available; m_nextEntityID := next;
     m_systems := m_systems w; m_entitiesToDestroy := m_entitiesToDestroy w;
     trace := trace w |}.

Definition set_systems (ss : gmap N System) (w : World) : World :=
  {| s_componentTypeCounter := s_componentTypeCounter w;
     s_systemTypeCounter := s_systemTypeCounter w;
     componentTypeID := componentTypeID w; systemTypeID := systemTypeID w;
     m_entityMasks := m_entityMasks w; m_entityComponents := m_entityComponents w;
     m_availableEntityIDs := m_availableEntityIDs w; m_nextEntityID := m_nextEntityID w;
     m_systems := ss; m_entitiesToDestroy := m_entitiesToDestroy w;
     trace := trace w |}.

Definition set_entitiesToDestroy (pending : gset N) (w : World) : World :=
  {| s_componentTypeCounter := s_componentTypeCounter w;
     s_systemTypeCounter := s_systemTypeCounter w;
     componentTypeID := componentTypeID w; systemTypeID := systemTypeID w;
     m_entityMasks := m_entityMasks w; m_entityComponents := m_entityComponents w;
     m_availableEntityIDs := m_availableEntityIDs w; m_nextEntityID := m_nextEntityID w;
     m_systems := m_systems w; m_entitiesToDestroy := pending;
     trace := trace w |}.

Definition set_trace (tr : list Event) (w : World) : World :=
  {| s_componentTypeCounter := s_componentTypeCounter w;
     s_systemTypeCounter := s_systemTypeCounter w;
     componentTypeID := componentTypeID w; systemTypeID := systemTypeID w;
     m_entityMasks := m_entityMasks w; m_entityComponents := m_entityComponents w;
     m_availableEntityIDs := m_availableEntityIDs w; m_nextEntityID := m_nextEntityID w;
     m_systems := m_systems w; m_entitiesToDestroy := m_entitiesToDestroy w;
     trace := tr |}.

(** ** Calls that read and write the world, and may throw *)

Definition M (A : Type) : Type := World → Outcome A * World.

Definition ret {A} (a : A) : M A := λ w, (Ret a, w).

Definition bind {A B} (m : M A) (k : A → M B) : M B := λ w,
  match m w with
  | (Ret a, w') => k a w'
  | (Throw x, w') => (Throw x, w')
  | (Undefined, w') => (Undefined, w')
  end.

Declare Scope ecs_scope.
Delimit Scope ecs_scope with ecs.
Notation "'let*' x := m 'in' k" := (bind m (λ x, k))
  (at level 10, x name, m at level 100, k at level 200, only parsing) : ecs_scope.
Notation "m >> k" := (bind m (λ _, k))
  (at level 100, k at level 200, right associativity, only parsing) : ecs_scope.
Local Open Scope ecs_scope.

Definition lift {A} (o : Outcome A) : M A := λ w, (o, w).
Definition undefined {A} : M A := λ w, (Undefined, w).
Definition gets {A} (f : World → A) : M A := λ w, (Ret (f w), w).
Definition modify (f : World → World) : M unit := λ w, (Ret tt, f w).

(** A hook is called. *)
Definition call (ev : Event) : M unit :=
  modify (λ w, set_trace (trace w ++ [ev]) w).

(** A range-for over the elements listed in [l]. *)
Fixpoint for_each {A} (l : list A) (body : A → M unit) : M unit :=
  match l with
  | [] => ret tt
  | x :: l' => body x >> for_each l' body
  end.

(** The visiting order of a range-for over a [std::unordered_map] with
    [uint32_t] keys: some enumeration of its entries. *)
Class UnorderedMapOrder := {
  iterate : ∀ {V : Type}, gmap N V → list (N * V);
  iterate_perm : ∀ (V : Type) (m : gmap N V), iterate m ≡ₚ map_to_list m
}.

(** The visiting order of a range-for over a [std::set<EntityID>]. *)
Definition ascending (s : gset N) : list N := merge_sort N.le (elements s).

(** ** Type identifiers *)

(** [static const ComponentID typeID = s_componentTypeCounter++;] runs on the
    first call for [T] only. *)
Definition GetComponentTypeID (T : string) : M N := λ w,
  match componentTypeID w !! T with
  | Some typeID => (Ret typeID, w)
  | None =>
      let typeID := s_componentTypeCounter w in
      (Ret typeID,
       set_componentTypes (uint32_incr typeID) (<[T := typeID]> (componentTypeID w)) w)
  end.

Definition GetSystemTypeID (T : string) : M N := λ w,
  match systemTypeID w !! T with
  | Some typeID => (Ret typeID, w)
  | None =>
      let typeID := s_systemTypeCounter w in
      (Ret typeID,
       set_systemTypes (uint32_incr typeID) (<[T := typeID]> (systemTypeID w)) w)
  end.

(** ** Access to the maps of the manager *)

(** [m_entityMasks[entity]] *)
Definition entityMasks_index (entity : N) : M N := λ w,
  match m_entityMasks w !! entity with
  | Some mask => (Ret mask, w)
  | None =>
      (Ret Bitset.empty,
       set_entityMasks (<[entity := Bitset.empty]> (m_entityMasks w)) w)
  end.

(** [m_entityMasks.at(entity)] *)
Definition entityMasks_at (entity : N) : M N := λ w,
  match m_entityMasks w !! entity with
  | Some mask => (Ret mask, w)
  | None => (Throw out_of_range, w)
  end.

(** A write through the reference that [m_entityMasks[entity]] gave. *)
Definition entityMasks_assign (entity mask : N) : M unit :=
  modify (λ w, set_entityMasks (<[entity := mask]> (m_entityMasks w)) w).

(** [m_entityComponents[entity]], read after its default insertion. *)
Definition components_of (entity : N) (w : World) : gmap N N :=
  default ∅ (m_entityComponents w !! entity).

(** [m_entityComponents[entity][componentID] = component] *)
Definition entityComponents_assign (entity componentID component : N) : M unit :=
  modify (λ w, set_entityComponents
     (<[entity := <[componentID := component]> (components_of entity w)]>
        (m_entityComponents w)) w).

(** [m_entityComponents[entity][componentID].get()]: the null pointer of a
    default-inserted entry is [None]. *)
Definition entityComponents_index (entity componentID : N) : M (option N) := λ w,
  (Ret (components_of entity w !! componentID),
   set_entityComponents
     (<[entity := components_of entity w]> (m_entityComponents w)) w).

(** [m_entityComponents[entity].erase(componentID)] *)
Definition entityComponents_erase (entity componentID : N) : M unit :=
  modify (λ w, set_entityComponents
     (<[entity := delete componentID (components_of entity w)]>
        (m_entityComponents w)) w).

(** [m_entityComponents.at(entity).at(componentID).get()] *)
Definition entityComponents_at (entity componentID : N) : M N := λ w,
  match m_entityComponents w !! entity with
  | Some components =>
      match components !! componentID with
      | Some component => (Ret component, w)
      | None => (Throw out_of_range, w)
      end
  | None => (Throw out_of_range, w)
  end.

(** [*systemPair.second]: the system a stored pointer refers to. *)
Definition system_deref (system : N) : M System := λ w,
  match m_systems w !! system with
  | Some s => (Ret s, w)
  | None => (Undefined, w)
  end.

Definition system_assign (system : N) (s : System) : M unit :=
  modify (λ w, set_systems (<[system := s]> (m_systems w)) w).

(** ** [System] *)

(** The constructor [System::System] of the base class. *)
Definition System_ctor : System :=
  {| m_componentMask := Bitset.empty; m_entities := ∅; m_id := 0; m_active := true |}.

Definition with_componentMask (mask : N) (s : System) : System :=
  {| m_componentMask := mask; m_entities := m_entities s;
     m_id := m_id s; m_active := m_active s |}.

Definition with_entities (entities : gset N) (s : System) : System :=
  {| m_componentMask := m_componentMask s; m_entities := entities;
     m_id := m_id s; m_active := m_active s |}.

Definition with_id (id : N) (s : System) : System :=
  {| m_componentMask := m_componentMask s; m_entities := m_entities s;
     m_id := id; m_active := m_active s |}.

Definition with_active (active : bool) (s : System) : System :=
  {| m_componentMask := m_componentMask s; m_entities := m_entities s;
     m_id := m_id s; m_active := active |}.

(** [System::RequireComponent<T>()], on the system under construction. *)
Definition System_RequireComponent (T : string) (s : System) : M System :=
  let* componentID := GetComponentTypeID T in
  let* mask := lift (Bitset.set (m_componentMask s) componentID) in
  ret (with_componentMask mask s).

(** The constructor of a class derived from [System] that calls
    [RequireComponent<T>()] for each [T] of [requires], as [TestSystem],
    [HeroSystem] and [AbilitySystem] do. *)
Fixpoint System_construct (requires : list string) (s : System) : M System :=
  match requires with
  | [] => ret s
  | T :: rest => let* s' := System_RequireComponent T s in System_construct rest s'
  end.

(** [System::SetActive] *)
Definition System_SetActive (system : N) (active : bool) : M unit :=
  let* s := system_deref system in
  system_assign system (with_active active s).

(** [System::AddEntity] *)
Definition System_AddEntity (system entity : N) : M unit :=
  let* s := system_deref system in
  system_assign system (with_entities ({[entity]} ∪ m_entities s) s) >>
  call (System_OnEntityAdded system entity).

(** [System::RemoveEntity]: [erase] returns the number of elements removed. *)
Definition System_RemoveEntity (system entity : N) : M unit :=
  let* s := system_deref system in
  if bool_decide (entity ∈ m_entities s) then
    system_assign system (with_entities (m_entities s ∖ {[entity]}) s) >>
    call (System_OnEntityRemoved system entity)
  else ret tt.

(** ** [EntityManager] *)

Section EntityManager.
Context `{order : UnorderedMapOrder}.

Definition CreateEntity : M N :=
let* id := (λ w,
  match m_availableEntityIDs w with
  | front :: rest => (Ret front, set_entityIDs rest (m_nextEntityID w) w)
  | [] =>
      (Ret (m_nextEntityID w),
       set_entityIDs [] (uint32_incr (m_nextEntityID w)) w)
  end) in
entityMasks_assign id Bitset.empty >>
modify (λ w, set_entityComponents (<[id := ∅]> (m_entityComponents w)) w) >>
ret id.

Definition DestroyEntity (entity : N) : M unit :=
modify (λ w, set_entitiesToDestroy ({[entity]} ∪ m_entitiesToDestroy w) w).

(** The body of the outer loop of [ProcessDestructions]. *)
Definition destroy_now (entity : N) : M unit :=
let* systems := gets m_systems in
for_each (iterate systems) (λ systemPair,
  System_RemoveEntity systemPair.1 entity) >>
modify (λ w, set_entityComponents (delete entity (m_entityComponents w)) w) >>
modify (λ w, set_entityMasks (delete entity (m_entityMasks w)) w) >>
modify (λ w, set_entityIDs (m_availableEntityIDs w ++ [entity]) (m_nextEntityID w) w).

Definition ProcessDestructions : M unit :=
let* pending := gets m_entitiesToDestroy in
for_each (ascending pending) destroy_now >>
modify (set_entitiesToDestroy ∅).

(** [component] is the object that [std::make_shared<T>(args...)] built. *)
Definition AddComponent (T : string) (entity component : N) : M (option N) :=
let* componentID := GetComponentTypeID T in
entityComponents_assign entity componentID component >>
let* mask := entityMasks_index entity in
let* mask' := lift (Bitset.set mask componentID) in
entityMasks_assign entity mask' >>
call (Component_Initialize component) >>
let* systems := gets m_systems in
for_each (iterate systems) (λ systemPair,
  let* s := system_deref systemPair.1 in
  let* mask := entityMasks_index entity in
  if Bitset.covers mask (m_componentMask s)
  then System_AddEntity systemPair.1 entity
  else ret tt) >>
ret (Some component).

Definition RemoveComponent (T : string) (entity : N) : M unit :=
let* componentID := GetComponentTypeID T in
let* mask := entityMasks_index entity in
let* present := lift (Bitset.test mask componentID) in
if negb present then ret tt else
let* component := entityComponents_index entity componentID in
match component with
| Some c => call (Component_Finalize c)
| None => undefined
end >>
entityComponents_erase entity componentID >>
let* mask := entityMasks_index entity in
let* mask' := lift (Bitset.reset mask componentID) in
entityMasks_assign entity mask' >>
let* systems := gets m_systems in
for_each (iterate systems) (λ systemPair,
  let* s := system_deref systemPair.1 in
  let* mask := entityMasks_index entity in
  if negb (Bitset.covers mask (m_componentMask s))
  then System_RemoveEntity systemPair.1 entity
  else ret tt).

Definition HasComponent (T : string) (entity : N) : M bool :=
let* componentID := GetComponentTypeID T in
let* mask := entityMasks_at entity in
lift (Bitset.test mask componentID).

Definition GetComponent (T : string) (entity : N) : M (option N) :=
let* componentID := GetComponentTypeID T in
let* mask := entityMasks_at entity in
let* present := lift (Bitset.test mask componentID) in
if negb present then ret None else
let* component := entityComponents_at entity componentID in
ret (Some component).

(** [T]'s constructor requires the component types [requires]; the pointer
  returned is the key of the system in [m_systems]. *)
Definition RegisterSystem (T : string) (requires : list string) : M N :=
let* systemID := GetSystemTypeID T in
let* system := System_construct requires System_ctor in
system_assign systemID (with_id systemID system) >>
call (System_Initialize systemID) >>
let* masks := gets m_entityMasks in
for_each (iterate masks) (λ entityPair,
  let* s := system_deref systemID in
  if Bitset.covers entityPair.2 (m_componentMask s)
  then System_AddEntity systemID entityPair.1
  else ret tt) >>
ret systemID.

Definition GetSystem (T : string) : M (option N) :=
let* systemID := GetSystemTypeID T in
let* systems := gets m_systems in
ret (if decide (is_Some (systems !! systemID)) then Some systemID else None).

Definition UpdateSystems (deltaTime : float) : M unit :=
let* systems := gets m_systems in
for_each (iterate systems) (λ systemPair,
  let* s := system_deref systemPair.1 in
  if m_active s then call (System_Update systemPair.1 deltaTime) else ret tt).

Definition RenderSystems : M unit :=
let* systems := gets m_systems in
for_each (iterate systems) (λ systemPair,
  let* s := system_deref systemPair.1 in
  if m_active s then call (System_Render systemPair.1) else ret tt).

Definition GetComponentMask (entity : N) : M N := entityMasks_at entity.

End EntityManager.

(** Two visiting orders: by ascending and by descending key. *)
Definition key_le {V} (p q : N * V) : Prop := p.1 ≤ q.1.
Definition key_ge {V} (p q : N * V) : Prop := q.1 ≤ p.1.

Global Instance key_le_dec {V} (p q : N * V) : Decision (key_le p q) :=
  decide (p.1 ≤ q.1).
Global Instance key_ge_dec {V} (p q : N * V) : Decision (key_ge p q) :=
  decide (q.1 ≤ p.1).

Definition ascending_keys : UnorderedMapOrder :=
  {| iterate := λ V m, merge_sort key_le (map_to_list m);
     iterate_perm := λ V m, merge_sort_Permutation key_le (map_to_list m) |}.

Definition descending_keys : UnorderedMapOrder :=
  {| iterate := λ V m, merge_sort key_ge (map_to_list m);
     iterate_perm := λ V m, merge_sort_Permutation key_ge (map_to_list m) |}.

(** The state after a call, and what it returned. *)
Definition after {A} (m : M A) (w : World) : World := (m w).2.
Definition result {A} (m : M A) (w : World) : Outcome A := (m w).1.

(** ** Vocabulary of the properties *)

(** [entity] is live: it has an entry in [m_entityMasks]. *)
Definition live (w : World) (entity : N) : Prop :=
  is_Some (m_entityMasks w !! entity).

(** [entity] is in the subscriber set of the system stored under [system]. *)
Definition subscribed (w : World) (system entity : N) : Prop :=
  ∃ s, m_systems w !! system = Some s ∧ entity ∈ m_entities s.

(** Every registered system has exactly the live entities whose mask is a
    superset of its required mask. *)
Definition consistent (w : World) : Prop :=
  ∀ system s entity mask,
    m_systems w !! system = Some s →
    m_entityMasks w !! entity = Some mask →
    (entity ∈ m_entities s ↔ superset mask (m_componentMask s)).

(** Only live entities are subscribed. *)
Definition subscribers_live (w : World) : Prop :=
  ∀ system entity, subscribed w system entity → live w entity.

(** A mask bit is backed by a stored component. *)
Definition stored (w : World) : Prop :=
  ∀ entity mask componentID,
    m_entityMasks w !! entity = Some mask →
    N.testbit mask componentID = true →
    ∃ components component,
      m_entityComponents w !! entity = Some components ∧
      components !! componentID = Some component.

(** The identifier that [GetComponentTypeID<T>()] returns in [w]. *)
Definition typeid_of (T : string) (w : World) : N :=
  default (s_componentTypeCounter w) (componentTypeID w !! T).

(** The identifier that the next [CreateEntity] returns. *)
Definition upcoming (w : World) : N :=
  match m_availableEntityIDs w with
  | front :: _ => front
  | [] => m_nextEntityID w
  end.

(** The identifiers of the pool and of the live and the pending entities are
    distinct ones that the counter has issued. *)
Definition ids_wf (w : World) : Prop :=
  NoDup (m_availableEntityIDs w) ∧
  (∀ e, e ∈ m_availableEntityIDs w → ¬ live w e ∧ e < m_nextEntityID w) ∧
  (∀ e, live w e → e < m_nextEntityID w) ∧
  (∀ e, e ∈ m_entitiesToDestroy w → live w e).

(** The hook calls made between [w] and [w']. *)
Definition emitted (w w' : World) : list Event :=
  drop (length (trace w)) (trace w').

(** The systems whose [Update], and whose [Render], a trace records. *)
Definition updated (tr : list Event) : list N :=
  omap (λ ev, match ev with System_Update s _ => Some s | _ => None end) tr.
Definition rendered (tr : list Event) : list N :=
  omap (λ ev, match ev with System_Render s => Some s | _ => None end) tr.

(** The active systems, in visiting order. *)
Definition active_systems `{UnorderedMapOrder} (w : World) : list N :=
  (filter (λ systemPair, m_active systemPair.2 = true) (iterate (m_systems w))).*1.

(** [n] calls of [CreateEntity]. *)
Fixpoint create_entities (n : nat) : M unit :=
  match n with
  | O => ret tt
  | S k => CreateEntity >> create_entities k
  end.



(** A decision procedure for [consistent]. *)
Definition consistent_check (w : World) : bool :=
  bool_decide (map_Forall (λ _ s, map_Forall (λ entity mask,
    bool_decide (entity ∈ m_entities s)
    = Bitset.covers mask (m_componentMask s)) (m_entityMasks w)) (m_systems w)).

Definition subscribers_live_check (w : World) : bool :=
  bool_decide (map_Forall (λ _ s,
    set_Forall (λ entity, is_Some (m_entityMasks w !! entity)) (m_entities s))
    (m_systems w)).

Definition stored_check (w : World) : bool :=
  bool_decide (map_Forall (λ entity mask,
    Forall (λ componentID : nat,
      N.testbit mask (N.of_nat componentID) = true →
      is_Some (components_of entity w !! N.of_nat componentID))
      (seq 0%nat 64%nat) ∧ mask < 2 ^ 64)
    (m_entityMasks w)).

(** ** Loops over the systems, as folds

    What one turn of a loop does to the system it visits: the new state of the
    system and the hooks called, or [None] when the system is left alone. *)
Definition Visit : Type := N → System → option (System * list Event).

Definition visit (g : Visit) (w : World) (id : N) : World :=
  match m_systems w !! id with
  | Some s =>
      match g id s with
      | Some (s', evs) =>
          set_trace (trace w ++ evs) (set_systems (<[id := s']> (m_systems w)) w)
      | None => w
      end
  | None => w
  end.

Definition visit_all (g : Visit) (ids : list N) (w : World) : World :=
  foldl (visit g) w ids.

Definition visited (g : Visit) (id : N) (s : System) : System :=
  from_option fst s (g id s).

Definition heard (g : Visit) (id : N) (s : System) : list Event :=
  from_option snd [] (g id s).

Definition on_remove (entity : N) : Visit := λ id s,
  if bool_decide (entity ∈ m_entities s)
  then Some (with_entities (m_entities s ∖ {[entity]}) s,
             [System_OnEntityRemoved id entity])
  else None.

Definition on_attach (entity mask : N) : Visit := λ id s,
  if Bitset.covers mask (m_componentMask s)
  then Some (with_entities ({[entity]} ∪ m_entities s) s,
             [System_OnEntityAdded id entity])
  else None.

Definition on_detach (entity mask : N) : Visit := λ id s,
  if negb (Bitset.covers mask (m_componentMask s))
  then on_remove entity id s
  else None.

(** The world in which [AddComponent] starts its loop over the systems. *)
Definition attach_store (T : string) (entity component : N) (w : World) : World :=
  let componentID := typeid_of T w in
  set_trace (trace w ++ [Component_Initialize component])
    (set_entityMasks
       (<[entity := N.setbit (default Bitset.empty (m_entityMasks w !! entity))
                      componentID]> (m_entityMasks w))
       (set_entityComponents
          (<[entity := <[componentID := component]> (components_of entity w)]>
             (m_entityComponents w))
          (after (GetComponentTypeID T) w))).

(** The world in which [RemoveComponent] starts its loop over the systems,
    [component] being the instance that it finalizes. *)
Definition detach_store (T : string) (entity component : N) (w : World) : World :=
  let componentID := typeid_of T w in
  set_trace (trace w ++ [Component_Finalize component])
    (set_entityMasks
       (<[entity := N.clearbit (default Bitset.empty (m_entityMasks w !! entity))
                      componentID]> (m_entityMasks w))
       (set_entityComponents
          (<[entity := delete componentID (components_of entity w)]>
             (m_entityComponents w))
          (after (GetComponentTypeID T) w))).

(** The world after the loop over the systems in [ProcessDestructions] for
    one entity. *)
Definition erase_entity (entity : N) (w : World) : World :=
  set_entityIDs (m_availableEntityIDs w ++ [entity]) (m_nextEntityID w)
    (set_entityMasks (delete entity (m_entityMasks w))
       (set_entityComponents (delete entity (m_entityComponents w)) w)).

(** The systems of [w'] are stored under the keys of [w], and the masks are
    those of [w]: what holds throughout a loop over the systems. *)
Definition in_loop (w w' : World) : Prop :=
  (∀ id, is_Some (m_systems w' !! id) ↔ is_Some (m_systems w !! id)) ∧
  m_entityMasks w' = m_entityMasks w.

(** [ProcessDestructions] for one entity, and for the entities of a list. *)
Definition destroy_one `{UnorderedMapOrder} (w : World) (entity : N) : World :=
  erase_entity entity
    (visit_all (on_remove entity) (iterate (m_systems w)).*1 w).

Definition destroy_all `{UnorderedMapOrder} (l : list N) (w : World) : World :=
  foldl destroy_one w l.

(** The [OnEntityRemoved] calls of one loop over the systems, [guard] being
    the condition under which the loop calls [RemoveEntity]. *)
Definition removals (guard : System → bool) (entity : N)
    (l : list (N * System)) : list Event :=
  l ≫= λ p, if guard p.2 then heard (on_remove entity) p.1 p.2 else [].

Definition always : System → bool := λ _, true.

(** The identifier that [GetSystemTypeID<T>()] returns in [w]. *)
Definition systemid_of (T : string) (w : World) : N :=
  default (s_systemTypeCounter w) (systemTypeID w !! T).

(** The loop of [RegisterSystem] over the entities [l], for the system
    stored under [id]. *)
Definition scan (id : N) (l : list (N * N)) (w : World) : World :=
  foldl (λ w' entityPair, visit (on_attach entityPair.1 entityPair.2) w' id) w l.

(** The entities of [l] whose mask covers [required]. *)
Definition matching (required : N) (l : list (N * N)) : list N :=
  (filter (λ entityPair, Bitset.covers entityPair.2 required = true) l).*1.

(** The fields of the manager, and the trace, are the same. *)
Definition same_manager (w w' : World) : Prop :=
  m_entityMasks w' = m_entityMasks w ∧
  m_entityComponents w' = m_entityComponents w ∧
  m_availableEntityIDs w' = m_availableEntityIDs w ∧
  m_nextEntityID w' = m_nextEntityID w ∧
  m_systems w' = m_systems w ∧
  m_entitiesToDestroy w' = m_entitiesToDestroy w ∧
  trace w' = trace w.

(** ** Scenarios *)

Section scenarios.
#[local] Existing Instance ascending_keys.

(** Two systems, one requiring HeroComponent, one requiring HeroComponent
    and AbilitySlot, and a hero with a HeroComponent at address 100. *)
Definition hero_world : World :=
  after (RegisterSystem "HeroSystem" ["HeroComponent"] >>
         RegisterSystem "AbilitySystem" ["HeroComponent"; "AbilitySlot"] >>
         CreateEntity >>
         AddComponent "HeroComponent" 0 100) initial.

(** The hero then gets an AbilitySlot, at address 101. *)
Definition hero_with_ability : World :=
  after (AddComponent "AbilitySlot" 0 101) hero_world.

(** The hero with its two components, pending destruction. *)
Definition doomed_hero : World := after (DestroyEntity 0) hero_with_ability.

(** An entity with a Transform at address 100, pending destruction. *)
Definition doomed_world : World :=
  after (CreateEntity >>
         AddComponent "Transform" 0 100 >>
         DestroyEntity 0) initial.

(** A system that requires no component, then an entity. *)
Definition unsubscribed_world : World :=
  after (RegisterSystem "AllEntities" [] >> CreateEntity) initial.

(** Two entities; the first is destroyed and flushed. *)
Definition recycled_world : World :=
  after ProcessDestructions
    (after (DestroyEntity 0) (after CreateEntity (after CreateEntity initial))).

(** An entity, then a system that requires no component. *)
Definition subscribed_world : World :=
  after (CreateEntity >> RegisterSystem "AllEntities" []) initial.

End scenarios.

(** The subscriptions follow the masks, and only live entities are
    subscribed. *)
Definition subscriptions_ok (w : World) : Prop :=
  consistent w ∧ subscribers_live w.

(** Two systems are registered, then updated, under the descending order. *)
Definition register_two_then_update : M (N * N) :=
  let* a := RegisterSystem (order := descending_keys) "A" [] in
  let* b := RegisterSystem (order := descending_keys) "B" [] in
  UpdateSystems (order := descending_keys) (float_bits 0) >>
  ret (a, b).

(** ** The worlds that the calls of the interface lead to *)

Inductive Call :=
| CallCreateEntity
| CallDestroyEntity (entity : N)
| CallProcessDestructions
| CallAddComponent (T : string) (entity component : N)
| CallRemoveComponent (T : string) (entity : N)
| CallHasComponent (T : string) (entity : N)
| CallGetComponent (T : string) (entity : N)
| CallGetComponentMask (entity : N)
| CallRegisterSystem (T : string) (requires : list string)
| CallSetActive (system : N) (active : bool)
| CallUpdateSystems (deltaTime : float)
| CallRenderSystems.

(** The world after a call, whatever the call returned or threw. *)
Definition perform `{UnorderedMapOrder} (w : World) (c : Call) : World :=
  match c with
  | CallCreateEntity => after CreateEntity w
  | CallDestroyEntity entity => after (DestroyEntity entity) w
  | CallProcessDestructions => after ProcessDestructions w
  | CallAddComponent T entity component => after (AddComponent T entity component) w
  | CallRemoveComponent T entity => after (RemoveComponent T entity) w
  | CallHasComponent T entity => after (HasComponent T entity) w
  | CallGetComponent T entity => after (GetComponent T entity) w
  | CallGetComponentMask entity => after (GetComponentMask entity) w
  | CallRegisterSystem T requires => after (RegisterSystem T requires) w
  | CallSetActive system active => after (System_SetActive system active) w
  | CallUpdateSystems deltaTime => after (UpdateSystems deltaTime) w
  | CallRenderSystems => after RenderSystems w
  end.

Definition perform_all `{UnorderedMapOrder} (calls : list Call) : World :=
  foldl perform initial calls.
(** ** Further vocabulary: type identifiers, the pool, the component maps *)

(** The component types in use have distinct identifiers, all below the
    counter. *)
Definition component_types_wf (w : World) : Prop :=
  (∀ T id, componentTypeID w !! T = Some id → id < s_componentTypeCounter w) ∧
  (∀ T T' id, componentTypeID w !! T = Some id →
              componentTypeID w !! T' = Some id → T = T').

(** [n] calls of [CreateEntity]: the identifiers returned, in call order. *)
Fixpoint create_list (n : nat) : M (list N) :=
  match n with
  | O => ret []
  | S k =>
      let* id := CreateEntity in
      let* ids := create_list k in
      ret (id :: ids)
  end.

(** A stored component is recorded in the mask: the converse of [stored]. *)
Definition backed (w : World) : Prop :=
  ∀ entity components componentID component,
    m_entityComponents w !! entity = Some components →
    components !! componentID = Some component →
    ∃ mask, m_entityMasks w !! entity = Some mask ∧
            N.testbit mask componentID = true.

(** The component type of an [AddComponent] has an identifier that the mask
    can hold. *)
Definition within_capacity (w : World) (c : Call) : Prop :=
  match c with
  | CallAddComponent T _ _ => typeid_of T w < MAX_COMPONENTS
  | _ => True
  end.

Fixpoint all_within_capacity `{UnorderedMapOrder} (w : World) (calls : list Call) : Prop :=
  match calls with
  | [] => True
  | c :: rest => within_capacity w c ∧ all_within_capacity (perform w c) rest
  end.

(** [other] has in [w'] the mask, the components and the subscriptions it
    has in [w], and no hook was called for it in between. *)
Definition untouched (w w' : World) (other : N) : Prop :=
  m_entityMasks w' !! other = m_entityMasks w !! other ∧
  m_entityComponents w' !! other = m_entityComponents w !! other ∧
  (∀ system, subscribed w' system other ↔ subscribed w system other) ∧
  (∀ system, (System_OnEntityAdded system other ∉ emitted w w') ∧
             (System_OnEntityRemoved system other ∉ emitted w w')).

(** ** [Engine] (src/Assets/engine.h)

    The engine owns one [EntityManager].  A [float] of the engine is a
    binary32 number of IEEE 754, a [spec_float] with precision 24 and maximal
    exponent 128, and the arithmetic of [Run] rounds to nearest even;
    [float_value] reads the number that a bit pattern stands for.  The
    reading of the clock is an input of a turn of the loop: the quotient
    [deltaTime] of the time since the turn before.  The inner loop of a turn
    ends when the accumulator has fallen below the time step, which is a
    matter of the numbers: the loop is defined with a bound [fuel] on its
    turns, and gives [None] when it has not ended within the bound.  The
    sleep that limits the frame rate, after [Render], changes nothing in the
    engine or in the manager.  A callback is a [std::function]; an empty one
    is [None]. *)

Definition binary32 : Type := spec_float.

Definition binary32_add : binary32 → binary32 → binary32 := SFadd 24 128.
Definition binary32_sub : binary32 → binary32 → binary32 := SFsub 24 128.
Definition binary32_div : binary32 → binary32 → binary32 := SFdiv 24 128.
(** [x >= y] *)
Definition binary32_ge (x y : binary32) : bool := SFleb y x.
(** The literals [0.0f], [1.0f] and [60.0f]. *)
Definition binary32_of_int (n : Z) : binary32 := binary_normalize 24 128 n 0 false.

(** The number of a bit pattern: the sign in bit 31, the exponent in the
    bits 23 to 30, the fraction in the bits 0 to 22. *)
Definition float_value (x : float) : binary32 :=
  let 'float_bits b := x in
  let sign := N.testbit b 31 in
  let exponent := (b / 2 ^ 23) mod 2 ^ 8 in
  let fraction := b mod 2 ^ 23 in
  if exponent =? 0 then
    match fraction with
    | N0 => S754_zero sign
    | Npos m => S754_finite sign m (-149)
    end
  else if exponent =? 255 then
    match fraction with
    | N0 => S754_infinity sign
    | Npos _ => S754_nan
    end
  else
    let significand :=
      match fraction with
      | N0 => (2 ^ 23)%positive
      | Npos m => (2 ^ 23 + m)%positive
      end in
    S754_finite sign significand (Z.of_N exponent - 150).

Record Callbacks := mkCallbacks {
  m_updateCallback : option (float → M unit);
  m_renderCallback : option (M unit);
  m_fixedUpdateCallback : option (binary32 → M unit)
}.

(** No callback was registered. *)
Definition no_callbacks : Callbacks :=
  {| m_updateCallback := None; m_renderCallback := None;
     m_fixedUpdateCallback := None |}.

(** The numbers that a turn of the loop reads and writes. *)
Record Engine := mkEngine {
  m_deltaTime : binary32;
  m_frameRate : binary32;
  m_fixedUpdateRate : binary32;
  m_fixedUpdateAccumulator : binary32
}.

(** The engine as its constructor leaves it. *)
Definition Engine_new : Engine :=
  {| m_deltaTime := binary32_of_int 0; m_frameRate := binary32_of_int 0;
     m_fixedUpdateRate := binary32_of_int 60;
     m_fixedUpdateAccumulator := binary32_of_int 0 |}.

(** An engine whose accumulator holds 2^20 seconds. *)
Definition stalled_engine : Engine :=
  {| m_deltaTime := binary32_of_int 0; m_frameRate := binary32_of_int 0;
     m_fixedUpdateRate := binary32_of_int 60;
     m_fixedUpdateAccumulator := binary32_of_int (2 ^ 20) |}.

Section Engine.
Context `{order : UnorderedMapOrder}.

Definition Engine_Update (cb : Callbacks) (deltaTime : float) : M unit :=
  UpdateSystems deltaTime >>
  if m_updateCallback cb is Some callback then callback deltaTime else ret tt.

Definition Engine_Render (cb : Callbacks) : M unit :=
  RenderSystems >>
  if m_renderCallback cb is Some callback then callback else ret tt.

Definition Engine_FixedUpdate (cb : Callbacks) (fixedDeltaTime : binary32) : M unit :=
  if m_fixedUpdateCallback cb is Some callback
  then callback fixedDeltaTime else ret tt.

(** The inner loop of [Run], from the accumulator [accumulator]: the
    accumulator at its end, or [None] when [fuel] turns have not ended
    it. *)
Fixpoint fixed_updates (cb : Callbacks) (fixedDeltaTime : binary32) (fuel : nat)
    (accumulator : binary32) : M (option binary32) :=
  if binary32_ge accumulator fixedDeltaTime then
    match fuel with
    | O => ret None
    | S k =>
        Engine_FixedUpdate cb fixedDeltaTime >>
        fixed_updates cb fixedDeltaTime k (binary32_sub accumulator fixedDeltaTime)
    end
  else ret (Some accumulator).

(** One turn of the loop of [Engine::Run]: the engine after the turn, or
    [None] when the inner loop has not ended within [fuel] turns. *)
Definition Engine_turn (cb : Callbacks) (deltaTime : float) (fuel : nat)
    (engine : Engine) : M (option Engine) :=
  let frameRate := binary32_div (binary32_of_int 1) (float_value deltaTime) in
  ProcessDestructions >>
  Engine_Update cb deltaTime >>
  let accumulator :=
    binary32_add (m_fixedUpdateAccumulator engine) (float_value deltaTime) in
  let fixedDeltaTime :=
    binary32_div (binary32_of_int 1) (m_fixedUpdateRate engine) in
  let* rest := fixed_updates cb fixedDeltaTime fuel accumulator in
  match rest with
  | None => ret None
  | Some accumulator' =>
      Engine_Render cb >>
      ret (Some {| m_deltaTime := float_value deltaTime; m_frameRate := frameRate;
                   m_fixedUpdateRate := m_fixedUpdateRate engine;
                   m_fixedUpdateAccumulator := accumulator' |})
  end.
End Engine.

(** ** [HeroSystem::CreateHero] (src/Assets/hero_system.cpp)

    The calls that [CreateHero] makes on the manager of the system.  The
    arguments are the component instances that the three [std::make_shared]
    build.  The hooks that [HeroSystem] overrides read the manager and write
    the map of the system only. *)
Section HeroSystem.
Context `{order : UnorderedMapOrder}.

Definition HeroSystem_CreateHero (heroComponent transform meshRenderer : N) : M N :=
  let* entity := CreateEntity in
  AddComponent "HeroComponent" entity heroComponent >>
  AddComponent "Transform" entity transform >>
  AddComponent "MeshRenderer" entity meshRenderer >>
  ret entity.
End HeroSystem.
(** * The Proof-of-Play consensus of [package consensus]

    A shallow embedding of the Go code that follows the C++ header in
    src/Assets/ecs.h.

    Conventions of the embedding.
    - A Go [string] is a sequence of bytes: a [string] of Rocq; [len] is
      [String.length], and the slice [key[:n]] panics when [n] exceeds the
      length.
    - [float64] is IEEE 754 binary64 with rounding to nearest even: a
      [spec_float] with precision 53 and maximal exponent 1024.
    - [int] and [int64] are 64-bit two's complement integers: values of [Z],
      with the wrap-around [int64].
    - [time.Now().Unix()] is an input, [now].
    - An [error] is its message; [nil] is [None].
    - The receiver [pop] is a pointer to a [ProofOfPlay]: the methods are
      embedded for a pointer that is not nil, as functions of the value it
      points to.
    - A map is [nil], or made by [make]: [Votes] is an [option] of a [gmap],
      [None] for [nil], as in the zero value of [ProofOfPlay].  A nil map
      reads as an empty map, [recorded_votes]; an assignment to an entry of
      a nil map panics.  A [range] over a map visits its entries in an order
      that the language leaves open: the loop of [HasConsensus] is defined on
      a list of entries, and gives the same result for every order of the
      list.
    - A slice is a [list]: the nil slice and the empty slice are both [[]],
      which [len], [range] and [append] do not tell apart.
    - [SelectBlockProducer] reads the clock once for each validator and draws
      one random number: the readings [clock i] and the value [draw] of
      [rand.Float64()] are inputs.
    - [ValidateBlock] computes a SHA-256 digest: it is not embedded. *)

Definition float64 : Type := spec_float.

Definition float64_add : float64 → float64 → float64 := SFadd 53 1024.
Definition float64_mul : float64 → float64 → float64 := SFmul 53 1024.
Definition float64_div : float64 → float64 → float64 := SFdiv 53 1024.
(** [x >= y] *)
Definition float64_ge (x y : float64) : bool := SFleb y x.
(** The conversion [float64(n)] of an integer. *)
Definition float64_of_int (n : Z) : float64 := binary_normalize 53 1024 n 0 false.

(** The value of a 64-bit signed integer after an operation. *)
Definition int64 (z : Z) : Z := ((z + 2 ^ 63) mod 2 ^ 64 - 2 ^ 63)%Z.

(** How a Go call ends: with a value, or in a run-time panic. *)
Inductive GoResult (A : Type) :=
| Value (a : A)
| Panic.
Arguments Value {A} a.
Arguments Panic {A}.

Record Validator := mkValidator {
  Address : string;
  Stake : float64;
  PlayScore : float64;
  LastActivity : Z;
  IsGameNode : bool
}.

Record ProofOfPlay := mkProofOfPlay {
  MinValidators : Z;
  FinalityThreshold : Z;
  Validators : list Validator;
  Votes : option (gmap string bool)
}.

Definition with_Validators (validators : list Validator) (pop : ProofOfPlay) : ProofOfPlay :=
  {| MinValidators := MinValidators pop; FinalityThreshold := FinalityThreshold pop;
     Validators := validators; Votes := Votes pop |}.

Definition with_Votes (votes : option (gmap string bool)) (pop : ProofOfPlay)
    : ProofOfPlay :=
  {| MinValidators := MinValidators pop; FinalityThreshold := FinalityThreshold pop;
     Validators := Validators pop; Votes := votes |}.

Definition NewProofOfPlay : ProofOfPlay :=
  {| MinValidators := 3; FinalityThreshold := 67; Validators := [];
     Votes := Some ∅ |}.

(** The zero value of the type: [ProofOfPlay{}], or [new(ProofOfPlay)]. *)
Definition zero_ProofOfPlay : ProofOfPlay :=
  {| MinValidators := 0; FinalityThreshold := 0; Validators := []; Votes := None |}.

(** The entries that a read of [pop.Votes] finds. *)
Definition recorded_votes (pop : ProofOfPlay) : gmap string bool :=
  default ∅ (Votes pop).

Definition RegisterValidator (address : string) (stake : float64) (isGameNode : bool)
    (now : Z) (pop : ProofOfPlay) : ProofOfPlay :=
  let validator :=
    {| Address := address; Stake := stake; PlayScore := float64_of_int 0;
       LastActivity := now; IsGameNode := isGameNode |} in
  with_Validators (Validators pop ++ [validator]) pop.

(** The loop of [UpdatePlayScore]: the first validator with the address is
    updated, and the loop returns; [None] when the loop runs to its end. *)
Fixpoint update_first (address : string) (activityValue : float64) (now : Z)
    (validators : list Validator) : option (list Validator) :=
  match validators with
  | [] => None
  | validator :: rest =>
      if String.eqb (Address validator) address then
        Some ({| Address := Address validator; Stake := Stake validator;
                 PlayScore := float64_add (PlayScore validator) activityValue;
                 LastActivity := now; IsGameNode := IsGameNode validator |} :: rest)
      else (validator ::.) <$> update_first address activityValue now rest
  end.

Definition UpdatePlayScore (address : string) (activityValue : float64) (now : Z)
    (pop : ProofOfPlay) : ProofOfPlay * option string :=
  match update_first address activityValue now (Validators pop) with
  | Some validators => (with_Validators validators pop, None)
  | None => (pop, Some "validator not found")
  end.

(** The loop that looks for a validator with the address, in
    [ValidateBlock] and in [VoteForBlock]. *)
Fixpoint isRegistered (address : string) (validators : list Validator) : bool :=
  match validators with
  | [] => false
  | validator :: rest =>
      if String.eqb (Address validator) address then true
      else isRegistered address rest
  end.

Definition VoteForBlock (blockHash validatorAddress : string) (approve : bool)
    (pop : ProofOfPlay) : GoResult (ProofOfPlay * option string) :=
  if negb (isRegistered validatorAddress (Validators pop))
  then Value (pop, Some "validator not registered")
  else
    let voteKey := blockHash +:+ ":" +:+ validatorAddress in
    match Votes pop with
    | Some votes => Value (with_Votes (Some (<[voteKey := approve]> votes)) pop, None)
    | None => Panic
    end.

(** The slice [s[:n]]. *)
Definition slice_to (s : string) (n : nat) : GoResult string :=
  if (n <=? String.length s)%nat then Value (String.substring 0 n s) else Panic.

(** The loop of [HasConsensus] over the entries [entries], from the counts
    [(approvalCount, totalVotes)]. *)
Fixpoint tally (blockHash : string) (entries : list (string * bool))
    (counts : Z * Z) : GoResult (Z * Z) :=
  match entries with
  | [] => Value counts
  | (key, approved) :: rest =>
      match slice_to key (String.length blockHash) with
      | Panic => Panic
      | Value head =>
          if String.eqb head blockHash then
            let totalVotes := int64 (counts.2 + 1) in
            let approvalCount :=
              if approved then int64 (counts.1 + 1) else counts.1 in
            tally blockHash rest (approvalCount, totalVotes)
          else tally blockHash rest counts
      end
  end.

(** What [HasConsensus] returns after its loop. *)
Definition verdict (pop : ProofOfPlay) (counts : Z * Z) : bool * float64 :=
  let (approvalCount, totalVotes) := counts in
  if (totalVotes =? 0)%Z then (false, float64_of_int 0)
  else
    let approvalPercentage :=
      float64_div (float64_mul (float64_of_int approvalCount) (float64_of_int 100))
        (float64_of_int totalVotes) in
    (float64_ge approvalPercentage (float64_of_int (FinalityThreshold pop)),
     approvalPercentage).

Definition HasConsensus (blockHash : string) (pop : ProofOfPlay)
    : GoResult (bool * float64) :=
  match tally blockHash (map_to_list (recorded_votes pop)) (0%Z, 0%Z) with
  | Value counts => Value (verdict pop counts)
  | Panic => Panic
  end.

Definition ResetVotes (pop : ProofOfPlay) : ProofOfPlay := with_Votes (Some ∅) pop.




(** [baseWeight * validator.Stake * (1 + validator.PlayScore)] *)
Definition weight_of (validator : Validator) : float64 :=
  let baseWeight :=
    if IsGameNode validator then float64_of_int 2 else float64_of_int 1 in
  float64_mul (float64_mul baseWeight (Stake validator))
    (float64_add (float64_of_int 1) (PlayScore validator)).

(** The first loop of [SelectBlockProducer], from the index [i]: the weights,
    and the total weight. *)
Fixpoint weigh (clock : nat → Z) (i : nat) (validators : list Validator)
    (totalWeight : float64) : list float64 * float64 :=
  match validators with
  | [] => ([], totalWeight)
  | validator :: rest =>
      if (86400 <? int64 (clock i - LastActivity validator))%Z then
        let (weights, total) := weigh clock (S i) rest totalWeight in
        (float64_of_int 0 :: weights, total)
      else
        let weight := weight_of validator in
        let (weights, total) :=
          weigh clock (S i) rest (float64_add totalWeight weight) in
        (weight :: weights, total)
  end.

(** The second loop, from the index [i]: the index it returns at, if any. *)
Fixpoint pick (selection : float64) (i : nat) (weights : list float64)
    (cumulativeWeight : float64) : option nat :=
  match weights with
  | [] => None
  | weight :: rest =>
      let cumulativeWeight := float64_add cumulativeWeight weight in
      if float64_ge cumulativeWeight selection then Some i
      else pick selection (S i) rest cumulativeWeight
  end.

(** [pop.Validators[i].Address] *)
Definition address_at (pop : ProofOfPlay) (i : nat) : GoResult (string * option string) :=
  match Validators pop !! i with
  | Some validator => Value (Address validator, None)
  | None => Panic
  end.

Definition SelectBlockProducer (clock : nat → Z) (draw : float64) (pop : ProofOfPlay)
    : GoResult (string * option string) :=
  if (Z.of_nat (length (Validators pop)) <? MinValidators pop)%Z
  then Value (EmptyString, Some "not enough validators")
  else
    let (weights, totalWeight) :=
      weigh clock 0 (Validators pop) (float64_of_int 0) in
    if SFleb totalWeight (float64_of_int 0)
    then Value (EmptyString, Some "no active validators with positive weight")
    else
      let selection := float64_mul draw totalWeight in
      match pick selection 0 weights (float64_of_int 0) with
      | Some i => address_at pop i
      | None => address_at pop 0
      end.

(** The vote key has the hash as its head. *)
Definition starts_with (blockHash key : string) : bool := String.prefix blockHash key.

(** The votes whose key has the hash as its head, and those of them that
    approve. *)
Definition votes_for (blockHash : string) (entries : list (string * bool))
    : list (string * bool) :=
  filter (λ entry, starts_with blockHash entry.1 = true) entries.

Definition approvals_for (blockHash : string) (entries : list (string * bool))
    : list (string * bool) :=
  filter (λ entry, entry.2 = true) (votes_for blockHash entries).

(** One validator, registered at time 1000 with a stake of 50. *)
Definition one_validator : ProofOfPlay :=
  RegisterValidator "alice" (float64_of_int 50) true 1000 NewProofOfPlay.

(** The address alice is registered a second time, at time 1500. *)
Definition alice_twice : ProofOfPlay :=
  RegisterValidator "alice" (float64_of_int 70) false 1500 one_validator.

(** alice has voted for the block "abc". *)
Definition one_vote : ProofOfPlay :=
  with_Votes (Some {[ "abc:alice" := true ]}) one_validator.

(** alice is registered with a [ProofOfPlay] that [NewProofOfPlay] did not
    make. *)
Definition no_map : ProofOfPlay :=
  RegisterValidator "alice" (float64_of_int 50) true 1000 zero_ProofOfPlay.

(** Three validators, registered at time 1000 with the stakes 50, 30 and
    20; the first is a game node. *)
Definition three_validators : ProofOfPlay :=
  RegisterValidator "carol" (float64_of_int 20) false 1000
    (RegisterValidator "bob" (float64_of_int 30) false 1000 one_validator).
(** * Properties *)

(** ** Masks *)

Lemma covers_superset (m required : N) :
  Bitset.covers m required = true ↔ superset m required.
Proof.
  unfold Bitset.covers, superset. rewrite N.eqb_eq. split.
  - intros Hland i Hi. rewrite <- Hland in Hi.
    rewrite N.land_spec in Hi. by apply andb_true_iff in Hi as [? _].
  - intros Hsup. apply N.bits_inj. intros i. rewrite N.land_spec.
    destruct (N.testbit required i) eqn:Hi.
    + by rewrite (Hsup i Hi).
    + apply andb_false_r.
Qed.

Lemma covers_empty (m : N) : Bitset.covers m Bitset.empty = true.
Proof. apply covers_superset. intros i Hi. by rewrite N.bits_0 in Hi. Qed.

Lemma superset_empty_inv (required : N) : superset 0 required → required = 0.
Proof.
  intros Hsup. apply N.bits_inj. intros i. rewrite N.bits_0.
  destruct (N.testbit required i) eqn:Hi; [|done].
  apply Hsup in Hi. by rewrite N.bits_0 in Hi.
Qed.

Lemma superset_setbit (m required i : N) :
  superset m required → superset (N.setbit m i) required.
Proof.
  intros Hsup j Hj. rewrite N.setbit_eqb. by rewrite (Hsup j Hj), orb_true_r.
Qed.

Lemma superset_clearbit (m required i : N) :
  superset (N.clearbit m i) required → superset m required.
Proof.
  intros Hsup j Hj. specialize (Hsup j Hj). rewrite N.clearbit_eqb in Hsup.
  by apply andb_true_iff in Hsup as [? _].
Qed.

(** ** The type identifiers *)

Lemma GetComponentTypeID_returns (T : string) (w : World) :
  result (GetComponentTypeID T) w = Ret (typeid_of T w).
Proof.
  unfold result, GetComponentTypeID, typeid_of.
  by destruct (componentTypeID w !! T).
Qed.

Lemma GetComponentTypeID_run (T : string) (w : World) :
  GetComponentTypeID T w = (Ret (typeid_of T w), after (GetComponentTypeID T) w).
Proof.
  rewrite <- GetComponentTypeID_returns. unfold result, after.
  by destruct (GetComponentTypeID T w).
Qed.

(** [GetComponentTypeID] touches the type registry only. *)
Lemma GetComponentTypeID_frame (T : string) (w : World) :
  let w' := after (GetComponentTypeID T) w in
  m_entityMasks w' = m_entityMasks w ∧
  m_entityComponents w' = m_entityComponents w ∧
  m_availableEntityIDs w' = m_availableEntityIDs w ∧
  m_nextEntityID w' = m_nextEntityID w ∧
  m_systems w' = m_systems w ∧
  m_entitiesToDestroy w' = m_entitiesToDestroy w ∧
  trace w' = trace w.
Proof.
  unfold after, GetComponentTypeID.
  by destruct (componentTypeID w !! T).
Qed.

Lemma GetComponentTypeID_again (T : string) (w : World) :
  componentTypeID (after (GetComponentTypeID T) w) !! T = Some (typeid_of T w).
Proof.
  unfold after, GetComponentTypeID, typeid_of.
  destruct (componentTypeID w !! T) eqn:HT; simpl; [done|].
  apply lookup_insert_eq.
Qed.

Lemma typeid_of_declared (T : string) (w : World) :
  typeid_of T (after (GetComponentTypeID T) w) = typeid_of T w.
Proof.
  unfold typeid_of at 1. by rewrite GetComponentTypeID_again.
Qed.

Lemma GetComponentTypeID_declared (T : string) (w : World) :
  after (GetComponentTypeID T) (after (GetComponentTypeID T) w)
  = after (GetComponentTypeID T) w.
Proof.
  unfold after at 1. unfold GetComponentTypeID at 1.
  by rewrite GetComponentTypeID_again.
Qed.

(** ** Range-for loops over [m_systems] *)

Lemma World_eq (w w' : World) :
  s_componentTypeCounter w = s_componentTypeCounter w' →
  s_systemTypeCounter w = s_systemTypeCounter w' →
  componentTypeID w = componentTypeID w' →
  systemTypeID w = systemTypeID w' →
  m_entityMasks w = m_entityMasks w' →
  m_entityComponents w = m_entityComponents w' →
  m_availableEntityIDs w = m_availableEntityIDs w' →
  m_nextEntityID w = m_nextEntityID w' →
  m_systems w = m_systems w' →
  m_entitiesToDestroy w = m_entitiesToDestroy w' →
  trace w = trace w' →
  w = w'.
Proof. destruct w, w'; simpl; intros; by subst. Qed.

Lemma list_bind_ext_elem {A B} (f g : A → list B) (l : list A) :
  (∀ x, x ∈ l → f x = g x) → l ≫= f = l ≫= g.
Proof.
  induction l as [|x l IH]; intros Hfg; [done|].
  rewrite !bind_cons. rewrite Hfg by set_solver. f_equal.
  apply IH. intros y Hy. apply Hfg. set_solver.
Qed.

Section visits.
Variable g : Visit.

Lemma visit_eq (w : World) (id : N) :
  visit g w id
  = set_trace (trace (visit g w id)) (set_systems (m_systems (visit g w id)) w).
Proof.
  unfold visit. destruct (m_systems w !! id) as [s|]; [destruct (g id s) as [[s' evs]|]|];
    simpl; try done; destruct w; reflexivity.
Qed.

Lemma visit_all_eq (ids : list N) (w : World) :
  visit_all g ids w
  = set_trace (trace (visit_all g ids w))
      (set_systems (m_systems (visit_all g ids w)) w).
Proof.
  revert w. induction ids as [|id ids IH]; intros w.
  - destruct w; reflexivity.
  - unfold visit_all in *. simpl. rewrite IH at 1.
    rewrite (visit_eq w id) at 3. destruct w; reflexivity.
Qed.

Lemma visit_lookup (w : World) (id id' : N) :
  m_systems (visit g w id) !! id'
  = if decide (id' = id) then visited g id <$> m_systems w !! id
    else m_systems w !! id'.
Proof.
  unfold visit, visited. destruct (m_systems w !! id) as [s|] eqn:Hs.
  - simpl. destruct (g id s) as [[s' evs]|]; simpl.
    + destruct (decide (id' = id)) as [->|Hne].
      * by rewrite lookup_insert_eq.
      * by rewrite lookup_insert_ne.
    + destruct (decide (id' = id)) as [->|Hne]; [by rewrite Hs|done].
  - destruct (decide (id' = id)) as [->|Hne]; [by rewrite Hs|done].
Qed.

Lemma visit_trace (w : World) (id : N) :
  trace (visit g w id)
  = trace w ++ from_option (heard g id) [] (m_systems w !! id).
Proof.
  unfold visit, heard. destruct (m_systems w !! id) as [s|]; simpl.
  - destruct (g id s) as [[s' evs]|]; simpl; [done|by rewrite app_nil_r].
  - by rewrite app_nil_r.
Qed.

Lemma visit_all_lookup (ids : list N) (w : World) (id : N) :
  NoDup ids →
  m_systems (visit_all g ids w) !! id
  = if decide (id ∈ ids) then visited g id <$> m_systems w !! id
    else m_systems w !! id.
Proof.
  revert w. induction ids as [|i ids IH]; intros w Hnd.
  - by rewrite decide_False by set_solver.
  - apply NoDup_cons in Hnd as [Hi Hnd]. unfold visit_all in *. simpl.
    rewrite IH by done. rewrite !visit_lookup.
    destruct (decide (id = i)) as [->|Hne].
    + rewrite decide_False by done. by rewrite decide_True by set_solver.
    + destruct (decide (id ∈ ids)).
      * by rewrite decide_True by set_solver.
      * by rewrite decide_False by set_solver.
Qed.

Lemma visit_all_trace (ids : list N) (w : World) :
  NoDup ids →
  trace (visit_all g ids w)
  = trace w ++ (ids ≫= λ id, from_option (heard g id) [] (m_systems w !! id)).
Proof.
  revert w. induction ids as [|i ids IH]; intros w Hnd.
  - simpl. by rewrite app_nil_r.
  - apply NoDup_cons in Hnd as [Hi Hnd]. unfold visit_all in *. simpl.
    rewrite IH by done. rewrite visit_trace, <- app_assoc. do 2 f_equal.
    apply list_bind_ext_elem. intros id Hid.
    rewrite visit_lookup. by rewrite decide_False by set_solver.
Qed.

(** A loop whose body does what [g] says, in every world that the loop can
    be in, is the fold of [g]. *)
Lemma for_each_visit (P : World → Prop) (body : N → M unit)
    (ids : list N) (w : World) :
  (∀ id w', P w' → P (visit g w' id)) →
  (∀ id w', id ∈ ids → P w' → body id w' = (Ret tt, visit g w' id)) →
  P w →
  for_each ids body w = (Ret tt, visit_all g ids w).
Proof.
  intros HP Hbody. revert w. induction ids as [|i ids IH]; intros w Hw.
  - done.
  - simpl. unfold bind. rewrite Hbody by (done || set_solver).
    apply IH; [|by apply HP]. intros id w' Hid. apply Hbody. set_solver.
Qed.
End visits.

(** The keys in visiting order: every key once. *)
Lemma iterate_keys `{UnorderedMapOrder} {V} (m : gmap N V) :
  NoDup (iterate m).*1 ∧ ∀ id, id ∈ (iterate m).*1 ↔ is_Some (m !! id).
Proof.
  split.
  - rewrite (iterate_perm V m). apply NoDup_fst_map_to_list.
  - intros id. rewrite (iterate_perm V m). rewrite list_elem_of_fmap. split.
    + intros [[i v] [-> Hin]]. apply elem_of_map_to_list in Hin. by exists v.
    + intros [v Hv]. exists (id, v). split; [done|]. by apply elem_of_map_to_list.
Qed.

Lemma for_each_fst {A B} (l : list (A * B)) (body : A → M unit) :
  for_each l (λ p, body p.1) = for_each l.*1 body.
Proof. induction l as [|p l IH]; simpl; [done|]. by rewrite IH. Qed.

Lemma visit_frame (g : Visit) (w : World) (id : N) :
  let w' := visit g w id in
  s_componentTypeCounter w' = s_componentTypeCounter w ∧
  componentTypeID w' = componentTypeID w ∧
  m_entityMasks w' = m_entityMasks w ∧
  m_entityComponents w' = m_entityComponents w ∧
  m_availableEntityIDs w' = m_availableEntityIDs w ∧
  m_nextEntityID w' = m_nextEntityID w ∧
  m_entitiesToDestroy w' = m_entitiesToDestroy w.
Proof. simpl. by rewrite visit_eq. Qed.

Lemma visit_all_frame (g : Visit) (ids : list N) (w : World) :
  let w' := visit_all g ids w in
  s_componentTypeCounter w' = s_componentTypeCounter w ∧
  componentTypeID w' = componentTypeID w ∧
  m_entityMasks w' = m_entityMasks w ∧
  m_entityComponents w' = m_entityComponents w ∧
  m_availableEntityIDs w' = m_availableEntityIDs w ∧
  m_nextEntityID w' = m_nextEntityID w ∧
  m_entitiesToDestroy w' = m_entitiesToDestroy w.
Proof. simpl. by rewrite visit_all_eq. Qed.

Lemma visit_is_Some (g : Visit) (w : World) (i id : N) :
  is_Some (m_systems (visit g w i) !! id) ↔ is_Some (m_systems w !! id).
Proof.
  rewrite visit_lookup. destruct (decide (id = i)) as [->|]; [|done].
  apply fmap_is_Some.
Qed.

Lemma in_loop_visit (g : Visit) (w w' : World) (id : N) :
  in_loop w w' → in_loop w (visit g w' id).
Proof.
  intros [Hdom Hmasks]. split.
  - intros i. by rewrite visit_is_Some.
  - by rewrite (proj1 (proj2 (proj2 (visit_frame g w' id)))).
Qed.

Lemma System_RemoveEntity_visit (entity id : N) (w : World) :
  is_Some (m_systems w !! id) →
  System_RemoveEntity id entity w = (Ret tt, visit (on_remove entity) w id).
Proof.
  intros [s Hs]. unfold System_RemoveEntity, visit, on_remove, bind, system_deref.
  rewrite Hs. by destruct (bool_decide (entity ∈ m_entities s)).
Qed.

Section loops.
Context `{order : UnorderedMapOrder}.

Lemma remove_loop (entity : N) (w : World) :
  for_each (iterate (m_systems w))
    (λ systemPair, System_RemoveEntity systemPair.1 entity) w
  = (Ret tt, visit_all (on_remove entity) (iterate (m_systems w)).*1 w).
Proof.
  rewrite (for_each_fst _ (λ id, System_RemoveEntity id entity)).
  apply (for_each_visit _ (in_loop w)).
  - intros id w'. apply in_loop_visit.
  - intros id w' Hid [Hdom _]. apply System_RemoveEntity_visit.
    apply Hdom. by apply iterate_keys.
  - by split.
Qed.

Lemma attach_loop (entity mask : N) (w : World) :
  m_entityMasks w !! entity = Some mask →
  for_each (iterate (m_systems w)) (λ systemPair,
    let* s := system_deref systemPair.1 in
    let* mask := entityMasks_index entity in
    if Bitset.covers mask (m_componentMask s)
    then System_AddEntity systemPair.1 entity
    else ret tt) w
  = (Ret tt, visit_all (on_attach entity mask) (iterate (m_systems w)).*1 w).
Proof.
  intros Hmask.
  rewrite (for_each_fst _ (λ id,
    let* s := system_deref id in
    let* mask := entityMasks_index entity in
    if Bitset.covers mask (m_componentMask s)
    then System_AddEntity id entity
    else ret tt)).
  apply (for_each_visit _ (in_loop w)).
  - intros id w'. apply in_loop_visit.
  - intros id w' Hid [Hdom Hmasks].
    destruct (proj2 (Hdom id)) as [s Hs]; [by apply iterate_keys|].
    unfold bind, system_deref, entityMasks_index, visit, on_attach.
    rewrite Hs, Hmasks, Hmask.
    destruct (Bitset.covers mask (m_componentMask s)); [|done].
    unfold System_AddEntity, bind, system_deref. by rewrite Hs.
  - by split.
Qed.

Lemma detach_loop (entity mask : N) (w : World) :
  m_entityMasks w !! entity = Some mask →
  for_each (iterate (m_systems w)) (λ systemPair,
    let* s := system_deref systemPair.1 in
    let* mask := entityMasks_index entity in
    if negb (Bitset.covers mask (m_componentMask s))
    then System_RemoveEntity systemPair.1 entity
    else ret tt) w
  = (Ret tt, visit_all (on_detach entity mask) (iterate (m_systems w)).*1 w).
Proof.
  intros Hmask.
  rewrite (for_each_fst _ (λ id,
    let* s := system_deref id in
    let* mask := entityMasks_index entity in
    if negb (Bitset.covers mask (m_componentMask s))
    then System_RemoveEntity id entity
    else ret tt)).
  apply (for_each_visit _ (in_loop w)).
  - intros id w'. apply in_loop_visit.
  - intros id w' Hid [Hdom Hmasks].
    destruct (proj2 (Hdom id)) as [s Hs]; [by apply iterate_keys|].
    unfold bind, system_deref, entityMasks_index, visit, on_detach.
    rewrite Hs, Hmasks, Hmask.
    destruct (Bitset.covers mask (m_componentMask s)); [done|]. simpl.
    rewrite System_RemoveEntity_visit by (by rewrite Hs).
    unfold visit. by rewrite Hs.
  - by split.
Qed.

(** The systems after a loop over all of them. *)
Lemma visit_all_systems (g : Visit) (w : World) (id : N) :
  m_systems (visit_all g (iterate (m_systems w)).*1 w) !! id
  = visited g id <$> m_systems w !! id.
Proof.
  destruct (iterate_keys (m_systems w)) as [Hnd Hin].
  rewrite visit_all_lookup by done. destruct (decide _) as [|Hout]; [done|].
  rewrite Hin in Hout. apply eq_None_not_Some in Hout. by rewrite Hout.
Qed.

(** The hooks called by a loop over all of them. *)
Lemma visit_all_heard (g : Visit) (w : World) :
  trace (visit_all g (iterate (m_systems w)).*1 w)
  = trace w ++ (iterate (m_systems w) ≫= λ p, heard g p.1 p.2).
Proof.
  destruct (iterate_keys (m_systems w)) as [Hnd Hin].
  rewrite visit_all_trace by done. f_equal.
  assert (Hall : ∀ p, p ∈ iterate (m_systems w) → m_systems w !! p.1 = Some p.2).
  { intros [i s]. rewrite (iterate_perm _ (m_systems w)).
    apply elem_of_map_to_list. }
  clear Hnd Hin. revert Hall. generalize (iterate (m_systems w)) as l.
  induction l as [|p l IH]; intros Hall; [done|].
  rewrite fmap_cons, !bind_cons. rewrite (Hall p) by apply list_elem_of_here.
  simpl. f_equal. apply IH. intros q Hq. apply Hall. by apply list_elem_of_further.
Qed.
End loops.

(** ** What each operation computes *)

Lemma bind_run {A B} (m : M A) (k : A → M B) (w w' : World) (a : A) :
  m w = (Ret a, w') → bind m k w = k a w'.
Proof. unfold bind. by intros ->. Qed.

Lemma bind_throw {A B} (m : M A) (k : A → M B) (w w' : World) (x : exception) :
  m w = (Throw x, w') → bind m k w = (Throw x, w').
Proof. unfold bind. by intros ->. Qed.

Lemma bind_undefined {A B} (m : M A) (k : A → M B) (w w' : World) :
  m w = (Undefined, w') → bind m k w = (Undefined, w').
Proof. unfold bind. by intros ->. Qed.

Tactic Notation "run_with" tactic3(tac) := erewrite bind_run; [|tac].
Ltac run := erewrite bind_run; [|reflexivity].

Lemma entityMasks_index_live (entity mask : N) (w : World) :
  m_entityMasks w !! entity = Some mask →
  entityMasks_index entity w = (Ret mask, w).
Proof. unfold entityMasks_index. by intros ->. Qed.

Lemma entityMasks_index_new (entity : N) (w : World) :
  m_entityMasks w !! entity = None →
  entityMasks_index entity w
  = (Ret Bitset.empty,
     set_entityMasks (<[entity := Bitset.empty]> (m_entityMasks w)) w).
Proof. unfold entityMasks_index. by intros ->. Qed.

Section runs.
Context `{order : UnorderedMapOrder}.

Lemma CreateEntity_run (w : World) :
  CreateEntity w
  = (Ret (upcoming w),
     set_entityComponents (<[upcoming w := ∅]> (m_entityComponents w))
       (set_entityMasks (<[upcoming w := Bitset.empty]> (m_entityMasks w))
          (set_entityIDs (tail (m_availableEntityIDs w))
             (if m_availableEntityIDs w is [] then uint32_incr (m_nextEntityID w)
              else m_nextEntityID w) w))).
Proof.
  unfold CreateEntity, bind, upcoming.
  by destruct (m_availableEntityIDs w).
Qed.

Lemma AddComponent_run (T : string) (entity component : N) (w : World) :
  typeid_of T w < MAX_COMPONENTS →
  AddComponent T entity component w
  = (Ret (Some component),
     visit_all
       (on_attach entity
          (N.setbit (default Bitset.empty (m_entityMasks w !! entity)) (typeid_of T w)))
       (iterate (m_systems w)).*1 (attach_store T entity component w)).
Proof.
  intros Hcap. apply N.ltb_lt in Hcap.
  destruct (GetComponentTypeID_frame T w) as (Hm & Hc & Hav & Hnx & Hs & Hp & Htr).
  unfold AddComponent.
  run_with (apply GetComponentTypeID_run). run.
  set (mask' := N.setbit (default Bitset.empty (m_entityMasks w !! entity)) (typeid_of T w)).
  assert (Hloop : ∀ w2,
    w2 = attach_store T entity component w →
    (let* systems := gets m_systems in
     for_each (iterate systems) (λ systemPair,
       let* s := system_deref systemPair.1 in
       let* mask := entityMasks_index entity in
       if Bitset.covers mask (m_componentMask s)
       then System_AddEntity systemPair.1 entity
       else ret tt) >>
     ret (Some component))
      w2
    = (Ret (Some component),
       visit_all (on_attach entity mask') (iterate (m_systems w)).*1
         (attach_store T entity component w))).
  { intros w2 ->. run.
    run_with (apply (attach_loop entity mask'); simpl; apply lookup_insert_eq).
    simpl. by rewrite Hs. }
  destruct (m_entityMasks w !! entity) as [mask|] eqn:Hmask.
  - run_with (apply (entityMasks_index_live entity mask); simpl; by rewrite Hm).
    run_with (unfold lift, Bitset.set; rewrite Hcap; reflexivity).
    run. run. apply Hloop.
    unfold attach_store, components_of. simpl. by rewrite Hm, Hc, Htr, Hmask.
  - run_with (apply (entityMasks_index_new entity); simpl; by rewrite Hm).
    run_with (unfold lift, Bitset.set; rewrite Hcap; reflexivity).
    run. run. apply Hloop.
    unfold attach_store, components_of. simpl.
    by rewrite Hm, Hc, Htr, Hmask, insert_insert_eq.
Qed.

(** Beyond the capacity of the mask, [AddComponent] throws after it has
    stored the component. *)
Lemma AddComponent_throws (T : string) (entity component : N) (w : World) :
  MAX_COMPONENTS ≤ typeid_of T w →
  AddComponent T entity component w
  = (Throw out_of_range,
     after (entityMasks_index entity)
       (set_entityComponents
          (<[entity := <[typeid_of T w := component]> (components_of entity w)]>
             (m_entityComponents w))
          (after (GetComponentTypeID T) w))).
Proof.
  intros Hcap. apply N.ltb_ge in Hcap.
  destruct (GetComponentTypeID_frame T w) as (Hm & Hc & Hav & Hnx & Hs & Hp & Htr).
  unfold AddComponent.
  run_with (apply GetComponentTypeID_run). run.
  replace (components_of entity (after (GetComponentTypeID T) w))
    with (components_of entity w) by (unfold components_of; by rewrite Hc).
  rewrite Hc.
  match goal with |- bind _ _ ?w1 = _ => set (W := w1) end.
  destruct (entityMasks_index entity W) as [[mask| |] w2] eqn:Hidx;
    try (unfold entityMasks_index in Hidx;
         destruct (m_entityMasks _ !! entity); discriminate).
  run_with (apply Hidx).
  erewrite bind_throw; [|unfold lift, Bitset.set; rewrite Hcap; reflexivity].
  unfold after. by rewrite Hidx.
Qed.

Lemma RemoveComponent_run (T : string) (entity mask component : N) (w : World) :
  typeid_of T w < MAX_COMPONENTS →
  m_entityMasks w !! entity = Some mask →
  N.testbit mask (typeid_of T w) = true →
  components_of entity w !! typeid_of T w = Some component →
  RemoveComponent T entity w
  = (Ret tt,
     visit_all (on_detach entity (N.clearbit mask (typeid_of T w)))
       (iterate (m_systems w)).*1 (detach_store T entity component w)).
Proof.
  intros Hcap Hmask Hbit Hcomp. apply N.ltb_lt in Hcap.
  destruct (GetComponentTypeID_frame T w) as (Hm & Hc & Hav & Hnx & Hs & Hp & Htr).
  unfold RemoveComponent.
  run_with (apply GetComponentTypeID_run).
  run_with (apply (entityMasks_index_live entity mask); by rewrite Hm).
  run_with (unfold lift, Bitset.test; rewrite Hcap; reflexivity).
  rewrite Hbit. cbn [negb].
  run. unfold components_of at 1. rewrite Hc. fold (components_of entity w).
  rewrite Hcomp. run. run.
  run_with (apply (entityMasks_index_live entity mask); simpl; by rewrite Hm).
  run_with (unfold lift, Bitset.reset; rewrite Hcap; reflexivity).
  run. run.
  match goal with |- for_each _ _ ?w2 = _ =>
    replace w2 with (detach_store T entity component w) end.
  - replace (m_systems (after (GetComponentTypeID T) w))
      with (m_systems (detach_store T entity component w)) by (by simpl).
    rewrite (detach_loop entity (N.clearbit mask (typeid_of T w))).
    + simpl. by rewrite Hs.
    + simpl. rewrite Hmask. apply lookup_insert_eq.
  - unfold detach_store, components_of. simpl.
    rewrite Hm, Hc, Htr, Hmask, lookup_insert_eq, insert_insert_eq. done.
Qed.

(** [RemoveComponent] of a component type that the entity does not have. *)
Lemma RemoveComponent_absent (T : string) (entity mask : N) (w : World) :
  typeid_of T w < MAX_COMPONENTS →
  m_entityMasks w !! entity = Some mask →
  N.testbit mask (typeid_of T w) = false →
  RemoveComponent T entity w = (Ret tt, after (GetComponentTypeID T) w).
Proof.
  intros Hcap Hmask Hbit. apply N.ltb_lt in Hcap.
  destruct (GetComponentTypeID_frame T w) as (Hm & _).
  unfold RemoveComponent.
  run_with (apply GetComponentTypeID_run).
  run_with (apply (entityMasks_index_live entity mask); by rewrite Hm).
  run_with (unfold lift, Bitset.test; rewrite Hcap; reflexivity).
  by rewrite Hbit.
Qed.

(** [RemoveComponent] on an identifier without a mask. *)
Lemma RemoveComponent_unknown (T : string) (entity : N) (w : World) :
  typeid_of T w < MAX_COMPONENTS →
  m_entityMasks w !! entity = None →
  RemoveComponent T entity w
  = (Ret tt,
     set_entityMasks (<[entity := Bitset.empty]> (m_entityMasks w))
       (after (GetComponentTypeID T) w)).
Proof.
  intros Hcap Hmask. apply N.ltb_lt in Hcap.
  destruct (GetComponentTypeID_frame T w) as (Hm & _).
  unfold RemoveComponent.
  run_with (apply GetComponentTypeID_run).
  run_with (apply (entityMasks_index_new entity); by rewrite Hm).
  run_with (unfold lift, Bitset.test; rewrite Hcap; reflexivity).
  rewrite Hm. by rewrite N.bits_0.
Qed.

Lemma RemoveComponent_throws (T : string) (entity : N) (w : World) :
  MAX_COMPONENTS ≤ typeid_of T w →
  RemoveComponent T entity w
  = (Throw out_of_range,
     after (entityMasks_index entity) (after (GetComponentTypeID T) w)).
Proof.
  intros Hcap. apply N.ltb_ge in Hcap.
  unfold RemoveComponent.
  run_with (apply GetComponentTypeID_run).
  set (W := after (GetComponentTypeID T) w).
  destruct (entityMasks_index entity W) as [[mask| |] w2] eqn:Hidx;
    try (unfold entityMasks_index in Hidx;
         destruct (m_entityMasks _ !! entity); discriminate).
  run_with (apply Hidx).
  erewrite bind_throw; [|unfold lift, Bitset.test; rewrite Hcap; reflexivity].
  unfold after. by rewrite Hidx.
Qed.

Lemma HasComponent_run (T : string) (entity mask : N) (w : World) :
  typeid_of T w < MAX_COMPONENTS →
  m_entityMasks w !! entity = Some mask →
  HasComponent T entity w
  = (Ret (N.testbit mask (typeid_of T w)), after (GetComponentTypeID T) w).
Proof.
  intros Hcap Hmask. apply N.ltb_lt in Hcap.
  destruct (GetComponentTypeID_frame T w) as (Hm & _).
  unfold HasComponent.
  run_with (apply GetComponentTypeID_run).
  run_with (unfold entityMasks_at; rewrite Hm, Hmask; reflexivity).
  unfold lift, Bitset.test. by rewrite Hcap.
Qed.


Lemma GetComponent_run (T : string) (entity mask : N) (w : World) :
  typeid_of T w < MAX_COMPONENTS →
  m_entityMasks w !! entity = Some mask →
  (N.testbit mask (typeid_of T w) = true →
   is_Some (components_of entity w !! typeid_of T w)) →
  GetComponent T entity w
  = (Ret (if N.testbit mask (typeid_of T w)
          then components_of entity w !! typeid_of T w else None),
     after (GetComponentTypeID T) w).
Proof.
  intros Hcap Hmask Hstored. apply N.ltb_lt in Hcap.
  destruct (GetComponentTypeID_frame T w) as (Hm & Hc & _).
  unfold GetComponent.
  run_with (apply GetComponentTypeID_run).
  run_with (unfold entityMasks_at; rewrite Hm, Hmask; reflexivity).
  run_with (unfold lift, Bitset.test; rewrite Hcap; reflexivity).
  destruct (N.testbit mask (typeid_of T w)); [|done]. simpl.
  destruct Hstored as [c Hcomp]; [done|]. rewrite Hcomp.
  unfold components_of in Hcomp.
  destruct (m_entityComponents w !! entity) as [cs|] eqn:Hcs; [|done].
  run_with (unfold entityComponents_at; rewrite Hc, Hcs; simpl in Hcomp;
            rewrite Hcomp; reflexivity).
  done.
Qed.


Lemma destroy_now_run (entity : N) (w : World) :
  destroy_now entity w
  = (Ret tt,
     erase_entity entity
       (visit_all (on_remove entity) (iterate (m_systems w)).*1 w)).
Proof.
  unfold destroy_now. run. run_with (apply remove_loop). by run.
Qed.
End runs.

(** ** [ProcessDestructions] *)

Lemma with_entities_same (s : System) : with_entities (m_entities s) s = s.
Proof. by destruct s. Qed.

Lemma visited_on_remove (entity id : N) (s : System) :
  visited (on_remove entity) id s
  = with_entities (m_entities s ∖ {[entity]}) s.
Proof.
  unfold visited, on_remove. case_bool_decide as Hin; simpl; [done|].
  replace (m_entities s ∖ {[entity]}) with (m_entities s) by set_solver.
  by rewrite with_entities_same.
Qed.

Lemma elem_of_removals (guard : System → bool) (entity : N)
    (l : list (N * System)) (ev : Event) :
  ev ∈ removals guard entity l ↔
  ∃ id s, ev = System_OnEntityRemoved id entity ∧ (id, s) ∈ l ∧
          guard s = true ∧ entity ∈ m_entities s.
Proof.
  unfold removals. rewrite list_elem_of_bind. split.
  - intros ([id s] & Hev & Hin). simpl in Hev.
    destruct (guard s) eqn:Hg; [|by apply elem_of_nil in Hev].
    unfold heard, on_remove in Hev. simpl in Hev.
    case_bool_decide; simpl in Hev; [|by apply elem_of_nil in Hev].
    apply list_elem_of_singleton in Hev. eauto 6.
  - intros (id & s & -> & Hin & Hg & Hsub). exists (id, s). split; [|done].
    simpl. rewrite Hg. unfold heard, on_remove. simpl.
    rewrite bool_decide_eq_true_2 by done. apply list_elem_of_here.
Qed.

Lemma NoDup_removals (guard : System → bool) (entity : N) (l : list (N * System)) :
  NoDup l.*1 → NoDup (removals guard entity l).
Proof.
  induction l as [|[id s] l IH]; intros Hnd; [constructor|].
  rewrite fmap_cons in Hnd. apply NoDup_cons in Hnd as [Hid Hnd].
  unfold removals. rewrite bind_cons. fold (removals guard entity l).
  assert (Hhead : ∀ ev,
    ev ∈ (if guard s then heard (on_remove entity) id s else []) →
    ev = System_OnEntityRemoved id entity).
  { intros ev Hev. destruct (guard s); [|by apply elem_of_nil in Hev].
    unfold heard, on_remove in Hev. simpl in Hev.
    case_bool_decide; simpl in Hev; [|by apply elem_of_nil in Hev].
    by apply list_elem_of_singleton in Hev. }
  apply NoDup_app. split_and!; [| |by apply IH].
  - simpl. destruct (guard s); [|constructor].
    unfold heard, on_remove. simpl. case_bool_decide; simpl;
      [apply NoDup_singleton|constructor].
  - intros ev Hev Hev'. apply Hhead in Hev as ->.
    apply elem_of_removals in Hev' as (id' & s' & [= <-] & Hin & _).
    apply Hid. apply list_elem_of_fmap. by exists (id, s').
Qed.

Section destructions.
Context `{order : UnorderedMapOrder}.

Lemma elem_of_iterate {V} (m : gmap N V) (id : N) (v : V) :
  (id, v) ∈ iterate m ↔ m !! id = Some v.
Proof. rewrite (iterate_perm V m). apply elem_of_map_to_list. Qed.

Lemma destroy_one_systems (w : World) (entity id : N) :
  m_systems (destroy_one w entity) !! id
  = (λ s, with_entities (m_entities s ∖ {[entity]}) s) <$> m_systems w !! id.
Proof.
  unfold destroy_one, erase_entity. simpl. rewrite visit_all_systems.
  destruct (m_systems w !! id); simpl; [|done]. by rewrite visited_on_remove.
Qed.

Lemma destroy_one_trace (w : World) (entity : N) :
  trace (destroy_one w entity)
  = trace w ++ removals always entity (iterate (m_systems w)).
Proof. unfold destroy_one, erase_entity. simpl. apply visit_all_heard. Qed.

Lemma destroy_one_frame (w : World) (entity : N) :
  let w' := destroy_one w entity in
  s_componentTypeCounter w' = s_componentTypeCounter w ∧
  componentTypeID w' = componentTypeID w ∧
  m_entityMasks w' = delete entity (m_entityMasks w) ∧
  m_entityComponents w' = delete entity (m_entityComponents w) ∧
  m_availableEntityIDs w' = m_availableEntityIDs w ++ [entity] ∧
  m_nextEntityID w' = m_nextEntityID w ∧
  m_entitiesToDestroy w' = m_entitiesToDestroy w.
Proof.
  destruct (visit_all_frame (on_remove entity) (iterate (m_systems w)).*1 w)
    as (H1 & H2 & H3 & H4 & H5 & H6 & H7).
  unfold destroy_one, erase_entity. simpl.
  by rewrite H1, H2, H3, H4, H5, H6, H7.
Qed.

Lemma for_each_destroy_now (l : list N) (w : World) :
  for_each l destroy_now w = (Ret tt, destroy_all l w).
Proof.
  revert w. induction l as [|e l IH]; intros w; [done|].
  simpl. run_with (apply destroy_now_run). apply IH.
Qed.

Lemma ProcessDestructions_run (w : World) :
  ProcessDestructions w
  = (Ret tt,
     set_entitiesToDestroy ∅
       (destroy_all (ascending (m_entitiesToDestroy w)) w)).
Proof.
  unfold ProcessDestructions. run. by run_with (apply for_each_destroy_now).
Qed.

Lemma destroy_all_frame (l : list N) (w : World) :
  let w' := destroy_all l w in
  s_componentTypeCounter w' = s_componentTypeCounter w ∧
  componentTypeID w' = componentTypeID w ∧
  m_availableEntityIDs w' = m_availableEntityIDs w ++ l ∧
  m_nextEntityID w' = m_nextEntityID w ∧
  m_entitiesToDestroy w' = m_entitiesToDestroy w.
Proof.
  revert w. induction l as [|e l IH]; intros w; simpl.
  - by rewrite app_nil_r.
  - destruct (IH (destroy_one w e)) as (H1 & H2 & H3 & H4 & H5).
    destruct (destroy_one_frame w e) as (G1 & G2 & _ & _ & G5 & G6 & G7).
    unfold destroy_all in *. simpl.
    rewrite H1, H2, H3, H4, H5, G1, G2, G5, G6, G7.
    by rewrite <- app_assoc.
Qed.

Lemma destroy_all_masks (l : list N) (w : World) (entity : N) :
  m_entityMasks (destroy_all l w) !! entity
  = if decide (entity ∈ l) then None else m_entityMasks w !! entity.
Proof.
  revert w. induction l as [|e l IH]; intros w.
  - by rewrite decide_False by apply not_elem_of_nil.
  - unfold destroy_all in *. simpl. rewrite IH.
    destruct (destroy_one_frame w e) as (_ & _ & -> & _).
    destruct (decide (entity ∈ l)) as [Hin|Hout].
    + rewrite decide_True; [done|by apply list_elem_of_further].
    + destruct (decide (entity = e)) as [->|Hne].
      * rewrite lookup_delete_eq. rewrite decide_True; [done|apply list_elem_of_here].
      * rewrite lookup_delete_ne by done. rewrite decide_False; [done|].
        intros [?|?]%elem_of_cons; done.
Qed.

Lemma destroy_all_components (l : list N) (w : World) (entity : N) :
  m_entityComponents (destroy_all l w) !! entity
  = if decide (entity ∈ l) then None else m_entityComponents w !! entity.
Proof.
  revert w. induction l as [|e l IH]; intros w.
  - by rewrite decide_False by apply not_elem_of_nil.
  - unfold destroy_all in *. simpl. rewrite IH.
    destruct (destroy_one_frame w e) as (_ & _ & _ & -> & _).
    destruct (decide (entity ∈ l)) as [Hin|Hout].
    + rewrite decide_True; [done|by apply list_elem_of_further].
    + destruct (decide (entity = e)) as [->|Hne].
      * rewrite lookup_delete_eq. rewrite decide_True; [done|apply list_elem_of_here].
      * rewrite lookup_delete_ne by done. rewrite decide_False; [done|].
        intros [?|?]%elem_of_cons; done.
Qed.

Lemma destroy_all_systems (l : list N) (w : World) (id : N) :
  m_systems (destroy_all l w) !! id
  = (λ s, with_entities (m_entities s ∖ list_to_set l) s) <$> m_systems w !! id.
Proof.
  revert w. induction l as [|e l IH]; intros w.
  - simpl. destruct (m_systems w !! id) as [s|]; simpl; [|done].
    replace (m_entities s ∖ ∅) with (m_entities s) by set_solver.
    by rewrite with_entities_same.
  - unfold destroy_all in *. simpl. rewrite IH, destroy_one_systems.
    destruct (m_systems w !! id) as [s|]; simpl; [|done].
    unfold with_entities. simpl. do 2 f_equal. set_solver.
Qed.

(** Every hook that the loop calls is [OnEntityRemoved], for a system and
    an entity that was subscribed to it, and no call is made twice. *)
Lemma destroy_all_trace (l : list N) (w : World) :
  NoDup l →
  ∃ evs, trace (destroy_all l w) = trace w ++ evs ∧ NoDup evs ∧
    ∀ ev, ev ∈ evs ↔
      ∃ id e, ev = System_OnEntityRemoved id e ∧ e ∈ l ∧ subscribed w id e.
Proof.
  revert w. induction l as [|e l IH]; intros w Hnd.
  - exists []. split_and!; [by rewrite app_nil_r|constructor|].
    intros ev. split; [by intros ?%elem_of_nil|].
    by intros (? & ? & _ & ?%elem_of_nil & _).
  - apply NoDup_cons in Hnd as [He Hnd].
    destruct (IH (destroy_one w e) Hnd) as (evs & Htr & Hnd' & Hin).
    exists (removals always e (iterate (m_systems w)) ++ evs).
    assert (Hsub : ∀ id e', subscribed (destroy_one w e) id e'
              ↔ subscribed w id e' ∧ e' ≠ e).
    { intros id e'. unfold subscribed. rewrite destroy_one_systems.
      destruct (m_systems w !! id) as [s|]; simpl.
      - split.
        + intros (s' & [= <-] & Hin'). simpl in Hin'. split; [|set_solver].
          exists s. split; [done|set_solver].
        + intros [(s' & [= <-] & Hin') Hne]. eexists. split; [done|].
          simpl. set_solver.
      - split; [by intros (? & ? & _)|by intros [(? & ? & _) _]]. }
    split_and!.
    + unfold destroy_all in *. simpl. rewrite Htr, destroy_one_trace.
      by rewrite app_assoc.
    + apply NoDup_app. split_and!; [|  |done].
      * apply NoDup_removals. apply iterate_keys.
      * intros ev Hev Hev'. apply elem_of_removals in Hev as (id & s & -> & _).
        apply Hin in Hev' as (id' & e' & [= <- <-] & He' & _). done.
    + intros ev. rewrite elem_of_app, elem_of_removals, Hin. split.
      * intros [(id & s & -> & Hs & _ & Hes)|(id & e' & -> & He' & Hsub')].
        -- exists id, e. split_and!; [done|apply list_elem_of_here|].
           exists s. split; [by apply elem_of_iterate|done].
        -- exists id, e'. split_and!; [done|by apply list_elem_of_further|].
           by apply Hsub in Hsub' as [? _].
      * intros (id & e' & -> & He' & Hsub').
        destruct (decide (e' = e)) as [->|Hne].
        -- left. destruct Hsub' as (s & Hs & Hes). exists id, s.
           split_and!; [done|by apply elem_of_iterate|done|done].
        -- right. exists id, e'. split_and!; [done| |by apply Hsub].
           apply elem_of_cons in He' as [?|?]; done.
Qed.
End destructions.

(** ** [RegisterSystem] *)

Lemma same_manager_refl (w : World) : same_manager w w.
Proof. by repeat split. Qed.

Lemma same_manager_trans (w1 w2 w3 : World) :
  same_manager w1 w2 → same_manager w2 w3 → same_manager w1 w3.
Proof.
  intros (H1 & H2 & H3 & H4 & H5 & H6 & H7) (G1 & G2 & G3 & G4 & G5 & G6 & G7).
  repeat split; congruence.
Qed.

Lemma GetComponentTypeID_same_manager (T : string) (w : World) :
  same_manager w (after (GetComponentTypeID T) w).
Proof. apply GetComponentTypeID_frame. Qed.

Lemma GetSystemTypeID_run (T : string) (w : World) :
  GetSystemTypeID T w = (Ret (systemid_of T w), after (GetSystemTypeID T) w).
Proof.
  unfold after, GetSystemTypeID, systemid_of.
  by destruct (systemTypeID w !! T).
Qed.

Lemma GetSystemTypeID_same_manager (T : string) (w : World) :
  same_manager w (after (GetSystemTypeID T) w).
Proof.
  unfold after, GetSystemTypeID, same_manager.
  by destruct (systemTypeID w !! T).
Qed.

Lemma System_RequireComponent_run (T : string) (s : System) (w : World) :
  System_RequireComponent T s w
  = (if typeid_of T w <? MAX_COMPONENTS
     then Ret (with_componentMask (N.setbit (m_componentMask s) (typeid_of T w)) s)
     else Throw out_of_range,
     after (GetComponentTypeID T) w).
Proof.
  unfold System_RequireComponent.
  run_with (apply GetComponentTypeID_run).
  unfold bind, lift, Bitset.set.
  by destruct (typeid_of T w <? MAX_COMPONENTS).
Qed.

(** A constructor either builds a system without subscribers or throws; it
    leaves the manager alone. *)
Lemma System_construct_run (requires : list string) (s : System) (w : World) :
  ∃ o w', System_construct requires s w = (o, w') ∧ same_manager w w' ∧
    ((∃ s', o = Ret s' ∧ m_entities s' = m_entities s ∧ m_id s' = m_id s ∧
            m_active s' = m_active s) ∨
     o = Throw out_of_range).
Proof.
  revert s w. induction requires as [|T requires IH]; intros s w.
  - exists (Ret s), w. split_and!; [done|apply same_manager_refl|]. left. by exists s.
  - simpl. pose proof (System_RequireComponent_run T s w) as Hreq.
    destruct (typeid_of T w <? MAX_COMPONENTS).
    + destruct (IH (with_componentMask (N.setbit (m_componentMask s) (typeid_of T w)) s)
                  (after (GetComponentTypeID T) w)) as (o & w' & Hrun & Hsame & Hres).
      exists o, w'. split_and!.
      * by run_with (apply Hreq).
      * eapply same_manager_trans; [apply GetComponentTypeID_same_manager|done].
      * done.
    + exists (Throw out_of_range), (after (GetComponentTypeID T) w). split_and!.
      * by erewrite bind_throw.
      * apply GetComponentTypeID_same_manager.
      * by right.
Qed.

Section registration.
Context `{order : UnorderedMapOrder}.

Lemma scan_loop (id : N) (l : list (N * N)) (w : World) :
  is_Some (m_systems w !! id) →
  for_each l (λ entityPair,
    let* s := system_deref id in
    if Bitset.covers entityPair.2 (m_componentMask s)
    then System_AddEntity id entityPair.1
    else ret tt) w
  = (Ret tt, scan id l w).
Proof.
  revert w. induction l as [|[e mask] l IH]; intros w [s Hs]; [done|].
  simpl. erewrite bind_run; [apply IH|].
  - apply visit_is_Some. by exists s.
  - unfold bind, system_deref, visit, on_attach. rewrite Hs. simpl.
    destruct (Bitset.covers mask (m_componentMask s)); [|done].
    unfold System_AddEntity, bind, system_deref. by rewrite Hs.
Qed.

Lemma scan_frame (id : N) (l : list (N * N)) (w : World) :
  let w' := scan id l w in
  s_componentTypeCounter w' = s_componentTypeCounter w ∧
  componentTypeID w' = componentTypeID w ∧
  m_entityMasks w' = m_entityMasks w ∧
  m_entityComponents w' = m_entityComponents w ∧
  m_availableEntityIDs w' = m_availableEntityIDs w ∧
  m_nextEntityID w' = m_nextEntityID w ∧
  m_entitiesToDestroy w' = m_entitiesToDestroy w.
Proof.
  revert w. induction l as [|p l IH]; intros w; [done|].
  simpl. destruct (IH (visit (on_attach p.1 p.2) w id)) as (H1&H2&H3&H4&H5&H6&H7).
  destruct (visit_frame (on_attach p.1 p.2) w id) as (G1&G2&G3&G4&G5&G6&G7).
  unfold scan in *. simpl. by rewrite H1, H2, H3, H4, H5, H6, H7.
Qed.

(** The loop adds the matching entities to the system, and leaves the other
    systems alone. *)
Lemma scan_systems (id : N) (l : list (N * N)) (w : World) (id' : N) :
  m_systems (scan id l w) !! id'
  = if decide (id' = id)
    then (λ s, with_entities
                 (list_to_set (matching (m_componentMask s) l) ∪ m_entities s) s)
         <$> m_systems w !! id
    else m_systems w !! id'.
Proof.
  revert w. induction l as [|[e mask] l IH]; intros w.
  - simpl. destruct (decide (id' = id)) as [->|]; [|done].
    destruct (m_systems w !! id) as [s|]; simpl; [|done].
    unfold matching. simpl.
    replace (∅ ∪ m_entities s) with (m_entities s) by set_solver.
    by rewrite with_entities_same.
  - unfold scan in *. simpl. rewrite IH. rewrite !visit_lookup.
    destruct (decide (id' = id)) as [->|]; [|done].
    destruct (decide (id = id)); [|done].
    destruct (m_systems w !! id) as [s|]; simpl; [|done].
    unfold visited, on_attach, matching. rewrite filter_cons. simpl.
    destruct (Bitset.covers mask (m_componentMask s)) eqn:Hc; simpl.
    + destruct (decide (true = true)); [|done]. simpl.
      unfold with_entities. simpl. do 2 f_equal. set_solver.
    + destruct (decide (false = true)); done.
Qed.

Lemma RegisterSystem_run (T : string) (requires : list string) (s : System)
    (w w1 : World) :
  System_construct requires System_ctor (after (GetSystemTypeID T) w) = (Ret s, w1) →
  RegisterSystem T requires w
  = (Ret (systemid_of T w),
     scan (systemid_of T w) (iterate (m_entityMasks w))
       (set_trace (trace w ++ [System_Initialize (systemid_of T w)])
          (set_systems (<[systemid_of T w := with_id (systemid_of T w) s]> (m_systems w))
             w1))).
Proof.
  intros Hctor.
  destruct (System_construct_run requires System_ctor (after (GetSystemTypeID T) w))
    as (o & w' & Hrun & Hsame & _).
  rewrite Hctor in Hrun. injection Hrun as <- <-.
  pose proof (same_manager_trans _ _ _ (GetSystemTypeID_same_manager T w) Hsame)
    as (Hm & Hc & Hav & Hnx & Hs & Hp & Htr).
  unfold RegisterSystem.
  run_with (apply GetSystemTypeID_run). run_with (apply Hctor).
  run. run. run.
  unfold system_assign, call, modify. simpl. rewrite Hm, Hs, Htr.
  run_with (apply scan_loop; simpl; rewrite lookup_insert_eq; eauto).
  done.
Qed.

Lemma RegisterSystem_throws (T : string) (requires : list string) (w w1 : World) :
  System_construct requires System_ctor (after (GetSystemTypeID T) w)
  = (Throw out_of_range, w1) →
  RegisterSystem T requires w = (Throw out_of_range, w1).
Proof.
  intros Hctor. unfold RegisterSystem.
  run_with (apply GetSystemTypeID_run). by erewrite bind_throw.
Qed.
End registration.

(** ** The state after each operation *)

Lemma emitted_app (w w' : World) (evs : list Event) :
  trace w' = trace w ++ evs → emitted w w' = evs.
Proof. unfold emitted. intros ->. by rewrite drop_app_length. Qed.

Lemma typeid_of_known (T : string) (w : World) (id : N) :
  componentTypeID w !! T = Some id → typeid_of T w = id.
Proof. unfold typeid_of. by intros ->. Qed.

Lemma heard_on_detach (entity mask id : N) (s : System) :
  heard (on_detach entity mask) id s
  = if negb (Bitset.covers mask (m_componentMask s))
    then heard (on_remove entity) id s else [].
Proof.
  unfold heard, on_detach. by destruct (Bitset.covers mask (m_componentMask s)).
Qed.

Section fields.
Context `{order : UnorderedMapOrder}.

Lemma AddComponent_fields (T : string) (entity component : N) (w : World) :
  typeid_of T w < MAX_COMPONENTS →
  let w' := after (AddComponent T entity component) w in
  let mask' := N.setbit (default Bitset.empty (m_entityMasks w !! entity))
                 (typeid_of T w) in
  componentTypeID w' = componentTypeID (after (GetComponentTypeID T) w) ∧
  m_entityMasks w' = <[entity := mask']> (m_entityMasks w) ∧
  m_entityComponents w'
  = <[entity := <[typeid_of T w := component]> (components_of entity w)]>
      (m_entityComponents w) ∧
  (∀ id, m_systems w' !! id
         = visited (on_attach entity mask') id <$> m_systems w !! id) ∧
  trace w' = trace w ++ Component_Initialize component ::
               (iterate (m_systems w) ≫= λ p, heard (on_attach entity mask') p.1 p.2) ∧
  m_availableEntityIDs w' = m_availableEntityIDs w ∧
  m_nextEntityID w' = m_nextEntityID w ∧
  m_entitiesToDestroy w' = m_entitiesToDestroy w.
Proof.
  intros Hcap. simpl. unfold after. rewrite AddComponent_run by done. simpl.
  destruct (GetComponentTypeID_frame T w) as (Hm & Hc & Hav & Hnx & Hs & Hp & Htr).
  set (mask' := N.setbit _ _).
  set (w1 := attach_store T entity component w).
  assert (Hs1 : m_systems w1 = m_systems w) by done.
  rewrite <- Hs1.
  destruct (visit_all_frame (on_attach entity mask') (iterate (m_systems w1)).*1 w1)
    as (_ & G2 & G3 & G4 & G5 & G6 & G7).
  rewrite G2, G3, G4, G5, G6, G7. split_and!; try done.
  - apply visit_all_systems.
  - rewrite visit_all_heard. simpl. by rewrite <- app_assoc.
Qed.

Lemma RemoveComponent_fields (T : string) (entity mask component : N) (w : World) :
  typeid_of T w < MAX_COMPONENTS →
  m_entityMasks w !! entity = Some mask →
  N.testbit mask (typeid_of T w) = true →
  components_of entity w !! typeid_of T w = Some component →
  let w' := after (RemoveComponent T entity) w in
  let mask' := N.clearbit mask (typeid_of T w) in
  componentTypeID w' = componentTypeID (after (GetComponentTypeID T) w) ∧
  m_entityMasks w' = <[entity := mask']> (m_entityMasks w) ∧
  m_entityComponents w'
  = <[entity := delete (typeid_of T w) (components_of entity w)]>
      (m_entityComponents w) ∧
  (∀ id, m_systems w' !! id
         = visited (on_detach entity mask') id <$> m_systems w !! id) ∧
  trace w' = trace w ++ Component_Finalize component ::
               removals (λ s, negb (Bitset.covers mask' (m_componentMask s)))
                 entity (iterate (m_systems w)) ∧
  m_availableEntityIDs w' = m_availableEntityIDs w ∧
  m_nextEntityID w' = m_nextEntityID w ∧
  m_entitiesToDestroy w' = m_entitiesToDestroy w.
Proof.
  intros Hcap Hmask Hbit Hcomp. simpl. unfold after.
  rewrite (RemoveComponent_run T entity mask component) by done. simpl.
  destruct (GetComponentTypeID_frame T w) as (Hm & Hc & Hav & Hnx & Hs & Hp & Htr).
  set (mask' := N.clearbit _ _).
  set (w1 := detach_store T entity component w).
  assert (Hs1 : m_systems w1 = m_systems w) by done.
  rewrite <- Hs1.
  destruct (visit_all_frame (on_detach entity mask') (iterate (m_systems w1)).*1 w1)
    as (_ & G2 & G3 & G4 & G5 & G6 & G7).
  rewrite G2, G3, G4, G5, G6, G7. split_and!; try done.
  - simpl. by rewrite Hmask.
  - apply visit_all_systems.
  - rewrite visit_all_heard. simpl. rewrite <- app_assoc. do 2 f_equal.
    unfold removals. apply list_bind_ext_elem. intros p _.
    apply heard_on_detach.
Qed.

(** A mask bit without a component: the call of [Finalize] goes through a
    null pointer. *)
Lemma RemoveComponent_undefined (T : string) (entity mask : N) (w : World) :
  typeid_of T w < MAX_COMPONENTS →
  m_entityMasks w !! entity = Some mask →
  N.testbit mask (typeid_of T w) = true →
  components_of entity w !! typeid_of T w = None →
  RemoveComponent T entity w
  = (Undefined,
     set_entityComponents
       (<[entity := components_of entity w]> (m_entityComponents w))
       (after (GetComponentTypeID T) w)).
Proof.
  intros Hcap Hmask Hbit Hcomp. apply N.ltb_lt in Hcap.
  destruct (GetComponentTypeID_frame T w) as (Hm & Hc & _).
  unfold RemoveComponent.
  run_with (apply GetComponentTypeID_run).
  run_with (apply (entityMasks_index_live entity mask); by rewrite Hm).
  run_with (unfold lift, Bitset.test; rewrite Hcap; reflexivity).
  rewrite Hbit. cbn [negb].
  run. unfold components_of at 1. rewrite Hc. fold (components_of entity w).
  rewrite Hcomp. erewrite bind_undefined; [|reflexivity].
  unfold components_of. by rewrite Hc.
Qed.

(** Whatever the outcome of [RemoveComponent] on a live entity, the masks
    and the systems change as in the detaching case, or not at all. *)
Lemma RemoveComponent_live (T : string) (entity mask : N) (w : World) :
  m_entityMasks w !! entity = Some mask →
  let w' := after (RemoveComponent T entity) w in
  (m_entityMasks w' = m_entityMasks w ∧ m_systems w' = m_systems w ∧
   trace w' = trace w) ∨
  (typeid_of T w < MAX_COMPONENTS ∧ N.testbit mask (typeid_of T w) = true ∧
   ∃ component, components_of entity w !! typeid_of T w = Some component).
Proof.
  intros Hmask. simpl.
  destruct (GetComponentTypeID_frame T w) as (Hm & Hc & Hav & Hnx & Hs & Hp & Htr).
  destruct (decide (typeid_of T w < MAX_COMPONENTS)) as [Hcap|Hcap].
  - destruct (N.testbit mask (typeid_of T w)) eqn:Hbit.
    + destruct (components_of entity w !! typeid_of T w) as [c|] eqn:Hcomp.
      * right. eauto.
      * left. unfold after.
        by rewrite (RemoveComponent_undefined T entity mask).
    + left. unfold after. by rewrite (RemoveComponent_absent T entity mask).
  - left. unfold after at 1 2 3. rewrite RemoveComponent_throws by lia.
    simpl. unfold after at 1 3 5.
    rewrite (entityMasks_index_live entity mask) by (by rewrite Hm).
    done.
Qed.

Lemma UpdateSystems_loop (deltaTime : float) (w : World) (l : list (N * System))
    (tr : list Event) :
  (∀ p, p ∈ l → m_systems w !! p.1 = Some p.2) →
  for_each l (λ systemPair,
    let* s := system_deref systemPair.1 in
    if m_active s then call (System_Update systemPair.1 deltaTime) else ret tt)
    (set_trace tr w)
  = (Ret tt,
     set_trace (tr ++ ((λ id, System_Update id deltaTime)
                         <$> (filter (λ p, m_active p.2 = true) l).*1)) w).
Proof.
  revert tr. induction l as [|[id s] l IH]; intros tr Hl.
  - simpl. by rewrite app_nil_r.
  - simpl. rewrite filter_cons. simpl.
    assert (Hs : m_systems w !! id = Some s) by apply (Hl (id, s)), list_elem_of_here.
    assert (Hrest : ∀ p, p ∈ l → m_systems w !! p.1 = Some p.2).
    { intros p Hp. apply Hl. by apply list_elem_of_further. }
    destruct (m_active s) eqn:Hactive.
    + destruct (decide (true = true)); [|done].
      run_with (unfold bind, system_deref; simpl; rewrite Hs, Hactive;
                reflexivity).
      etrans; [apply (IH (tr ++ [System_Update id deltaTime]) Hrest)|].
      simpl. by rewrite <- app_assoc.
    + destruct (decide (false = true)); [done|].
      run_with (unfold bind, system_deref; simpl; rewrite Hs, Hactive;
                reflexivity).
      apply (IH tr Hrest).
Qed.

Lemma RenderSystems_loop (w : World) (l : list (N * System)) (tr : list Event) :
  (∀ p, p ∈ l → m_systems w !! p.1 = Some p.2) →
  for_each l (λ systemPair,
    let* s := system_deref systemPair.1 in
    if m_active s then call (System_Render systemPair.1) else ret tt)
    (set_trace tr w)
  = (Ret tt,
     set_trace (tr ++ (System_Render
                         <$> (filter (λ p, m_active p.2 = true) l).*1)) w).
Proof.
  revert tr. induction l as [|[id s] l IH]; intros tr Hl.
  - simpl. by rewrite app_nil_r.
  - simpl. rewrite filter_cons. simpl.
    assert (Hs : m_systems w !! id = Some s) by apply (Hl (id, s)), list_elem_of_here.
    assert (Hrest : ∀ p, p ∈ l → m_systems w !! p.1 = Some p.2).
    { intros p Hp. apply Hl. by apply list_elem_of_further. }
    destruct (m_active s) eqn:Hactive.
    + destruct (decide (true = true)); [|done].
      run_with (unfold bind, system_deref; simpl; rewrite Hs, Hactive;
                reflexivity).
      etrans; [apply (IH (tr ++ [System_Render id]) Hrest)|].
      simpl. by rewrite <- app_assoc.
    + destruct (decide (false = true)); [done|].
      run_with (unfold bind, system_deref; simpl; rewrite Hs, Hactive;
                reflexivity).
      apply (IH tr Hrest).
Qed.

Lemma set_trace_same (w : World) : set_trace (trace w) w = w.
Proof. by destruct w. Qed.

Lemma UpdateSystems_run (deltaTime : float) (w : World) :
  UpdateSystems deltaTime w
  = (Ret tt,
     set_trace (trace w ++ ((λ id, System_Update id deltaTime) <$> active_systems w)) w).
Proof.
  unfold UpdateSystems. run. rewrite <- (set_trace_same w) at 2.
  apply UpdateSystems_loop. intros [id s]. apply elem_of_iterate.
Qed.

Lemma RenderSystems_run (w : World) :
  RenderSystems w
  = (Ret tt, set_trace (trace w ++ (System_Render <$> active_systems w)) w).
Proof.
  unfold RenderSystems. run. rewrite <- (set_trace_same w) at 2.
  apply RenderSystems_loop. intros [id s]. apply elem_of_iterate.
Qed.
End fields.

(** ** Deferred destruction and the removal hook *)

Lemma elem_of_ascending (s : gset N) (e : N) : e ∈ ascending s ↔ e ∈ s.
Proof.
  unfold ascending. rewrite merge_sort_Permutation. apply elem_of_elements.
Qed.

Lemma NoDup_ascending (s : gset N) : NoDup (ascending s).
Proof.
  unfold ascending. rewrite merge_sort_Permutation. apply NoDup_elements.
Qed.

Section removal.
Context `{order : UnorderedMapOrder}.

Lemma ProcessDestructions_trace (w : World) :
  ∃ evs, trace (after ProcessDestructions w) = trace w ++ evs ∧ NoDup evs ∧
    ∀ ev, ev ∈ evs ↔
      ∃ system entity, ev = System_OnEntityRemoved system entity ∧
        entity ∈ m_entitiesToDestroy w ∧ subscribed w system entity.
Proof.
  unfold after. rewrite ProcessDestructions_run. simpl.
  destruct (destroy_all_trace (ascending (m_entitiesToDestroy w)) w
              (NoDup_ascending _)) as (evs & Htr & Hnd & Hin).
  exists evs. split_and!; [done..|].
  intros ev. rewrite Hin. by setoid_rewrite elem_of_ascending.
Qed.

Lemma RemoveComponent_trace (T : string) (entity : N) (w : World) :
  ∃ evs, trace (after (RemoveComponent T entity) w) = trace w ++ evs ∧
    NoDup evs ∧
    ∀ system entity', System_OnEntityRemoved system entity' ∈ evs →
      entity' = entity ∧ subscribed w system entity'.
Proof.
  assert (Hnone : trace (after (RemoveComponent T entity) w) = trace w →
    ∃ evs, trace (after (RemoveComponent T entity) w) = trace w ++ evs ∧
      NoDup evs ∧
      ∀ system entity', System_OnEntityRemoved system entity' ∈ evs →
        entity' = entity ∧ subscribed w system entity').
  { intros Htr. exists []. split_and!; [by rewrite app_nil_r|constructor|].
    by intros ?? ?%elem_of_nil. }
  destruct (GetComponentTypeID_frame T w) as (Hm & Hc & Hav & Hnx & Hs & Hp & Htr).
  destruct (m_entityMasks w !! entity) as [mask|] eqn:Hmask.
  - destruct (RemoveComponent_live T entity mask w Hmask)
      as [(_ & _ & Hsame)|(Hcap & Hbit & c & Hcomp)]; [by apply Hnone|].
    destruct (RemoveComponent_fields T entity mask c w Hcap Hmask Hbit Hcomp)
      as (_ & _ & _ & _ & Htrace & _).
    eexists. split_and!; [exact Htrace| |].
    + apply NoDup_cons. split.
      * intros (? & ? & [=] & _)%elem_of_removals.
      * apply NoDup_removals, iterate_keys.
    + intros system entity' [[=]|Hin]%elem_of_cons.
      apply elem_of_removals in Hin as (id & s & [= -> ->] & Hin & _ & Hsub).
      split; [done|]. exists s. split; [by apply elem_of_iterate|done].
  - apply Hnone. unfold after.
    destruct (decide (typeid_of T w < MAX_COMPONENTS)) as [Hcap|Hcap].
    + by rewrite RemoveComponent_unknown.
    + rewrite RemoveComponent_throws by lia. simpl. unfold after at 1.
      rewrite entityMasks_index_new by (by rewrite Hm). done.
Qed.

(** C10.  A system's "entity removed" hook is called only for an entity
    that is in the subscriber set of the system at that moment, and so at
    most once for a system and a removal.  [System::RemoveEntity] calls it
    when [erase] removed the entity and does nothing otherwise; the flush of
    [ProcessDestructions], which calls [RemoveEntity] on every system for
    every pending entity, calls the hook exactly for the pending entities and
    the systems they were subscribed to, once each; the re-evaluation of
    [RemoveComponent] calls it at most once for a system, and only for a
    system the entity was subscribed to. *)
Theorem OnEntityRemoved_only_for_subscribers (w : World) :
  (∀ system entity s, m_systems w !! system = Some s →
     System_RemoveEntity system entity w
     = (Ret tt,
        if bool_decide (entity ∈ m_entities s)
        then set_trace (trace w ++ [System_OnEntityRemoved system entity])
               (set_systems
                  (<[system := with_entities (m_entities s ∖ {[entity]}) s]>
                     (m_systems w)) w)
        else w)) ∧
  (let w' := after ProcessDestructions w in
   NoDup (emitted w w') ∧
   ∀ ev, ev ∈ emitted w w' ↔
     ∃ system entity, ev = System_OnEntityRemoved system entity ∧
       entity ∈ m_entitiesToDestroy w ∧ subscribed w system entity) ∧
  (∀ T entity,
     let w' := after (RemoveComponent T entity) w in
     NoDup (emitted w w') ∧
     ∀ system entity', System_OnEntityRemoved system entity' ∈ emitted w w' →
       entity' = entity ∧ subscribed w system entity').
Proof.
  split_and!.
  - intros system entity s Hs.
    unfold System_RemoveEntity, bind, system_deref. rewrite Hs.
    by destruct (bool_decide (entity ∈ m_entities s)).
  - simpl. destruct (ProcessDestructions_trace w) as (evs & Htr & Hnd & Hin).
    by rewrite (emitted_app _ _ _ Htr).
  - intros T entity. simpl.
    destruct (RemoveComponent_trace T entity w) as (evs & Htr & Hnd & Hin).
    by rewrite (emitted_app _ _ _ Htr).
Qed.

Lemma list_to_set_ascending (s : gset N) : list_to_set (ascending s) = s.
Proof.
  apply set_eq. intros e. by rewrite elem_of_list_to_set, elem_of_ascending.
Qed.

(** The world after the flush. *)
Lemma ProcessDestructions_fields (w : World) :
  let w' := after ProcessDestructions w in
  result ProcessDestructions w = Ret tt ∧
  (∀ id, m_systems w' !! id
         = (λ s, with_entities (m_entities s ∖ m_entitiesToDestroy w) s)
           <$> m_systems w !! id) ∧
  (∀ e, m_entityMasks w' !! e
        = if decide (e ∈ m_entitiesToDestroy w) then None
          else m_entityMasks w !! e) ∧
  (∀ e, m_entityComponents w' !! e
        = if decide (e ∈ m_entitiesToDestroy w) then None
          else m_entityComponents w !! e) ∧
  m_availableEntityIDs w'
  = m_availableEntityIDs w ++ ascending (m_entitiesToDestroy w) ∧
  m_nextEntityID w' = m_nextEntityID w ∧
  m_entitiesToDestroy w' = ∅.
Proof.
  simpl. unfold after, result. rewrite ProcessDestructions_run.
  set (l := ascending (m_entitiesToDestroy w)).
  destruct (destroy_all_frame l w) as (_ & _ & Hav & Hnx & _).
  split_and!; [done| | | |exact Hav|exact Hnx|done].
  - intros id. change (m_systems (Ret (), set_entitiesToDestroy ∅ (destroy_all l w)).2)
      with (m_systems (destroy_all l w)).
    rewrite destroy_all_systems. unfold l. by rewrite list_to_set_ascending.
  - intros e. change (m_entityMasks (Ret (), set_entitiesToDestroy ∅ (destroy_all l w)).2)
      with (m_entityMasks (destroy_all l w)).
    rewrite destroy_all_masks.
    destruct (decide (e ∈ m_entitiesToDestroy w)) as [Hin|Hout].
    + rewrite decide_True; [done|by apply elem_of_ascending].
    + rewrite decide_False; [done|unfold l; by rewrite elem_of_ascending].
  - intros e.
    change (m_entityComponents (Ret (), set_entitiesToDestroy ∅ (destroy_all l w)).2)
      with (m_entityComponents (destroy_all l w)).
    rewrite destroy_all_components.
    destruct (decide (e ∈ m_entitiesToDestroy w)) as [Hin|Hout].
    + rewrite decide_True; [done|by apply elem_of_ascending].
    + rewrite decide_False; [done|unfold l; by rewrite elem_of_ascending].
Qed.

Lemma HasComponent_pending (T : string) (entity : N) (pending : gset N) (w : World) :
  result (HasComponent T entity) (set_entitiesToDestroy pending w)
  = result (HasComponent T entity) w.
Proof.
  unfold result, HasComponent, bind, GetComponentTypeID, entityMasks_at, lift.
  simpl. destruct (componentTypeID w !! T); simpl;
    by destruct (m_entityMasks w !! entity).
Qed.

Lemma GetComponent_pending (T : string) (entity : N) (pending : gset N) (w : World) :
  result (GetComponent T entity) (set_entitiesToDestroy pending w)
  = result (GetComponent T entity) w.
Proof.
  unfold result, GetComponent, bind, GetComponentTypeID, entityMasks_at,
    entityComponents_at, lift, Bitset.test.
  simpl. destruct (componentTypeID w !! T) as [id|]; simpl;
    destruct (m_entityMasks w !! entity) as [mask|]; simpl; try done.
  - destruct (id <? MAX_COMPONENTS); [|done].
    destruct (N.testbit mask id); simpl; [|done].
    destruct (m_entityComponents w !! entity) as [cs|]; [|done].
    by destruct (cs !! id).
  - destruct (s_componentTypeCounter w <? MAX_COMPONENTS); [|done].
    destruct (N.testbit mask (s_componentTypeCounter w)); simpl; [|done].
    destruct (m_entityComponents w !! entity) as [cs|]; [|done].
    by destruct (cs !! s_componentTypeCounter w).
Qed.

(** C4.  For a live entity, [DestroyEntity] only adds the entity to the
    pending set: it returns, and the world is the one before but for
    [m_entitiesToDestroy]; [HasComponent], [GetComponent] and
    [GetComponentMask] answer as before, for every type; a second
    [DestroyEntity] changes nothing; and after [ProcessDestructions]
    [GetComponentMask] throws [std::out_of_range]. *)
Theorem DestroyEntity_is_deferred (w : World) (entity mask : N) (T : string) :
  m_entityMasks w !! entity = Some mask →
  let w' := after (DestroyEntity entity) w in
  DestroyEntity entity w
  = (Ret tt, set_entitiesToDestroy ({[entity]} ∪ m_entitiesToDestroy w) w) ∧
  result (HasComponent T entity) w' = result (HasComponent T entity) w ∧
  result (GetComponent T entity) w' = result (GetComponent T entity) w ∧
  result (GetComponentMask entity) w = Ret mask ∧
  result (GetComponentMask entity) w' = Ret mask ∧
  DestroyEntity entity w' = (Ret tt, w') ∧
  result (GetComponentMask entity) (after ProcessDestructions w')
  = Throw out_of_range.
Proof.
  intros Hmask. simpl. split_and!.
  - done.
  - apply HasComponent_pending.
  - apply GetComponent_pending.
  - unfold result, GetComponentMask, entityMasks_at. by rewrite Hmask.
  - unfold result, GetComponentMask, entityMasks_at. simpl. by rewrite Hmask.
  - unfold DestroyEntity, modify, after. simpl. f_equal.
    apply World_eq; simpl; try done. set_solver.
  - unfold result, GetComponentMask, entityMasks_at.
    destruct (ProcessDestructions_fields
                (set_entitiesToDestroy ({[entity]} ∪ m_entitiesToDestroy w) w))
      as (_ & _ & Hmasks & _).
    simpl in Hmasks. unfold after at 2. simpl. rewrite Hmasks.
    rewrite decide_True; [done|set_solver].
Qed.
End removal.

(** Entity 0 has a Transform, mask 1, before and after [DestroyEntity]; after
    the flush it has no mask. *)
Lemma DestroyEntity_is_deferred_witness :
  let w := after (CreateEntity >>
                  AddComponent (order := ascending_keys) "Transform" 0 100) initial in
  let w' := after (DestroyEntity 0) w in
  m_entityMasks w !! 0 = Some 1 ∧
  result (HasComponent "Transform" 0) w' = result (HasComponent "Transform" 0) w ∧
  result (GetComponentMask 0) w' = Ret 1 ∧
  result (GetComponentMask 0)
    (after (ProcessDestructions (order := ascending_keys)) w')
  = Throw out_of_range.
Proof.
  assert (Hlive : m_entityMasks
    (after (CreateEntity >>
            AddComponent (order := ascending_keys) "Transform" 0 100) initial)
    !! 0 = Some 1) by (vm_compute; reflexivity).
  split; [exact Hlive|].
  destruct (DestroyEntity_is_deferred (order := ascending_keys) _ 0 1 "Transform" Hlive)
    as (_ & Hhas & _ & _ & Hmask & _ & Hgone).
  split; [exact Hhas|]. split; [exact Hmask|exact Hgone].
Defined.

(** The doomed hero is subscribed to the systems 0 and 1.  [RemoveEntity] of
    entity 7, which is not subscribed, does nothing; the flush calls the hook
    once for each of the two systems. *)
Lemma OnEntityRemoved_only_for_subscribers_witness :
  m_systems doomed_hero !! 0
  = Some {| m_componentMask := 1; m_entities := {[0]}; m_id := 0; m_active := true |} ∧
  System_RemoveEntity 0 7 doomed_hero = (Ret tt, doomed_hero) ∧
  NoDup (emitted doomed_hero
           (after (ProcessDestructions (order := ascending_keys)) doomed_hero)) ∧
  emitted doomed_hero
    (after (ProcessDestructions (order := ascending_keys)) doomed_hero)
  = [System_OnEntityRemoved 0 0; System_OnEntityRemoved 1 0].
Proof.
  assert (Hs : m_systems doomed_hero !! 0
    = Some {| m_componentMask := 1; m_entities := {[0]}; m_id := 0; m_active := true |})
    by (vm_compute; reflexivity).
  destruct (OnEntityRemoved_only_for_subscribers (order := ascending_keys) doomed_hero)
    as (Hremove & (Hnodup & _) & _).
  split; [exact Hs|]. split; [|split; [exact Hnodup|vm_compute; reflexivity]].
  rewrite (Hremove 0 7 _ Hs). simpl.
  rewrite bool_decide_eq_false_2; [done|].
  apply (bool_decide_unpack _). vm_compute. exact I.
Defined.

(** ** Dispatch, and the hooks that are missed or repeated *)

Section dispatch.
Context `{order : UnorderedMapOrder}.

Lemma elem_of_active_systems (w : World) (id : N) :
  id ∈ active_systems w ↔ ∃ s, m_systems w !! id = Some s ∧ m_active s = true.
Proof.
  unfold active_systems. rewrite list_elem_of_fmap. split.
  - intros ([i s] & -> & [Hactive Hin]%list_elem_of_filter).
    exists s. split; [by apply elem_of_iterate|done].
  - intros (s & Hs & Hactive). exists (id, s). split; [done|].
    apply list_elem_of_filter. split; [done|by apply elem_of_iterate].
Qed.

Lemma NoDup_active_systems (w : World) : NoDup (active_systems w).
Proof.
  unfold active_systems.
  eapply sublist_NoDup; [apply (iterate_keys (m_systems w))|].
  apply fmap_sublist. apply sublist_filter.
Qed.

(** C8, amended.  [UpdateSystems] calls [Update], with the [deltaTime] it
    was given, on every registered system that is active, once, and on no
    other system; it returns and changes nothing else.  The calls are made
    in the order in which the loop visits [m_systems], a
    [std::unordered_map] keyed by the type identifier of the system: no
    order of registration is kept.  [RenderSystems] calls [Render] on the
    same systems in the same order. *)
Theorem UpdateSystems_visits_active_systems (w : World) (deltaTime : float) :
  UpdateSystems deltaTime w
  = (Ret tt,
     set_trace (trace w ++ ((λ id, System_Update id deltaTime)
                              <$> active_systems w)) w) ∧
  RenderSystems w
  = (Ret tt, set_trace (trace w ++ (System_Render <$> active_systems w)) w) ∧
  NoDup (active_systems w) ∧
  (∀ id, id ∈ active_systems w ↔
         ∃ s, m_systems w !! id = Some s ∧ m_active s = true) ∧
  active_systems w ⊆+ (iterate (m_systems w)).*1.
Proof.
  split_and!.
  - apply UpdateSystems_run.
  - apply RenderSystems_run.
  - apply NoDup_active_systems.
  - apply elem_of_active_systems.
  - unfold active_systems. apply sublist_submseteq.
    apply fmap_sublist. apply sublist_filter.
Qed.

(** C3.  For a pending entity that has a component, [ProcessDestructions]
    returns, removes the entity from the subscriber set of every system,
    erases its components and its mask, puts its identifier in the pool and
    empties the pending set: everything that the claim lists, but the call
    of the [Finalize] hook of the component, which it does not make. *)
Theorem ProcessDestructions_skips_Finalize (w : World)
    (entity componentID component : N) (components : gmap N N) :
  entity ∈ m_entitiesToDestroy w →
  m_entityComponents w !! entity = Some components →
  components !! componentID = Some component →
  let w' := after ProcessDestructions w in
  result ProcessDestructions w = Ret tt ∧
  (∀ system, ¬ subscribed w' system entity) ∧
  m_entityComponents w' !! entity = None ∧
  m_entityMasks w' !! entity = None ∧
  entity ∈ m_availableEntityIDs w' ∧
  m_entitiesToDestroy w' = ∅ ∧
  Component_Finalize component ∉ emitted w w'.
Proof.
  intros Hpending Hcs Hc. simpl.
  destruct (ProcessDestructions_trace w) as (evs & Htr & _ & Hin).
  rewrite (emitted_app _ _ _ Htr).
  destruct (ProcessDestructions_fields w)
    as (Hret & Hsys & Hmasks & Hcomps & Hav & _ & Hpend).
  split_and!; [done| | | | |done|].
  - intros system (s & Hs & Hsub). rewrite Hsys in Hs.
    destruct (m_systems w !! system) as [s0|]; [|done].
    injection Hs as <-. simpl in Hsub. set_solver.
  - rewrite Hcomps. by rewrite decide_True.
  - rewrite Hmasks. by rewrite decide_True.
  - rewrite Hav. apply elem_of_app. right. by apply elem_of_ascending.
  - intros (? & ? & [=] & _)%Hin.
Qed.

(** C9.  When [AddComponent] is called for an entity that is subscribed to
    a system already, and whose new mask still covers the required mask of
    the system, the entity stays subscribed, and the "entity added" hook of
    the system is called again: [System::AddEntity] does not look at what
    [insert] returns. *)
Theorem AddEntity_fires_again (w : World) (T : string)
    (entity component mask system : N) (s : System) :
  m_systems w !! system = Some s →
  entity ∈ m_entities s →
  m_entityMasks w !! entity = Some mask →
  typeid_of T w < MAX_COMPONENTS →
  Bitset.covers (N.setbit mask (typeid_of T w)) (m_componentMask s) = true →
  let w' := after (AddComponent T entity component) w in
  subscribed w' system entity ∧
  System_OnEntityAdded system entity ∈ emitted w w'.
Proof.
  intros Hs Hsub Hmask Hcap Hcovers. simpl.
  destruct (AddComponent_fields T entity component w Hcap)
    as (_ & _ & _ & Hsys & Htr & _).
  rewrite Hmask in Hsys, Htr. simpl in Hsys, Htr.
  rewrite (emitted_app _ _ _ Htr). split.
  - exists (visited (on_attach entity (N.setbit mask (typeid_of T w))) system s).
    rewrite Hsys, Hs. split; [done|].
    unfold visited, on_attach. rewrite Hcovers. simpl. set_solver.
  - apply list_elem_of_further, list_elem_of_bind. exists (system, s). split.
    + unfold heard, on_attach. simpl. rewrite Hcovers. apply list_elem_of_here.
    + by apply elem_of_iterate.
Qed.
End dispatch.

(** C8, as stated, fails: under the descending order of visit, "A" is
    registered first and "B" second, and "B" is updated first. *)
Lemma UpdateSystems_not_in_registration_order :
  result register_two_then_update initial = Ret (0, 1) ∧
  updated (trace (after register_two_then_update initial)) = [1; 0].
Proof. split; vm_compute; reflexivity. Qed.

(** The flush erases the Transform of the doomed entity, and the trace has
    the call of [Initialize] and no call of [Finalize]. *)
Lemma ProcessDestructions_skips_Finalize_witness :
  let w' := after (ProcessDestructions (order := ascending_keys)) doomed_world in
  (0 ∈ m_entitiesToDestroy doomed_world ∧
   m_entityComponents doomed_world !! 0 = Some {[0 := 100]} ∧
   ({[0 := 100]} : gmap N N) !! 0 = Some 100) ∧
  m_entityComponents w' !! 0 = None ∧
  (Component_Finalize 100 ∉ emitted doomed_world w') ∧
  trace w' = [Component_Initialize 100].
Proof.
  assert (H1 : 0 ∈ m_entitiesToDestroy doomed_world)
    by (apply (bool_decide_unpack _); vm_compute; exact I).
  assert (H2 : m_entityComponents doomed_world !! 0 = Some {[0 := 100]})
    by (vm_compute; reflexivity).
  assert (H3 : ({[0 := 100]} : gmap N N) !! 0 = Some 100)
    by (vm_compute; reflexivity).
  destruct (ProcessDestructions_skips_Finalize (order := ascending_keys)
              doomed_world 0 0 100 {[0 := 100]} H1 H2 H3)
    as (_ & _ & Hcs & _ & _ & _ & Hfin).
  split; [by split_and!|]. split; [exact Hcs|]. split; [exact Hfin|].
  vm_compute; reflexivity.
Defined.

(** The hero is subscribed to HeroSystem, system 0, when it gets its
    HeroComponent.  The AbilitySlot subscribes it to AbilitySystem, system 1,
    and calls the "entity added" hook of HeroSystem a second time. *)
Lemma AddEntity_fires_again_witness :
  (m_systems hero_world !! 0
   = Some {| m_componentMask := 1; m_entities := {[0]}; m_id := 0; m_active := true |} ∧
   m_entityMasks hero_world !! 0 = Some 1 ∧
   typeid_of "AbilitySlot" hero_world = 1) ∧
  subscribed hero_with_ability 0 0 ∧
  System_OnEntityAdded 0 0 ∈ emitted hero_world hero_with_ability ∧
  trace hero_with_ability
  = [System_Initialize 0; System_Initialize 1;
     Component_Initialize 100; System_OnEntityAdded 0 0;
     Component_Initialize 101; System_OnEntityAdded 0 0; System_OnEntityAdded 1 0].
Proof.
  assert (H1 : m_systems hero_world !! 0
    = Some {| m_componentMask := 1; m_entities := {[0]}; m_id := 0; m_active := true |})
    by (vm_compute; reflexivity).
  assert (H2 : (0 : N) ∈ ({[0]} : gset N))
    by (apply (bool_decide_unpack _); vm_compute; exact I).
  assert (H3 : m_entityMasks hero_world !! 0 = Some 1) by (vm_compute; reflexivity).
  assert (H4 : typeid_of "AbilitySlot" hero_world = 1) by (vm_compute; reflexivity).
  assert (H5 : typeid_of "AbilitySlot" hero_world < MAX_COMPONENTS)
    by (vm_compute; reflexivity).
  assert (H6 : Bitset.covers (N.setbit 1 (typeid_of "AbilitySlot" hero_world)) 1 = true)
    by (vm_compute; reflexivity).
  destruct (AddEntity_fires_again (order := ascending_keys) hero_world "AbilitySlot"
              0 101 1 0 _ H1 H2 H3 H5 H6) as [Hsub Hagain].
  split; [by split_and!|]. split; [exact Hsub|]. split; [exact Hagain|].
  vm_compute; reflexivity.
Defined.

(** ** The component store *)

Lemma stored_components (w : World) (entity mask componentID : N) :
  stored w →
  m_entityMasks w !! entity = Some mask →
  N.testbit mask componentID = true →
  is_Some (components_of entity w !! componentID).
Proof.
  intros Hst Hmask Hbit.
  destruct (Hst entity mask componentID Hmask Hbit) as (cs & c & Hcs & Hc).
  unfold components_of. rewrite Hcs. by exists c.
Qed.

(** [stored] in terms of [components_of]. *)
Lemma stored_alt (w : World) :
  stored w ↔
  ∀ entity mask componentID,
    m_entityMasks w !! entity = Some mask →
    N.testbit mask componentID = true →
    is_Some (m_entityComponents w !! entity) ∧
    is_Some (components_of entity w !! componentID).
Proof.
  split.
  - intros Hst e mask cid Hmask Hbit.
    destruct (Hst e mask cid Hmask Hbit) as (cs & c & Hcs & Hc).
    unfold components_of. rewrite Hcs. eauto.
  - intros Hst e mask cid Hmask Hbit.
    destruct (Hst e mask cid Hmask Hbit) as [[cs Hcs] [c Hc]].
    unfold components_of in Hc. rewrite Hcs in Hc. eauto.
Qed.

(** Masks and components that agree with stored ones are stored. *)
Lemma stored_same (w w' : World) :
  m_entityMasks w' = m_entityMasks w →
  m_entityComponents w' = m_entityComponents w →
  stored w → stored w'.
Proof. unfold stored. intros -> ->. done. Qed.

Section store.
Context `{order : UnorderedMapOrder}.

Lemma stored_initial : stored initial.
Proof. intros e mask cid Hmask. simpl in Hmask. by rewrite lookup_empty in Hmask. Qed.

Lemma stored_CreateEntity (w : World) : stored w → stored (after CreateEntity w).
Proof.
  intros Hst. unfold after. rewrite CreateEntity_run. simpl.
  intros e mask cid. simpl.
  destruct (decide (e = upcoming w)) as [->|Hne].
  - rewrite lookup_insert_eq. intros [= <-]. by rewrite N.bits_0.
  - rewrite !lookup_insert_ne by done. apply Hst.
Qed.

Lemma stored_DestroyEntity (w : World) (entity : N) :
  stored w → stored (after (DestroyEntity entity) w).
Proof. done. Qed.

Lemma stored_ProcessDestructions (w : World) :
  stored w → stored (after ProcessDestructions w).
Proof.
  intros Hst e mask cid.
  destruct (ProcessDestructions_fields w) as (_ & _ & Hmasks & Hcomps & _).
  rewrite Hmasks, Hcomps. destruct (decide _); [done|]. apply Hst.
Qed.

Lemma stored_AddComponent (w : World) (T : string) (entity component : N) :
  stored w → stored (after (AddComponent T entity component) w).
Proof.
  intros Hst. apply stored_alt. intros e mask cid.
  destruct (GetComponentTypeID_frame T w) as (Hm & Hc & _).
  assert (Hcomps : ∀ w', 
    m_entityComponents w'
    = <[entity := <[typeid_of T w := component]> (components_of entity w)]>
        (m_entityComponents w) →
    (m_entityMasks w' !! e = Some mask →
     N.testbit mask cid = true →
     e ≠ entity ∨ cid = typeid_of T w ∨
     (∃ mask0, m_entityMasks w !! entity = Some mask0 ∧
               N.testbit mask0 cid = true)) →
    (e ≠ entity → m_entityMasks w' !! e = m_entityMasks w !! e) →
    m_entityMasks w' !! e = Some mask → N.testbit mask cid = true →
    is_Some (m_entityComponents w' !! e) ∧
    is_Some (components_of e w' !! cid)).
  { intros w' Hcs Hcases Hother Hmask Hbit. unfold components_of at 1.
    rewrite Hcs. destruct (decide (e = entity)) as [->|Hne].
    - rewrite lookup_insert_eq. simpl. split; [done|].
      destruct (Hcases Hmask Hbit) as [?|[->|(mask0 & Hmask0 & Hbit0)]];
        try done.
      + rewrite lookup_insert_eq. done.
      + destruct (decide (cid = typeid_of T w)) as [->|Hcid].
        * by rewrite lookup_insert_eq.
        * rewrite lookup_insert_ne by done.
          by apply (stored_components w entity mask0).
    - rewrite lookup_insert_ne by done. rewrite Hother in Hmask by done.
      apply (proj1 (stored_alt w) Hst e mask cid Hmask Hbit). }
  destruct (decide (typeid_of T w < MAX_COMPONENTS)) as [Hcap|Hcap].
  - destruct (AddComponent_fields T entity component w Hcap)
      as (_ & Hmasks & Hcs & _).
    apply (Hcomps _ Hcs).
    + rewrite Hmasks. destruct (decide (e = entity)) as [->|Hne]; [|by left].
      rewrite lookup_insert_eq. intros [= <-] Hbit.
      rewrite N.setbit_eqb in Hbit. apply orb_true_iff in Hbit as [Heq|Hbit].
      * right. left. symmetry. by apply N.eqb_eq.
      * right. right.
        destruct (m_entityMasks w !! entity) as [mask0|]; simpl in Hbit;
          [eauto|done].
    + intros Hne. rewrite Hmasks. by rewrite lookup_insert_ne.
  - unfold after. rewrite AddComponent_throws by lia. simpl.
    set (w1 := set_entityComponents _ _).
    assert (Hw1 : m_entityMasks w1 = m_entityMasks w) by (by simpl).
    destruct (m_entityMasks w !! entity) as [mask0|] eqn:Hmask0.
    + unfold after. rewrite (entityMasks_index_live entity mask0) by (by rewrite Hw1).
      apply (Hcomps w1); [done| |by rewrite Hw1].
      rewrite Hw1. destruct (decide (e = entity)) as [->|Hne]; [|by left].
      rewrite Hmask0. intros [= <-] Hbit. right. right. eauto.
    + unfold after. rewrite entityMasks_index_new by (by rewrite Hw1).
      apply (Hcomps (set_entityMasks _ w1)); [done| |].
      * simpl. destruct (decide (e = entity)) as [->|Hne]; [|by left].
        rewrite lookup_insert_eq. intros [= <-]. by rewrite N.bits_0.
      * intros Hne. simpl. rewrite lookup_insert_ne by done. by rewrite Hm.
Qed.

Lemma stored_RemoveComponent (w : World) (T : string) (entity : N) :
  stored w → stored (after (RemoveComponent T entity) w).
Proof.
  intros Hst.
  destruct (GetComponentTypeID_frame T w) as (Hm & Hc & _).
  destruct (m_entityMasks w !! entity) as [mask|] eqn:Hmask.
  - destruct (decide (typeid_of T w < MAX_COMPONENTS)) as [Hcap|Hcap].
    + destruct (N.testbit mask (typeid_of T w)) eqn:Hbit.
      * destruct (stored_components w entity mask _ Hst Hmask Hbit) as [c Hcomp].
        destruct (RemoveComponent_fields T entity mask c w Hcap Hmask Hbit Hcomp)
          as (_ & Hmasks & Hcs & _).
        apply stored_alt. intros e mask' cid. unfold components_of.
        rewrite Hmasks, Hcs. destruct (decide (e = entity)) as [->|Hne].
        -- rewrite !lookup_insert_eq. intros [= <-] Hbit'. simpl.
           split; [done|]. rewrite N.clearbit_eqb in Hbit'.
           apply andb_true_iff in Hbit' as [Hbit' Hcid].
           apply negb_true_iff, N.eqb_neq in Hcid.
           rewrite lookup_delete_ne by done.
           by apply (stored_components w entity mask).
        -- rewrite !lookup_insert_ne by done.
           apply (proj1 (stored_alt w) Hst).
      * unfold after. rewrite (RemoveComponent_absent T entity mask) by done.
        by apply (stored_same w).
    + unfold after. rewrite RemoveComponent_throws by lia. simpl.
      unfold after at 1.
      rewrite (entityMasks_index_live entity mask) by (by rewrite Hm).
      by apply (stored_same w).
  - assert (Hnew : stored (set_entityMasks (<[entity := Bitset.empty]> (m_entityMasks w))
                             (after (GetComponentTypeID T) w))).
    { intros e mask cid. simpl. rewrite Hc.
      destruct (decide (e = entity)) as [->|Hne].
      - rewrite lookup_insert_eq. intros [= <-]. by rewrite N.bits_0.
      - rewrite lookup_insert_ne by done. apply Hst. }
    destruct (decide (typeid_of T w < MAX_COMPONENTS)) as [Hcap|Hcap].
    + unfold after. by rewrite RemoveComponent_unknown.
    + unfold after. rewrite RemoveComponent_throws by lia. simpl.
      unfold after at 1. rewrite entityMasks_index_new by (by rewrite Hm).
      simpl. by rewrite Hm.
Qed.

Lemma RegisterSystem_same_store (w : World) (T : string) (requires : list string) :
  let w' := after (RegisterSystem T requires) w in
  m_entityMasks w' = m_entityMasks w ∧
  m_entityComponents w' = m_entityComponents w ∧
  m_availableEntityIDs w' = m_availableEntityIDs w ∧
  m_nextEntityID w' = m_nextEntityID w ∧
  m_entitiesToDestroy w' = m_entitiesToDestroy w.
Proof.
  simpl.
  destruct (System_construct_run requires System_ctor (after (GetSystemTypeID T) w))
    as (o & w1 & Hrun & Hsame & Hres).
  pose proof (same_manager_trans _ _ _ (GetSystemTypeID_same_manager T w) Hsame)
    as (Hm & Hc & Hav & Hnx & Hs & Hp & Htr).
  destruct Hres as [(s & -> & _)| ->].
  - unfold after. rewrite (RegisterSystem_run T requires s w w1) by done. simpl.
    set (w2 := set_trace _ _).
    destruct (scan_frame (systemid_of T w) (iterate (m_entityMasks w)) w2)
      as (_ & _ & G3 & G4 & G5 & G6 & G7).
    by rewrite G3, G4, G5, G6, G7.
  - unfold after. by rewrite (RegisterSystem_throws T requires w w1) by done.
Qed.

Lemma stored_RegisterSystem (w : World) (T : string) (requires : list string) :
  stored w → stored (after (RegisterSystem T requires) w).
Proof.
  destruct (RegisterSystem_same_store w T requires) as (Hm & Hc & _).
  by apply stored_same.
Qed.
End store.

(** ** The decision procedures *)

Lemma consistent_check_sound (w : World) : consistent_check w = true → consistent w.
Proof.
  unfold consistent_check. intros Hcheck%bool_decide_eq_true.
  intros system s entity mask Hs Hmask.
  specialize (Hcheck system s Hs entity mask Hmask). simpl in Hcheck.
  rewrite <- covers_superset, <- Hcheck. by rewrite bool_decide_eq_true.
Qed.

Lemma subscribers_live_check_sound (w : World) :
  subscribers_live_check w = true → subscribers_live w.
Proof.
  unfold subscribers_live_check. intros Hcheck%bool_decide_eq_true.
  intros system entity (s & Hs & Hin). by apply (Hcheck system s Hs entity).
Qed.

Lemma stored_check_sound (w : World) : stored_check w = true → stored w.
Proof.
  unfold stored_check. intros Hcheck%bool_decide_eq_true. apply stored_alt.
  intros entity mask componentID Hmask Hbit.
  destruct (Hcheck entity mask Hmask) as [Hall Hbound].
  assert (Hlt : componentID < 64).
  { destruct (decide (componentID < 64)) as [|Hge]; [done|].
    destruct (decide (mask = 0)) as [->|Hpos]; [by rewrite N.bits_0 in Hbit|].
    rewrite N.bits_above_log2 in Hbit; [done|].
    assert (N.log2 mask < 64); [|lia].
    apply N.log2_lt_pow2; lia. }
  assert (Hsome : is_Some (components_of entity w !! componentID)).
  { rewrite Forall_forall in Hall.
    specialize (Hall (N.to_nat componentID)). rewrite N2Nat.id in Hall.
    apply Hall; [|done]. apply elem_of_seq. lia. }
  split; [|done]. unfold components_of in Hsome.
  destruct (m_entityComponents w !! entity); [done|].
  simpl in Hsome. rewrite lookup_empty in Hsome. by destruct Hsome.
Qed.

(** ** Attach, detach and lookup *)

Section lookup.
Context `{order : UnorderedMapOrder}.

(** C2.  For a live entity and a component type within the capacity of the
    mask: [AddComponent] returns the instance it was given, and right after
    it [HasComponent] returns true and [GetComponent] returns that instance;
    right after [RemoveComponent], which returns, [HasComponent] returns
    false and [GetComponent] returns the null pointer; and when the entity
    has no component of the type, [RemoveComponent] does nothing but look up
    the identifier of the type. *)
Theorem attach_detach_lookup (w : World) (T : string) (entity component mask : N) :
  m_entityMasks w !! entity = Some mask →
  typeid_of T w < MAX_COMPONENTS →
  stored w →
  (let w' := after (AddComponent T entity component) w in
   result (AddComponent T entity component) w = Ret (Some component) ∧
   result (HasComponent T entity) w' = Ret true ∧
   result (GetComponent T entity) w' = Ret (Some component)) ∧
  (let w' := after (RemoveComponent T entity) w in
   result (RemoveComponent T entity) w = Ret tt ∧
   result (HasComponent T entity) w' = Ret false ∧
   result (GetComponent T entity) w' = Ret None) ∧
  (result (HasComponent T entity) w = Ret false →
   RemoveComponent T entity w = (Ret tt, after (GetComponentTypeID T) w)).
Proof.
  intros Hmask Hcap Hst.
  assert (Hid : ∀ w', componentTypeID w'
                      = componentTypeID (after (GetComponentTypeID T) w) →
                      typeid_of T w' = typeid_of T w).
  { intros w' Hreg. apply typeid_of_known. rewrite Hreg.
    apply GetComponentTypeID_again. }
  split_and!.
  - simpl.
    destruct (AddComponent_fields T entity component w Hcap)
      as (Hreg & Hmasks & Hcs & _).
    rewrite Hmask in Hmasks. simpl in Hmasks.
    set (w' := after (AddComponent T entity component) w) in *.
    assert (Hmask' : m_entityMasks w' !! entity
                     = Some (N.setbit mask (typeid_of T w)))
      by (rewrite Hmasks; apply lookup_insert_eq).
    assert (Hcap' : typeid_of T w' < MAX_COMPONENTS) by (by rewrite Hid).
    assert (Hcomp' : components_of entity w' !! typeid_of T w = Some component).
    { unfold components_of. rewrite Hcs, lookup_insert_eq. simpl.
      apply lookup_insert_eq. }
    split_and!.
    + unfold result. by rewrite AddComponent_run.
    + unfold result. rewrite (HasComponent_run T entity _ w' Hcap' Hmask').
      simpl. by rewrite (Hid w' Hreg), N.setbit_eq.
    + unfold result. rewrite (GetComponent_run T entity _ w' Hcap' Hmask').
      * simpl. by rewrite (Hid w' Hreg), N.setbit_eq, Hcomp'.
      * intros _. rewrite (Hid w' Hreg), Hcomp'. eauto.
  - simpl. destruct (N.testbit mask (typeid_of T w)) eqn:Hbit.
    + destruct (stored_components w entity mask _ Hst Hmask Hbit) as [c Hcomp].
      destruct (RemoveComponent_fields T entity mask c w Hcap Hmask Hbit Hcomp)
        as (Hreg & Hmasks & _).
      set (w' := after (RemoveComponent T entity) w) in *.
      assert (Hmask' : m_entityMasks w' !! entity
                       = Some (N.clearbit mask (typeid_of T w)))
        by (rewrite Hmasks; apply lookup_insert_eq).
      assert (Hcap' : typeid_of T w' < MAX_COMPONENTS) by (by rewrite Hid).
      split_and!.
      * unfold result. by rewrite (RemoveComponent_run T entity mask c).
      * unfold result. rewrite (HasComponent_run T entity _ w' Hcap' Hmask').
        simpl. by rewrite (Hid w' Hreg), N.clearbit_eq.
      * unfold result. rewrite (GetComponent_run T entity _ w' Hcap' Hmask').
        -- simpl. by rewrite (Hid w' Hreg), N.clearbit_eq.
        -- rewrite (Hid w' Hreg), N.clearbit_eq. done.
    + unfold after, result.
      rewrite (RemoveComponent_absent T entity mask) by done. simpl.
      destruct (GetComponentTypeID_frame T w) as (Hm & _).
      set (w' := after (GetComponentTypeID T) w) in *.
      assert (Hmask' : m_entityMasks w' !! entity = Some mask) by (by rewrite Hm).
      assert (Hcap' : typeid_of T w' < MAX_COMPONENTS)
        by (unfold w'; by rewrite typeid_of_declared).
      split_and!; [done| |].
      * rewrite (HasComponent_run T entity _ w' Hcap' Hmask'). simpl.
        unfold w'. by rewrite typeid_of_declared, Hbit.
      * rewrite (GetComponent_run T entity _ w' Hcap' Hmask').
        -- simpl. unfold w'. by rewrite typeid_of_declared, Hbit.
        -- unfold w'. rewrite typeid_of_declared, Hbit. done.
  - unfold result. rewrite (HasComponent_run T entity mask w Hcap Hmask).
    simpl. intros [= Hbit]. by apply (RemoveComponent_absent T entity mask).
Qed.

End lookup.

(** The hero, entity 0, has the mask of its HeroComponent; AbilitySlot is the
    component type 1; no entity 7 was created. *)
Lemma attach_detach_lookup_witness :
  (m_entityMasks hero_world !! 0 = Some 1 ∧
   typeid_of "AbilitySlot" hero_world < MAX_COMPONENTS ∧
   stored hero_world) ∧
  result (HasComponent "AbilitySlot" 0) hero_with_ability = Ret true ∧
  result (GetComponent "AbilitySlot" 0) hero_with_ability = Ret (Some 101) ∧
  result (HasComponent "AbilitySlot" 0)
    (after (RemoveComponent (order := ascending_keys) "AbilitySlot" 0) hero_world)
  = Ret false.
Proof.
  assert (H1 : m_entityMasks hero_world !! 0 = Some 1) by (vm_compute; reflexivity).
  assert (H2 : typeid_of "AbilitySlot" hero_world < MAX_COMPONENTS)
    by (vm_compute; reflexivity).
  assert (H3 : stored hero_world)
    by (apply stored_check_sound; vm_compute; reflexivity).
  destruct (attach_detach_lookup (order := ascending_keys) hero_world "AbilitySlot"
              0 101 1 H1 H2 H3) as ((_ & Hhas & Hget) & (_ & Hgone & _) & _).
  split; [by split_and!|]. split; [exact Hhas|]. split; [exact Hget|exact Hgone].
Defined.



(** ** The capacity of the mask *)

Lemma typeid_of_GetSystemTypeID (T S : string) (w : World) :
  typeid_of T (after (GetSystemTypeID S) w) = typeid_of T w.
Proof.
  unfold after, GetSystemTypeID, typeid_of.
  by destruct (systemTypeID w !! S).
Qed.



Section capacity.
Context `{order : UnorderedMapOrder}.

End capacity.



(** ** The identifiers of the entities *)

Lemma ids_wf_initial : ids_wf initial.
Proof.
  split_and!.
  - constructor.
  - by intros e ?%elem_of_nil.
  - intros e [mask Hmask]. simpl in Hmask. by rewrite lookup_empty in Hmask.
  - intros e He. simpl in He. set_solver.
Qed.

Section identifiers.
Context `{order : UnorderedMapOrder}.

(** C5, amended.  [MAX_ENTITIES] is not used.  In a world whose pooled,
    live and pending identifiers are distinct ones that the counter issued,
    [CreateEntity] returns an identifier that is not live, and makes it
    live; such a world stays so after [CreateEntity] while the counter does
    not wrap, after [DestroyEntity] of a live entity, and after
    [ProcessDestructions]. *)
Theorem CreateEntity_returns_unused_identifier (w : World) :
  ids_wf w →
  result CreateEntity w = Ret (upcoming w) ∧
  ¬ live w (upcoming w) ∧
  live (after CreateEntity w) (upcoming w) ∧
  (m_nextEntityID w + 1 < 2 ^ 32 → ids_wf (after CreateEntity w)) ∧
  (∀ entity, live w entity → ids_wf (after (DestroyEntity entity) w)) ∧
  ids_wf (after ProcessDestructions w).
Proof.
  intros (Hnd & Hpool & Hlive & Hpending).
  assert (Hfresh : ¬ live w (upcoming w)).
  { unfold upcoming. destruct (m_availableEntityIDs w) as [|front rest] eqn:Hav.
    - intros Hl%Hlive. lia.
    - apply Hpool. apply list_elem_of_here. }
  unfold after, result. rewrite CreateEntity_run. simpl. split_and!.
  - done.
  - done.
  - unfold live. simpl. rewrite lookup_insert_eq. eauto.
  - intros Hbound. unfold ids_wf, live. simpl.
    assert (Hnext : m_nextEntityID w
                    ≤ (if m_availableEntityIDs w is []
                       then uint32_incr (m_nextEntityID w)
                       else m_nextEntityID w)).
    { destruct (m_availableEntityIDs w); [|done]. unfold uint32_incr.
      rewrite N.mod_small by done. lia. }
    assert (Hup : upcoming w
                  < (if m_availableEntityIDs w is []
                     then uint32_incr (m_nextEntityID w)
                     else m_nextEntityID w)).
    { unfold upcoming. destruct (m_availableEntityIDs w) as [|front rest] eqn:Hav.
      - unfold uint32_incr. rewrite N.mod_small by done. lia.
      - apply Hpool. apply list_elem_of_here. }
    assert (Htail : ∀ e, e ∈ tail (m_availableEntityIDs w) →
              e ∈ m_availableEntityIDs w ∧ e ≠ upcoming w).
    { unfold upcoming. destruct (m_availableEntityIDs w) as [|front rest]; simpl.
      - by intros e ?%elem_of_nil.
      - apply NoDup_cons in Hnd as [Hfront _]. intros e He. split.
        + by apply list_elem_of_further.
        + by intros ->. }
    split_and!.
    + destruct (m_availableEntityIDs w) as [|front rest]; simpl; [constructor|].
      by apply NoDup_cons in Hnd as [_ ?].
    + intros e [He Hne]%Htail. rewrite lookup_insert_ne by done.
      destruct (Hpool e He). split; [done|lia].
    + intros e. destruct (decide (e = upcoming w)) as [->|Hne]; [done|].
      rewrite lookup_insert_ne by done. intros Hl%Hlive. lia.
    + intros e He%Hpending. destruct (decide (e = upcoming w)) as [->|Hne].
      * rewrite lookup_insert_eq. eauto.
      * by rewrite lookup_insert_ne.
  - intros entity Hentity. unfold ids_wf, live. simpl. split_and!; try done.
    intros e [->%elem_of_singleton|He]%elem_of_union; [done|by apply Hpending].
  - destruct (ProcessDestructions_fields w)
      as (_ & _ & Hmasks & _ & Hav & Hnx & Hpend).
    unfold after in *. rewrite ProcessDestructions_run in *.
    unfold ids_wf, live. rewrite Hav, Hnx, Hpend.
    assert (Hsub : ∀ e, is_Some
              (m_entityMasks (Ret (), set_entitiesToDestroy ∅
                 (destroy_all (ascending (m_entitiesToDestroy w)) w)).2 !! e) →
              live w e ∧ e ∉ m_entitiesToDestroy w).
    { intros e. rewrite Hmasks. destruct (decide _); [by intros []|done]. }
    split_and!.
    + apply NoDup_app. split_and!; [done| |apply NoDup_ascending].
      intros e He He'%elem_of_ascending. destruct (Hpool e He) as [Hdead _].
      by apply Hdead, Hpending.
    + intros e [He|He%elem_of_ascending]%elem_of_app.
      * destruct (Hpool e He) as [Hdead Hlt]. split; [|done].
        by intros [? _]%Hsub.
      * split; [by intros [_ ?]%Hsub|]. by apply Hlive, Hpending.
    + by intros e [?%Hlive _]%Hsub.
    + intros e He. set_solver.
Qed.
End identifiers.

(** C5, as stated, fails: 10001 calls of [CreateEntity] give 10001 live
    entities, more than [MAX_ENTITIES]. *)
Lemma create_entities_beyond_MAX_ENTITIES :
  result (create_entities (N.to_nat 10001)) initial = Ret tt ∧
  MAX_ENTITIES < N.of_nat (size (m_entityMasks (after (create_entities (N.to_nat 10001)) initial))).
Proof. split; vm_compute; reflexivity. Qed.

(** After two creations and the destruction of entity 0, the identifier 0 is
    in the pool, not live, and is the one that [CreateEntity] returns. *)
Lemma CreateEntity_returns_unused_identifier_witness :
  ids_wf recycled_world ∧
  result CreateEntity recycled_world = Ret 0 ∧
  ¬ live recycled_world 0.
Proof.
  pose proof (CreateEntity_returns_unused_identifier (order := ascending_keys)
                initial ids_wf_initial) as (_ & _ & _ & H1 & _).
  specialize (H1 ltac:(vm_compute; reflexivity)).
  pose proof (CreateEntity_returns_unused_identifier (order := ascending_keys)
                _ H1) as (_ & _ & _ & H2 & _).
  specialize (H2 ltac:(vm_compute; reflexivity)).
  pose proof (CreateEntity_returns_unused_identifier (order := ascending_keys)
                _ H2) as (_ & _ & _ & _ & H3 & _).
  specialize (H3 0 ltac:(by exists 0; vm_compute)).
  pose proof (CreateEntity_returns_unused_identifier (order := ascending_keys)
                _ H3) as (_ & _ & _ & _ & _ & H4).
  pose proof (CreateEntity_returns_unused_identifier (order := ascending_keys)
                recycled_world H4) as (Hret & Hfresh & _).
  split; [exact H4|]. split; [exact Hret|exact Hfresh].
Defined.

(** ** The subscriptions follow the masks *)

Lemma visited_on_attach (entity mask id : N) (s : System) :
  m_componentMask (visited (on_attach entity mask) id s) = m_componentMask s ∧
  m_entities (visited (on_attach entity mask) id s)
  = if Bitset.covers mask (m_componentMask s)
    then {[entity]} ∪ m_entities s else m_entities s.
Proof.
  unfold visited, on_attach. by destruct (Bitset.covers mask (m_componentMask s)).
Qed.

Lemma visited_on_detach (entity mask id : N) (s : System) :
  m_componentMask (visited (on_detach entity mask) id s) = m_componentMask s ∧
  m_entities (visited (on_detach entity mask) id s)
  = if Bitset.covers mask (m_componentMask s)
    then m_entities s else m_entities s ∖ {[entity]}.
Proof.
  unfold visited, on_detach, on_remove.
  destruct (Bitset.covers mask (m_componentMask s)); simpl; [done|].
  case_bool_decide; simpl; [done|]. split; [done|set_solver].
Qed.

Lemma subscriptions_ok_same (w w' : World) :
  m_entityMasks w' = m_entityMasks w →
  m_systems w' = m_systems w →
  subscriptions_ok w → subscriptions_ok w'.
Proof.
  unfold subscriptions_ok, consistent, subscribers_live, subscribed, live.
  by intros -> ->.
Qed.

Lemma elem_of_matching (required : N) (l : list (N * N)) (entity : N) :
  entity ∈ matching required l ↔
  ∃ mask, (entity, mask) ∈ l ∧ Bitset.covers mask required = true.
Proof.
  unfold matching. rewrite list_elem_of_fmap. split.
  - intros ([e mask] & -> & [Hc Hin]%list_elem_of_filter). by exists mask.
  - intros (mask & Hin & Hc). exists (entity, mask). split; [done|].
    by apply list_elem_of_filter.
Qed.

Section subscriptions.
Context `{order : UnorderedMapOrder}.

Lemma subscriptions_ok_AddComponent (w : World) (T : string) (entity component : N) :
  live w entity → subscriptions_ok w →
  subscriptions_ok (after (AddComponent T entity component) w).
Proof.
  intros [mask Hmask] [Hcons Hlive].
  destruct (GetComponentTypeID_frame T w) as (Hm & Hc & Hav & Hnx & Hs & Hp & Htr).
  destruct (decide (typeid_of T w < MAX_COMPONENTS)) as [Hcap|Hcap].
  - destruct (AddComponent_fields T entity component w Hcap)
      as (_ & Hmasks & _ & Hsys & _).
    rewrite Hmask in Hmasks, Hsys. simpl in Hmasks, Hsys.
    set (mask' := N.setbit mask (typeid_of T w)) in *.
    split.
    + intros system s' e m'. rewrite Hsys, Hmasks.
      destruct (m_systems w !! system) as [s|] eqn:Hsystem; [|done].
      intros [= <-].
      destruct (visited_on_attach entity mask' system s) as [-> ->].
      destruct (decide (e = entity)) as [->|Hne].
      * rewrite lookup_insert_eq. intros [= <-].
        destruct (Bitset.covers mask' (m_componentMask s)) eqn:Hcov.
        -- apply covers_superset in Hcov. split; [done|set_solver].
        -- rewrite (Hcons system s entity mask Hsystem Hmask). split.
           ++ intros Hsup%(superset_setbit _ _ (typeid_of T w)).
              apply covers_superset in Hsup. fold mask' in Hsup. congruence.
           ++ intros Hsup%covers_superset. congruence.
      * rewrite lookup_insert_ne by done. intros Hm'.
        rewrite <- (Hcons system s e m' Hsystem Hm').
        destruct (Bitset.covers mask' (m_componentMask s)); set_solver.
    + intros system e (s' & Hs' & Hin). rewrite Hsys in Hs'.
      destruct (m_systems w !! system) as [s|] eqn:Hsystem; [|done].
      injection Hs' as <-. unfold live. rewrite Hmasks.
      destruct (decide (e = entity)) as [->|Hne].
      * rewrite lookup_insert_eq. eauto.
      * rewrite lookup_insert_ne by done. apply (Hlive system). exists s.
        split; [done|].
        destruct (visited_on_attach entity mask' system s) as [_ Hents].
        rewrite Hents in Hin.
        destruct (Bitset.covers mask' (m_componentMask s)); set_solver.
  - assert (Hidx : entityMasks_index entity
              (set_entityComponents
                 (<[entity := <[typeid_of T w := component]> (components_of entity w)]>
                    (m_entityComponents w))
                 (after (GetComponentTypeID T) w))
            = (Ret mask,
               set_entityComponents
                 (<[entity := <[typeid_of T w := component]> (components_of entity w)]>
                    (m_entityComponents w))
                 (after (GetComponentTypeID T) w))).
    { apply entityMasks_index_live. simpl. by rewrite Hm. }
    apply (subscriptions_ok_same w); [| |done];
      unfold after at 1; rewrite AddComponent_throws by lia; simpl;
      unfold after at 1; by rewrite Hidx.
Qed.

Lemma subscriptions_ok_RemoveComponent (w : World) (T : string) (entity : N) :
  live w entity → subscriptions_ok w →
  subscriptions_ok (after (RemoveComponent T entity) w).
Proof.
  intros [mask Hmask] [Hcons Hlive].
  destruct (RemoveComponent_live T entity mask w Hmask)
    as [(Hm & Hs & _)|(Hcap & Hbit & c & Hcomp)].
  { by apply (subscriptions_ok_same w). }
  destruct (RemoveComponent_fields T entity mask c w Hcap Hmask Hbit Hcomp)
    as (_ & Hmasks & _ & Hsys & _).
  set (mask' := N.clearbit mask (typeid_of T w)) in *.
  split.
  - intros system s' e m'. rewrite Hsys, Hmasks.
    destruct (m_systems w !! system) as [s|] eqn:Hsystem; [|done].
    intros [= <-].
    destruct (visited_on_detach entity mask' system s) as [-> ->].
    destruct (decide (e = entity)) as [->|Hne].
    + rewrite lookup_insert_eq. intros [= <-].
      destruct (Bitset.covers mask' (m_componentMask s)) eqn:Hcov.
      * apply covers_superset in Hcov. split; [done|]. intros _.
        apply (Hcons system s entity mask Hsystem Hmask).
        by apply (superset_clearbit _ _ (typeid_of T w)).
      * split; [set_solver|]. intros Hsup%covers_superset. congruence.
    + rewrite lookup_insert_ne by done. intros Hm'.
      rewrite <- (Hcons system s e m' Hsystem Hm').
      destruct (Bitset.covers mask' (m_componentMask s)); set_solver.
  - intros system e (s' & Hs' & Hin). rewrite Hsys in Hs'.
    destruct (m_systems w !! system) as [s|] eqn:Hsystem; [|done].
    injection Hs' as <-. unfold live. rewrite Hmasks.
    destruct (decide (e = entity)) as [->|Hne].
    + rewrite lookup_insert_eq. eauto.
    + rewrite lookup_insert_ne by done. apply (Hlive system). exists s.
      split; [done|].
      destruct (visited_on_detach entity mask' system s) as [_ Hents].
      rewrite Hents in Hin.
      destruct (Bitset.covers mask' (m_componentMask s)); set_solver.
Qed.

Lemma subscriptions_ok_RegisterSystem (w : World) (T : string)
    (requires : list string) :
  subscriptions_ok w →
  subscriptions_ok (after (RegisterSystem T requires) w).
Proof.
  intros [Hcons Hlive].
  destruct (System_construct_run requires System_ctor (after (GetSystemTypeID T) w))
    as (o & w1 & Hrun & Hsame & Hres).
  pose proof (same_manager_trans _ _ _ (GetSystemTypeID_same_manager T w) Hsame)
    as (Hm & Hc & Hav & Hnx & Hs & Hp & Htr).
  destruct Hres as [(s & -> & Hents & _)| ->].
  - destruct (RegisterSystem_same_store w T requires) as (Hmasks & _).
    assert (Hsys : ∀ id, m_systems (after (RegisterSystem T requires) w) !! id
              = if decide (id = systemid_of T w)
                then Some (with_entities
                             (list_to_set (matching (m_componentMask s)
                                             (iterate (m_entityMasks w))))
                             (with_id (systemid_of T w) s))
                else m_systems w !! id).
    { intros id. unfold after.
      rewrite (RegisterSystem_run T requires s w w1) by done. simpl.
      rewrite scan_systems. simpl. destruct (decide _) as [->|Hne].
      - rewrite lookup_insert_eq. simpl. unfold with_entities. simpl.
        rewrite Hents. simpl. do 3 f_equal. set_solver.
      - by rewrite lookup_insert_ne. }
    split.
    + intros system s' e m'. rewrite Hsys, Hmasks.
      destruct (decide _) as [->|Hne]; [|apply Hcons].
      intros [= <-] Hm'. simpl.
      rewrite elem_of_list_to_set, elem_of_matching, <- covers_superset. split.
      * intros (m0 & Hin%elem_of_iterate & Hcov). congruence.
      * intros Hcov. exists m'. split; [by apply elem_of_iterate|done].
    + intros system e (s' & Hs' & Hin). rewrite Hsys in Hs'.
      unfold live. rewrite Hmasks. destruct (decide _) as [->|Hne].
      * injection Hs' as <-. simpl in Hin.
        apply elem_of_list_to_set, elem_of_matching in Hin
          as (m0 & Hin%elem_of_iterate & _). eauto.
      * apply (Hlive system). by exists s'.
  - apply (subscriptions_ok_same w); [| |done]; unfold after;
      by rewrite (RegisterSystem_throws T requires w w1).
Qed.

Lemma subscriptions_ok_CreateEntity (w : World) :
  (∀ system s, m_systems w !! system = Some s → m_componentMask s ≠ Bitset.empty) →
  ¬ live w (upcoming w) →
  subscriptions_ok w → subscriptions_ok (after CreateEntity w).
Proof.
  intros Hrequired Hfresh [Hcons Hlive].
  unfold after. rewrite CreateEntity_run. simpl. split.
  - intros system s e m'. simpl. intros Hsystem.
    destruct (decide (e = upcoming w)) as [->|Hne].
    + rewrite lookup_insert_eq. intros [= <-]. split.
      * intros Hin. destruct Hfresh. apply (Hlive system). by exists s.
      * intros Hsup%superset_empty_inv. by destruct (Hrequired system s).
    + rewrite lookup_insert_ne by done. intros Hm'.
      by apply (Hcons system s e m').
  - intros system e (s & Hsystem & Hin). unfold live. simpl.
    destruct (decide (e = upcoming w)) as [->|Hne].
    + rewrite lookup_insert_eq. eauto.
    + rewrite lookup_insert_ne by done. apply (Hlive system). by exists s.
Qed.

Lemma subscriptions_ok_ProcessDestructions (w : World) :
  subscriptions_ok w → subscriptions_ok (after ProcessDestructions w).
Proof.
  intros [Hcons Hlive].
  destruct (ProcessDestructions_fields w) as (_ & Hsys & Hmasks & _).
  split.
  - intros system s' e m'. rewrite Hsys, Hmasks.
    destruct (m_systems w !! system) as [s|] eqn:Hsystem; [|done].
    intros [= <-]. destruct (decide _) as [|Hout]; [done|]. intros Hm'. simpl.
    rewrite <- (Hcons system s e m' Hsystem Hm'). set_solver.
  - intros system e (s' & Hs' & Hin). rewrite Hsys in Hs'.
    destruct (m_systems w !! system) as [s|] eqn:Hsystem; [|done].
    injection Hs' as <-. simpl in Hin. unfold live. rewrite Hmasks.
    apply elem_of_difference in Hin as [Hin Hout].
    rewrite decide_False by done. apply (Hlive system). by exists s.
Qed.

(** What the code keeps of C1.  That every registered system has exactly
    the live entities whose mask is a superset of its required mask, and no
    other entity, is kept by [AddComponent] and by [RemoveComponent] on a
    live entity, by [RegisterSystem], by [DestroyEntity] and by
    [ProcessDestructions].  [CreateEntity] does not look at the systems: it
    keeps the property when no registered system has an empty required mask,
    the identifier it returns not being live. *)
Theorem subscriptions_follow_masks (w : World) :
  subscriptions_ok w →
  (∀ T entity component,
     live w entity → subscriptions_ok (after (AddComponent T entity component) w)) ∧
  (∀ T entity,
     live w entity → subscriptions_ok (after (RemoveComponent T entity) w)) ∧
  (∀ T requires, subscriptions_ok (after (RegisterSystem T requires) w)) ∧
  ((∀ system s, m_systems w !! system = Some s →
                m_componentMask s ≠ Bitset.empty) →
   ¬ live w (upcoming w) →
   subscriptions_ok (after CreateEntity w)) ∧
  (∀ entity, subscriptions_ok (after (DestroyEntity entity) w)) ∧
  subscriptions_ok (after ProcessDestructions w).
Proof.
  intros Hok. split_and!.
  - intros T entity component Hentity. by apply subscriptions_ok_AddComponent.
  - intros T entity Hentity. by apply subscriptions_ok_RemoveComponent.
  - intros T requires. by apply subscriptions_ok_RegisterSystem.
  - intros Hrequired Hfresh. by apply subscriptions_ok_CreateEntity.
  - intros entity. by apply (subscriptions_ok_same w).
  - by apply subscriptions_ok_ProcessDestructions.
Qed.
End subscriptions.

(** C1.  A system with an empty required mask is registered, and an entity
    is created: the empty mask of the entity is a superset of the required
    mask, and [CreateEntity] has not subscribed the entity.  In the other
    order, [RegisterSystem] subscribes the entity that exists. *)
Lemma CreateEntity_misses_empty_mask_system :
  (m_systems unsubscribed_world !! 0
   = Some {| m_componentMask := 0; m_entities := ∅; m_id := 0; m_active := true |} ∧
   m_entityMasks unsubscribed_world !! 0 = Some 0 ∧
   superset 0 0 ∧
   ¬ subscribed unsubscribed_world 0 0 ∧
   ¬ consistent unsubscribed_world) ∧
  (m_entityMasks subscribed_world !! 0 = Some 0 ∧
   subscribed subscribed_world 0 0 ∧
   consistent subscribed_world).
Proof.
  assert (Hs : m_systems unsubscribed_world !! 0
    = Some {| m_componentMask := 0; m_entities := ∅; m_id := 0; m_active := true |})
    by (vm_compute; reflexivity).
  assert (Hm : m_entityMasks unsubscribed_world !! 0 = Some 0)
    by (vm_compute; reflexivity).
  assert (Hsup : superset 0 0) by done.
  assert (Hout : ¬ subscribed unsubscribed_world 0 0).
  { intros (s & Hs' & Hin). rewrite Hs in Hs'. injection Hs' as <-.
    simpl in Hin. set_solver. }
  split.
  - split_and!; [exact Hs|exact Hm|exact Hsup|exact Hout|].
    intros Hcons. apply Hout. eexists. split; [exact Hs|].
    by apply (Hcons 0 _ 0 0 Hs Hm).
  - split_and!.
    + vm_compute. reflexivity.
    + eexists. split; [vm_compute; reflexivity|].
      apply (bool_decide_unpack _). vm_compute. exact I.
    + apply consistent_check_sound. vm_compute. reflexivity.
Qed.

(** The hero gets an AbilitySlot, loses its HeroComponent, a third system is
    registered, and a second entity is created. *)
Lemma subscriptions_follow_masks_witness :
  subscriptions_ok hero_world ∧
  subscriptions_ok hero_with_ability ∧
  subscriptions_ok
    (after (RemoveComponent (order := ascending_keys) "HeroComponent" 0) hero_world) ∧
  subscriptions_ok
    (after (RegisterSystem (order := ascending_keys) "RenderSystem" ["Transform"])
       hero_world) ∧
  subscriptions_ok (after CreateEntity hero_world).
Proof.
  assert (Hok : subscriptions_ok hero_world).
  { split.
    - apply consistent_check_sound. vm_compute. reflexivity.
    - apply subscribers_live_check_sound. vm_compute. reflexivity. }
  assert (Hlive : live hero_world 0) by (exists 1; vm_compute; reflexivity).
  destruct (subscriptions_follow_masks (order := ascending_keys) hero_world Hok)
    as (Hadd & Hremove & Hregister & Hcreate & _).
  split_and!.
  - exact Hok.
  - exact (Hadd "AbilitySlot" 0 101 Hlive).
  - exact (Hremove "HeroComponent" 0 Hlive).
  - exact (Hregister "RenderSystem" ["Transform"]).
  - apply Hcreate.
    + apply (bool_decide_unpack
               (map_Forall (λ _ s, m_componentMask s ≠ Bitset.empty)
                  (m_systems hero_world))).
      vm_compute. exact I.
    + intros [mask Hmask]. vm_compute in Hmask. discriminate.
Defined.

(** ** Every mask bit is backed by a component, in every world *)

Section reachable.
Context `{order : UnorderedMapOrder}.

Lemma HasComponent_after (T : string) (entity : N) (w : World) :
  after (HasComponent T entity) w = after (GetComponentTypeID T) w.
Proof.
  unfold after at 1. unfold HasComponent.
  run_with (apply GetComponentTypeID_run).
  unfold bind, entityMasks_at, lift.
  by destruct (m_entityMasks (after (GetComponentTypeID T) w) !! entity).
Qed.

Lemma GetComponent_after (T : string) (entity : N) (w : World) :
  after (GetComponent T entity) w = after (GetComponentTypeID T) w.
Proof.
  unfold after at 1. unfold GetComponent.
  run_with (apply GetComponentTypeID_run).
  unfold bind, entityMasks_at, entityComponents_at, lift, Bitset.test.
  destruct (m_entityMasks (after (GetComponentTypeID T) w) !! entity) as [mask|];
    [|done].
  destruct (typeid_of T w <? MAX_COMPONENTS); [|done].
  destruct (N.testbit mask (typeid_of T w)); simpl; [|done].
  destruct (m_entityComponents (after (GetComponentTypeID T) w) !! entity)
    as [cs|]; [|done].
  by destruct (cs !! typeid_of T w).
Qed.

Lemma stored_perform (w : World) (c : Call) : stored w → stored (perform w c).
Proof.
  intros Hst. destruct c; simpl.
  - by apply stored_CreateEntity.
  - by apply stored_DestroyEntity.
  - by apply stored_ProcessDestructions.
  - by apply stored_AddComponent.
  - by apply stored_RemoveComponent.
  - rewrite HasComponent_after.
    destruct (GetComponentTypeID_frame T w) as (Hm & Hc & _).
    by apply (stored_same w).
  - rewrite GetComponent_after.
    destruct (GetComponentTypeID_frame T w) as (Hm & Hc & _).
    by apply (stored_same w).
  - apply (stored_same w); [| |done];
      unfold after, GetComponentMask, entityMasks_at;
      by destruct (m_entityMasks w !! entity).
  - by apply stored_RegisterSystem.
  - apply (stored_same w); [| |done];
      unfold after, System_SetActive, bind, system_deref;
      by destruct (m_systems w !! system).
  - unfold after. rewrite UpdateSystems_run. by apply (stored_same w).
  - unfold after. rewrite RenderSystems_run. by apply (stored_same w).
Qed.

(** Whatever calls are made, with whatever arguments. *)
Lemma stored_perform_all (calls : list Call) : stored (perform_all calls).
Proof.
  unfold perform_all. assert (Hst : stored initial) by apply stored_initial.
  revert Hst. generalize initial as w.
  induction calls as [|c calls IH]; intros w Hst; [done|].
  simpl. apply IH. by apply stored_perform.
Qed.
End reachable.
(** ** Type identifiers *)

Lemma GetComponentTypeID_keeps (T T' : string) (id : N) (w : World) :
  componentTypeID w !! T' = Some id →
  componentTypeID (after (GetComponentTypeID T) w) !! T' = Some id.
Proof.
  intros HT'. unfold after, GetComponentTypeID.
  destruct (componentTypeID w !! T) eqn:HT; simpl; [done|].
  rewrite lookup_insert_ne; [done|]. intros ->. congruence.
Qed.

Lemma GetComponentTypeID_system_types (T : string) (w : World) :
  systemTypeID (after (GetComponentTypeID T) w) = systemTypeID w ∧
  s_systemTypeCounter (after (GetComponentTypeID T) w) = s_systemTypeCounter w.
Proof.
  unfold after, GetComponentTypeID.
  destruct (componentTypeID w !! T); done.
Qed.

Lemma component_types_wf_initial : component_types_wf initial.
Proof. split; intros ?; intros; simpl in *; by rewrite lookup_empty in *. Qed.

Lemma component_types_wf_GetComponentTypeID (T : string) (w : World) :
  component_types_wf w →
  s_componentTypeCounter w + 1 < 2 ^ 32 →
  component_types_wf (after (GetComponentTypeID T) w).
Proof.
  intros [Hlt Hinj] Hc. unfold after, GetComponentTypeID.
  destruct (componentTypeID w !! T) eqn:HT; simpl; [by split|].
  assert (Hincr : uint32_incr (s_componentTypeCounter w) = s_componentTypeCounter w + 1).
  { unfold uint32_incr. apply N.mod_small. exact Hc. }
  split; simpl.
  - intros T0 id. rewrite Hincr.
    destruct (decide (T0 = T)) as [->|Hne].
    + rewrite lookup_insert_eq. intros [= <-]. lia.
    + rewrite lookup_insert_ne by done. intros H0. specialize (Hlt _ _ H0). lia.
  - intros T1 T2 id.
    destruct (decide (T1 = T)) as [->|Hne1], (decide (T2 = T)) as [->|Hne2];
      rewrite ?lookup_insert_eq, ?lookup_insert_ne by done; try done.
    + intros [= <-] H2. specialize (Hlt _ _ H2). lia.
    + intros H1 [= <-]. specialize (Hlt _ _ H1). lia.
    + apply Hinj.
Qed.

(** X1.  The first use of a component type gives it the value of the counter; a
    later use gives the same identifier again and changes nothing; while the
    counter has not wrapped, another type gets another identifier; and the
    identifiers of the system types are counted apart. *)
Theorem GetComponentTypeID_stable_and_distinct (w : World) (T T' S : string) :
  component_types_wf w →
  s_componentTypeCounter w + 1 < 2 ^ 32 →
  let w1 := after (GetComponentTypeID T) w in
  component_types_wf w1 ∧
  GetComponentTypeID T w1 = (Ret (typeid_of T w), w1) ∧
  (T' ≠ T → result (GetComponentTypeID T') w1 ≠ result (GetComponentTypeID T) w) ∧
  result (GetSystemTypeID S) w1 = result (GetSystemTypeID S) w ∧
  result (GetComponentTypeID T) (after (GetSystemTypeID S) w)
  = result (GetComponentTypeID T) w.
Proof.
  intros Hwf Hc w1.
  pose proof (component_types_wf_GetComponentTypeID T w Hwf Hc) as Hwf1.
  fold w1 in Hwf1.
  pose proof (GetComponentTypeID_again T w) as Hagain. fold w1 in Hagain.
  split; [exact Hwf1|]. split; [|split; [|split]].
  - unfold GetComponentTypeID at 1. by rewrite Hagain.
  - intros Hne. rewrite !GetComponentTypeID_returns. intros [= Heq].
    destruct Hwf1 as [Hlt Hinj].
    unfold typeid_of at 1 in Heq.
    destruct (componentTypeID w1 !! T') as [id'|] eqn:HT'; simpl in Heq.
    + subst id'. apply Hne. by apply (Hinj T' T (typeid_of T w)).
    + specialize (Hlt _ _ Hagain). lia.
  - unfold result. rewrite !GetSystemTypeID_run. simpl. f_equal.
    unfold systemid_of, w1.
    destruct (GetComponentTypeID_system_types T w) as [-> ->]. done.
  - rewrite !GetComponentTypeID_returns. by rewrite typeid_of_GetSystemTypeID.
Qed.

(** "Transform" is the first component type used after the start: it gets 0,
    keeps it, and "MeshRenderer" gets another identifier. *)
Lemma GetComponentTypeID_stable_and_distinct_witness :
  let w1 := after (GetComponentTypeID "Transform") initial in
  (component_types_wf initial ∧ s_componentTypeCounter initial + 1 < 2 ^ 32) ∧
  GetComponentTypeID "Transform" w1 = (Ret 0, w1) ∧
  result (GetComponentTypeID "MeshRenderer") w1 = Ret 1.
Proof.
  assert (Hwf : component_types_wf initial) by apply component_types_wf_initial.
  assert (Hc : s_componentTypeCounter initial + 1 < 2 ^ 32) by (vm_compute; reflexivity).
  pose proof (GetComponentTypeID_stable_and_distinct initial
                "Transform" "MeshRenderer" "HeroSystem" Hwf Hc) as (_ & Hrun & _).
  split; [split; [exact Hwf|exact Hc]|].
  split; [exact Hrun|]. vm_compute. reflexivity.
Defined.
(** ** Registration of a system *)

Lemma GetSystemTypeID_again (T : string) (w : World) :
  systemTypeID (after (GetSystemTypeID T) w) !! T = Some (systemid_of T w).
Proof.
  unfold after, GetSystemTypeID, systemid_of.
  destruct (systemTypeID w !! T) eqn:HT; simpl; [done|].
  by rewrite lookup_insert_eq.
Qed.

Lemma GetSystemTypeID_known (T : string) (id : N) (w : World) :
  systemTypeID w !! T = Some id → GetSystemTypeID T w = (Ret id, w).
Proof. intros HT. unfold GetSystemTypeID. by rewrite HT. Qed.

Lemma GetSystemTypeID_component_types (T : string) (w : World) :
  componentTypeID (after (GetSystemTypeID T) w) = componentTypeID w ∧
  s_componentTypeCounter (after (GetSystemTypeID T) w) = s_componentTypeCounter w.
Proof. unfold after, GetSystemTypeID. destruct (systemTypeID w !! T); done. Qed.

(** The mask that a constructor builds has the bits of the identifiers of
    the required types; the identifiers of the system types stay. *)
Lemma System_construct_mask (requires : list string) (s s' : System) (w w1 : World) :
  System_construct requires s w = (Ret s', w1) →
  (∀ T id, componentTypeID w !! T = Some id → componentTypeID w1 !! T = Some id) ∧
  systemTypeID w1 = systemTypeID w ∧
  s_systemTypeCounter w1 = s_systemTypeCounter w ∧
  m_entities s' = m_entities s ∧ m_id s' = m_id s ∧ m_active s' = m_active s ∧
  (∀ i, N.testbit (m_componentMask s') i = true ↔
        N.testbit (m_componentMask s) i = true ∨
        ∃ T, T ∈ requires ∧ componentTypeID w1 !! T = Some i).
Proof.
  revert s w. induction requires as [|T requires IH]; intros s w Hrun.
  - injection Hrun as <- <-. split_and!; try done.
    intros i. split; [by left|]. intros [?|(T & HT & _)]; [done|].
    by apply elem_of_nil in HT.
  - simpl in Hrun. pose proof (System_RequireComponent_run T s w) as Hreq.
    destruct (typeid_of T w <? MAX_COMPONENTS) eqn:Hlt.
    + erewrite bind_run in Hrun by exact Hreq.
      apply IH in Hrun as (Hkeep & Hst & Hsc & Hents & Hid & Hact & Hbits).
      destruct (GetComponentTypeID_system_types T w) as [Hst0 Hsc0].
      split_and!; try done.
      * intros T0 id H0. by apply Hkeep, GetComponentTypeID_keeps.
      * congruence.
      * congruence.
      * intros i. rewrite Hbits. simpl. rewrite N.setbit_iff. split.
        -- intros [[<-|Hi]|(T0 & HT0 & Hlook)].
           ++ right. exists T. split; [by left|].
              apply Hkeep, GetComponentTypeID_again.
           ++ by left.
           ++ right. exists T0. split; [by right|done].
        -- intros [Hi|(T0 & HT0 & Hlook)]; [by left; right|].
           apply elem_of_cons in HT0 as [->|HT0].
           ++ left. left.
              pose proof (Hkeep _ _ (GetComponentTypeID_again T w)). congruence.
           ++ right. by exists T0.
    + erewrite bind_throw in Hrun by exact Hreq. discriminate.
Qed.

Lemma visit_system_types (g : Visit) (w : World) (id : N) :
  systemTypeID (visit g w id) = systemTypeID w ∧
  s_systemTypeCounter (visit g w id) = s_systemTypeCounter w.
Proof. rewrite visit_eq. done. Qed.

Lemma scan_system_types (id : N) (l : list (N * N)) (w : World) :
  systemTypeID (scan id l w) = systemTypeID w ∧
  s_systemTypeCounter (scan id l w) = s_systemTypeCounter w.
Proof.
  revert w. induction l as [|p l IH]; intros w; [done|].
  simpl. destruct (IH (visit (on_attach p.1 p.2) w id)) as [-> ->].
  apply visit_system_types.
Qed.

(** The hooks that the loop of [RegisterSystem] calls. *)
Lemma scan_trace (id : N) (l : list (N * N)) (w : World) (s : System) :
  m_systems w !! id = Some s →
  trace (scan id l w)
  = trace w ++ (System_OnEntityAdded id <$> matching (m_componentMask s) l).
Proof.
  revert w s. induction l as [|p l IH]; intros w s Hs.
  - simpl. by rewrite app_nil_r.
  - simpl.
    assert (Hs' : m_systems (visit (on_attach p.1 p.2) w id) !! id
                  = Some (visited (on_attach p.1 p.2) id s)).
    { rewrite visit_lookup, decide_True by done. by rewrite Hs. }
    rewrite (IH _ _ Hs'), visit_trace, Hs. simpl.
    destruct (visited_on_attach p.1 p.2 id s) as [-> _].
    unfold matching, heard, on_attach. rewrite filter_cons.
    destruct (decide (Bitset.covers p.2 (m_componentMask s) = true)) as [Hcov|Hcov].
    + rewrite Hcov. simpl. by rewrite <- app_assoc.
    + apply not_true_is_false in Hcov. rewrite Hcov. simpl. by rewrite app_nil_r.
Qed.

Lemma NoDup_matching `{UnorderedMapOrder} (required : N) (masks : gmap N N) :
  NoDup (matching required (iterate masks)).
Proof.
  unfold matching. apply (sublist_NoDup _ (iterate masks).*1).
  - apply iterate_keys.
  - apply fmap_sublist. apply sublist_filter.
Qed.

Section registered.
Context `{order : UnorderedMapOrder}.

(** What a registration that returns has done. *)
Lemma RegisterSystem_registered (w : World) (T : string) (requires : list string)
    (system : N) :
  result (RegisterSystem T requires) w = Ret system →
  let w' := after (RegisterSystem T requires) w in
  system = systemid_of T w ∧
  systemTypeID w' !! T = Some system ∧
  (∃ s, m_systems w' !! system = Some s ∧
     m_id s = system ∧ m_active s = true ∧
     (∀ i, N.testbit (m_componentMask s) i = true ↔
           ∃ C, C ∈ requires ∧ componentTypeID w' !! C = Some i) ∧
     (∀ entity, entity ∈ m_entities s ↔
           ∃ mask, m_entityMasks w !! entity = Some mask ∧
                   superset mask (m_componentMask s)) ∧
     trace w' = trace w ++ System_Initialize system ::
       (System_OnEntityAdded system
          <$> matching (m_componentMask s) (iterate (m_entityMasks w)))) ∧
  (∀ other, other ≠ system → m_systems w' !! other = m_systems w !! other).
Proof.
  intros Hres w'.
  destruct (System_construct_run requires System_ctor (after (GetSystemTypeID T) w))
    as (o & w1 & Hrun & Hsame & Hout).
  pose proof (same_manager_trans _ _ _ (GetSystemTypeID_same_manager T w) Hsame)
    as (Hm & Hc & Hav & Hnx & Hs & Hp & Htr).
  destruct Hout as [(s & -> & _)| ->]; cycle 1.
  { unfold result in Hres.
    by rewrite (RegisterSystem_throws T requires w w1) in Hres. }
  pose proof (RegisterSystem_run T requires s w w1 Hrun) as Hreg.
  unfold result in Hres. rewrite Hreg in Hres. simpl in Hres. injection Hres as <-.
  apply System_construct_mask in Hrun
    as (Hkeep & Hst & Hsc & Hents & Hid & Hact & Hbits).
  set (id := systemid_of T w) in *.
  set (w2 := set_trace (trace w ++ [System_Initialize id])
               (set_systems (<[id := with_id id s]> (m_systems w)) w1)) in *.
  assert (Hw' : w' = scan id (iterate (m_entityMasks w)) w2).
  { unfold w', after. by rewrite Hreg. }
  assert (Hs2 : m_systems w2 !! id = Some (with_id id s)).
  { unfold w2. simpl. by rewrite lookup_insert_eq. }
  split; [done|]. split; [|split].
  - rewrite Hw'. destruct (scan_system_types id (iterate (m_entityMasks w)) w2) as [-> _].
    unfold w2. simpl. rewrite Hst. apply GetSystemTypeID_again.
  - exists (with_entities
              (list_to_set (matching (m_componentMask s) (iterate (m_entityMasks w))))
              (with_id id s)).
    split_and!.
    + rewrite Hw', scan_systems, decide_True by done. rewrite Hs2. simpl.
      unfold with_entities. simpl. rewrite Hents. simpl.
      do 3 f_equal. set_solver.
    + done.
    + simpl. by rewrite Hact.
    + intros i. simpl. rewrite Hbits.
      assert (Hids : componentTypeID w' = componentTypeID w1).
      { rewrite Hw'.
        by destruct (scan_frame id (iterate (m_entityMasks w)) w2) as (_ & -> & _). }
      rewrite Hids.
      change (N.testbit (m_componentMask System_ctor) i) with (N.testbit 0 i).
      unfold Bitset.empty. rewrite N.bits_0. split.
      * by intros [?|?].
      * by right.
    + intros entity. simpl.
      rewrite elem_of_list_to_set, elem_of_matching. split.
      * intros (mask & Hin%elem_of_iterate & Hcov%covers_superset). eauto.
      * intros (mask & Hmask & Hsup). exists mask.
        split; [by apply elem_of_iterate|by apply covers_superset].
    + rewrite Hw', (scan_trace id _ w2 _ Hs2). unfold w2. simpl.
      by rewrite <- app_assoc.
  - intros other Hne. rewrite Hw', scan_systems, decide_False by done.
    unfold w2. simpl. by rewrite lookup_insert_ne.
Qed.

(** X2.  [RegisterSystem<T>], when the constructor of [T] returns: the system is
    stored under the type identifier of [T], active, with a required mask
    that has exactly the bits of the component types its constructor
    required, and with exactly the live entities whose mask covers that
    mask as subscribers; [Initialize] is called, then [OnEntityAdded] once
    for each of these entities; the other systems are left alone. *)
Theorem RegisterSystem_subscribes_matching (w : World) (T : string)
    (requires : list string) (system : N) :
  result (RegisterSystem T requires) w = Ret system →
  let w' := after (RegisterSystem T requires) w in
  system = systemid_of T w ∧
  (∃ s, m_systems w' !! system = Some s ∧
     m_id s = system ∧ m_active s = true ∧
     (∀ i, N.testbit (m_componentMask s) i = true ↔
           ∃ C, C ∈ requires ∧ componentTypeID w' !! C = Some i) ∧
     (∀ entity, entity ∈ m_entities s ↔
           ∃ mask, m_entityMasks w !! entity = Some mask ∧
                   superset mask (m_componentMask s)) ∧
     emitted w w' = System_Initialize system ::
       (System_OnEntityAdded system
          <$> matching (m_componentMask s) (iterate (m_entityMasks w))) ∧
     NoDup (matching (m_componentMask s) (iterate (m_entityMasks w)))) ∧
  (∀ other, other ≠ system → m_systems w' !! other = m_systems w !! other) ∧
  m_entityMasks w' = m_entityMasks w.
Proof.
  intros Hres w'.
  destruct (RegisterSystem_registered w T requires system Hres)
    as (Hid & _ & (s & Hs & Hsid & Hact & Hbits & Hents & Htr) & Hother).
  split; [done|]. split; [|split; [done|]].
  - exists s. split_and!; try done.
    + by apply emitted_app.
    + apply NoDup_matching.
  - by destruct (RegisterSystem_same_store w T requires) as (? & _).
Qed.

(** X3.  A second registration of a system type replaces the stored instance:
    the identifier and the set of registered systems are the same, the new
    instance is active whatever the old one was, its subscribers are
    computed from the masks alone, and no [OnEntityRemoved] is called for
    the subscribers of the old instance. *)
Theorem RegisterSystem_again_replaces (w : World) (T : string)
    (requires : list string) (system system' : N) (old : System) :
  systemTypeID w !! T = Some system →
  m_systems w !! system = Some old →
  result (RegisterSystem T requires) w = Ret system' →
  let w' := after (RegisterSystem T requires) w in
  system' = system ∧
  dom (m_systems w') = dom (m_systems w) ∧
  (∃ s, m_systems w' !! system = Some s ∧ m_active s = true ∧
     ∀ entity, entity ∈ m_entities s ↔
       ∃ mask, m_entityMasks w !! entity = Some mask ∧
               superset mask (m_componentMask s)) ∧
  (∀ id entity, System_OnEntityRemoved id entity ∉ emitted w w').
Proof.
  intros HT Hold Hres w'.
  destruct (RegisterSystem_registered w T requires system' Hres)
    as (Hid & _ & (s & Hs & Hsid & Hact & Hbits & Hents & Htr) & Hother).
  assert (system' = system) as ->.
  { rewrite Hid. unfold systemid_of. by rewrite HT. }
  split; [done|]. split; [|split].
  - apply set_eq. intros id. rewrite !elem_of_dom.
    destruct (decide (id = system)) as [->|Hne].
    + fold w' in Hs. rewrite Hs, Hold. by split.
    + unfold w'. by rewrite (Hother id Hne).
  - by exists s.
  - intros id entity. rewrite (emitted_app w w' _ Htr).
    intros [?|Hin]%elem_of_cons; [done|].
    by apply list_elem_of_fmap in Hin as (? & ? & _).
Qed.

(** X4.  [GetSystem<T>] returns the system that [RegisterSystem<T>] stored, and
    changes nothing; for a type under whose identifier no system is
    stored it returns the null pointer, and still gives the type its
    identifier when it had none. *)
Theorem GetSystem_after_RegisterSystem (w : World) (T S : string)
    (requires : list string) (system : N) :
  result (RegisterSystem T requires) w = Ret system →
  m_systems w !! systemid_of S w = None →
  let w' := after (RegisterSystem T requires) w in
  GetSystem T w' = (Ret (Some system), w') ∧
  result (GetSystem S) w = Ret None ∧
  systemTypeID (after (GetSystem S) w) !! S = Some (systemid_of S w) ∧
  same_manager w (after (GetSystem S) w).
Proof.
  intros Hres HS w'.
  destruct (RegisterSystem_registered w T requires system Hres)
    as (Hid & HT & (s & Hs & _) & _).
  fold w' in HT, Hs. split; [|split; [|split]].
  - unfold GetSystem. run_with (by apply GetSystemTypeID_known).
    run. unfold ret. rewrite decide_True; [done|]. by rewrite Hs.
  - unfold result, GetSystem. run_with (apply GetSystemTypeID_run). run.
    unfold ret. simpl.
    destruct (GetSystemTypeID_same_manager S w) as (_ & _ & _ & _ & -> & _).
    rewrite decide_False; [done|]. rewrite HS. by intros [? ?].
  - unfold after, GetSystem. run_with (apply GetSystemTypeID_run). run.
    unfold ret. simpl. apply GetSystemTypeID_again.
  - unfold after at 1, GetSystem. run_with (apply GetSystemTypeID_run). run.
    unfold ret. simpl. apply GetSystemTypeID_same_manager.
Qed.
End registered.

(** A third system, requiring HeroComponent, is registered in the world of
    the hero: it is system 2, with mask 1, and the hero is its subscriber. *)
Lemma RegisterSystem_subscribes_matching_witness :
  let w' := after (RegisterSystem (order := ascending_keys)
                     "StatusSystem" ["HeroComponent"]) hero_world in
  result (RegisterSystem (order := ascending_keys)
            "StatusSystem" ["HeroComponent"]) hero_world = Ret 2 ∧
  m_systems w' !! 2
  = Some {| m_componentMask := 1; m_entities := {[0]}; m_id := 2; m_active := true |} ∧
  emitted hero_world w' = [System_Initialize 2; System_OnEntityAdded 2 0] ∧
  m_entityMasks w' = m_entityMasks hero_world.
Proof.
  assert (Hres : result (RegisterSystem (order := ascending_keys)
                           "StatusSystem" ["HeroComponent"]) hero_world = Ret 2)
    by (vm_compute; reflexivity).
  destruct (RegisterSystem_subscribes_matching (order := ascending_keys)
              hero_world "StatusSystem" ["HeroComponent"] 2 Hres)
    as (_ & _ & _ & Hmasks).
  cbv zeta. split; [exact Hres|]. split; [vm_compute; reflexivity|].
  split; [vm_compute; reflexivity|exact Hmasks].
Defined.

(** HeroSystem, system 0, is switched off and registered again in the world
    of the hero: the instance stored under 0 is active. *)
Lemma RegisterSystem_again_replaces_witness :
  let w := after (System_SetActive 0 false) hero_world in
  let w' := after (RegisterSystem (order := ascending_keys)
                     "HeroSystem" ["HeroComponent"]) w in
  (systemTypeID w !! "HeroSystem" = Some 0 ∧
   m_systems w !! 0
   = Some {| m_componentMask := 1; m_entities := {[0]}; m_id := 0; m_active := false |} ∧
   result (RegisterSystem (order := ascending_keys)
             "HeroSystem" ["HeroComponent"]) w = Ret 0) ∧
  dom (m_systems w') = dom (m_systems w) ∧
  m_systems w' !! 0
  = Some {| m_componentMask := 1; m_entities := {[0]}; m_id := 0; m_active := true |}.
Proof.
  set (w := after (System_SetActive 0 false) hero_world).
  assert (HT : systemTypeID w !! "HeroSystem" = Some 0) by (vm_compute; reflexivity).
  assert (Hold : m_systems w !! 0
            = Some {| m_componentMask := 1; m_entities := {[0]}; m_id := 0;
                      m_active := false |}) by (vm_compute; reflexivity).
  assert (Hres : result (RegisterSystem (order := ascending_keys)
                           "HeroSystem" ["HeroComponent"]) w = Ret 0)
    by (vm_compute; reflexivity).
  destruct (RegisterSystem_again_replaces (order := ascending_keys)
              w "HeroSystem" ["HeroComponent"] 0 0 _ HT Hold Hres)
    as (_ & Hdom & _).
  cbv zeta. split; [exact (conj HT (conj Hold Hres))|].
  split; [exact Hdom|]. vm_compute. reflexivity.
Defined.

(** In the world of the hero, [GetSystem] finds the system registered as
    "StatusSystem", and finds none for "RenderSystem", which gets the
    identifier 2. *)
Lemma GetSystem_after_RegisterSystem_witness :
  let w' := after (RegisterSystem (order := ascending_keys)
                     "StatusSystem" ["HeroComponent"]) hero_world in
  (result (RegisterSystem (order := ascending_keys)
             "StatusSystem" ["HeroComponent"]) hero_world = Ret 2 ∧
   m_systems hero_world !! systemid_of "RenderSystem" hero_world = None) ∧
  GetSystem "StatusSystem" w' = (Ret (Some 2), w') ∧
  result (GetSystem "RenderSystem") hero_world = Ret None ∧
  systemTypeID (after (GetSystem "RenderSystem") hero_world) !! "RenderSystem" = Some 2.
Proof.
  assert (Hres : result (RegisterSystem (order := ascending_keys)
                           "StatusSystem" ["HeroComponent"]) hero_world = Ret 2)
    by (vm_compute; reflexivity).
  assert (HS : m_systems hero_world !! systemid_of "RenderSystem" hero_world = None)
    by (vm_compute; reflexivity).
  destruct (GetSystem_after_RegisterSystem (order := ascending_keys)
              hero_world "StatusSystem" "RenderSystem" ["HeroComponent"] 2 Hres HS)
    as (Hget & Hnone & Hid & _).
  cbv zeta. split; [exact (conj Hres HS)|].
  split; [exact Hget|]. split; [exact Hnone|].
  vm_compute. reflexivity.
Defined.
(** ** The pool of identifiers *)

Lemma ascending_empty : ascending ∅ = [].
Proof.
  apply Permutation_nil_r. unfold ascending.
  by rewrite merge_sort_Permutation, elements_empty.
Qed.

Lemma ascending_singleton (e : N) : ascending {[e]} = [e].
Proof.
  apply Permutation_singleton_r. unfold ascending.
  by rewrite merge_sort_Permutation, elements_singleton.
Qed.

Lemma StronglySorted_lt (l : list N) :
  StronglySorted N.le l → NoDup l → StronglySorted N.lt l.
Proof.
  induction 1 as [|x l Hl IH Hall]; intros Hnd; [constructor|].
  apply NoDup_cons in Hnd as [Hx Hnd]. constructor; [by apply IH|].
  apply Forall_forall. intros y Hy.
  rewrite Forall_forall in Hall. specialize (Hall y Hy).
  assert (x ≠ y) by (intros ->; done). lia.
Qed.

Lemma StronglySorted_ascending (s : gset N) : StronglySorted N.lt (ascending s).
Proof.
  apply StronglySorted_lt; [|apply NoDup_ascending].
  unfold ascending. apply StronglySorted_merge_sort.
  - intros x y z. apply N.le_trans.
  - intros x y. lia.
Qed.

(** As many creations as the pool has identifiers return the pool, front
    first, and leave the counter alone. *)
Lemma create_list_pool (n : nat) (w : World) :
  (n ≤ length (m_availableEntityIDs w))%nat →
  ∃ w', create_list n w = (Ret (take n (m_availableEntityIDs w)), w') ∧
    m_availableEntityIDs w' = drop n (m_availableEntityIDs w) ∧
    m_nextEntityID w' = m_nextEntityID w.
Proof.
  revert w. induction n as [|n IH]; intros w Hn.
  - exists w. by rewrite take_0, drop_0.
  - destruct (m_availableEntityIDs w) as [|front rest] eqn:Hpool; simpl in Hn; [lia|].
    pose proof (CreateEntity_run w) as Hcreate.
    unfold upcoming in Hcreate. rewrite Hpool in Hcreate. simpl in Hcreate.
    match type of Hcreate with _ = (_, ?w0) => set (w1 := w0) in * end.
    destruct (IH w1) as (w' & Hrun & Hav & Hnx); [simpl; lia|].
    exists w'. simpl. split; [|done].
    run_with (exact Hcreate). run_with (exact Hrun). done.
Qed.

Section pool.
Context `{order : UnorderedMapOrder}.

(** X5.  The pool is a queue: while it has identifiers, [CreateEntity] returns
    them front first and leaves the counter alone; when it is empty, the
    next [CreateEntity] returns the value of the counter and increments
    it. *)
Theorem CreateEntity_takes_the_pool_front_first (w : World) :
  let n := length (m_availableEntityIDs w) in
  let w' := after (create_list n) w in
  result (create_list n) w = Ret (m_availableEntityIDs w) ∧
  m_availableEntityIDs w' = [] ∧
  m_nextEntityID w' = m_nextEntityID w ∧
  result CreateEntity w' = Ret (m_nextEntityID w) ∧
  m_nextEntityID (after CreateEntity w') = uint32_incr (m_nextEntityID w).
Proof.
  intros n w'.
  destruct (create_list_pool n w) as (w1 & Hrun & Hav & Hnx); [done|].
  assert (w' = w1) as -> by (unfold w', after; by rewrite Hrun).
  unfold n in Hav. rewrite drop_all in Hav.
  unfold result, after. rewrite Hrun, CreateEntity_run. simpl.
  unfold upcoming. rewrite Hav, Hnx. unfold n. by rewrite firstn_all.
Qed.

(** X6.  [DestroyEntity] calls commute, and [ProcessDestructions] appends the
    pending identifiers to the pool in ascending order, whatever the order
    in which they were destroyed: the creations that follow return the
    identifiers that were pooled before, then the flushed ones, smallest
    first. *)
Theorem ProcessDestructions_pools_in_ascending_order (w : World) (a b : N) :
  after (DestroyEntity a) (after (DestroyEntity b) w)
  = after (DestroyEntity b) (after (DestroyEntity a) w) ∧
  let w' := after ProcessDestructions w in
  m_availableEntityIDs w'
  = m_availableEntityIDs w ++ ascending (m_entitiesToDestroy w) ∧
  StronglySorted N.lt (ascending (m_entitiesToDestroy w)) ∧
  (∀ e, e ∈ ascending (m_entitiesToDestroy w) ↔ e ∈ m_entitiesToDestroy w) ∧
  result (create_list (length (m_availableEntityIDs w'))) w'
  = Ret (m_availableEntityIDs w ++ ascending (m_entitiesToDestroy w)).
Proof.
  split.
  - unfold after, DestroyEntity, modify, set_entitiesToDestroy. simpl.
    f_equal. set_solver.
  - intros w'.
    destruct (ProcessDestructions_fields w) as (_ & _ & _ & _ & Hav & _).
    fold w' in Hav. split; [done|]. split; [apply StronglySorted_ascending|].
    split; [apply elem_of_ascending|].
    destruct (create_list_pool (length (m_availableEntityIDs w')) w')
      as (w1 & Hrun & _); [done|].
    unfold result. rewrite Hrun. simpl. by rewrite firstn_all, Hav.
Qed.

(** X7.  With nothing pooled and nothing pending, an identifier that is
    destroyed and flushed is the one that the next [CreateEntity] returns,
    whether or not it was live: it comes back with an empty mask and no
    component, subscribed to no system, the counter is where it was, and
    the other entities have kept their masks and components. *)
Theorem destroyed_identifier_comes_back_clean (w : World) (entity : N) :
  m_availableEntityIDs w = [] →
  m_entitiesToDestroy w = ∅ →
  let w2 := after ProcessDestructions (after (DestroyEntity entity) w) in
  let w3 := after CreateEntity w2 in
  result CreateEntity w2 = Ret entity ∧
  m_entityMasks w3 !! entity = Some Bitset.empty ∧
  m_entityComponents w3 !! entity = Some ∅ ∧
  m_nextEntityID w3 = m_nextEntityID w ∧
  m_availableEntityIDs w3 = [] ∧
  (∀ system, ¬ subscribed w3 system entity) ∧
  (∀ other, other ≠ entity →
     m_entityMasks w3 !! other = m_entityMasks w !! other ∧
     m_entityComponents w3 !! other = m_entityComponents w !! other) ∧
  (∀ T, typeid_of T w3 < MAX_COMPONENTS →
     result (HasComponent T entity) w3 = Ret false ∧
     result (GetComponent T entity) w3 = Ret None).
Proof.
  intros Hpool Hpending. simpl.
  set (w1 := after (DestroyEntity entity) w).
  set (w2 := after ProcessDestructions w1).
  set (w3 := after CreateEntity w2).
  assert (Hp1 : m_entitiesToDestroy w1 = {[entity]}).
  { unfold w1, after, DestroyEntity, modify. simpl. rewrite Hpending. set_solver. }
  destruct (ProcessDestructions_fields w1)
    as (_ & Hsys & Hmasks & Hcomps & Hav & Hnx & _).
  fold w2 in Hsys, Hmasks, Hcomps, Hav, Hnx.
  rewrite Hp1, ascending_singleton in Hav.
  change (m_availableEntityIDs w1) with (m_availableEntityIDs w) in Hav.
  rewrite Hpool in Hav. simpl in Hav.
  assert (Hup : upcoming w2 = entity) by (unfold upcoming; by rewrite Hav).
  pose proof (CreateEntity_run w2) as Hcreate. rewrite Hup, Hav in Hcreate.
  simpl in Hcreate.
  assert (Hmask3 : m_entityMasks w3 !! entity = Some Bitset.empty).
  { unfold w3, after. rewrite Hcreate. simpl. by rewrite lookup_insert_eq. }
  split_and!.
  - unfold result. by rewrite Hcreate.
  - done.
  - unfold w3, after. rewrite Hcreate. simpl. by rewrite lookup_insert_eq.
  - unfold w3, after. rewrite Hcreate. simpl. by rewrite Hnx.
  - unfold w3, after. by rewrite Hcreate.
  - intros system (s & Hs & Hin). unfold w3, after in Hs. rewrite Hcreate in Hs.
    simpl in Hs. rewrite Hsys in Hs.
    change (m_systems w1) with (m_systems w) in Hs.
    destruct (m_systems w !! system) as [s0|]; [|done].
    injection Hs as <-. cbn [m_entities with_entities] in Hin.
    set_solver.
  - intros other Hne. unfold w3, after. rewrite Hcreate. simpl.
    rewrite !lookup_insert_ne by done. rewrite Hmasks, Hcomps, Hp1.
    rewrite !decide_False by set_solver. split; reflexivity.
  - intros T HT. split.
    + unfold result. rewrite (HasComponent_run T entity Bitset.empty w3) by done.
      unfold Bitset.empty. by rewrite N.bits_0.
    + unfold result. rewrite (GetComponent_run T entity Bitset.empty w3); try done;
        unfold Bitset.empty; by rewrite N.bits_0.
Qed.

(** X8.  [DestroyEntity] does not look at the identifier it is given.  When an
    identifier is destroyed and flushed twice without a creation in between
    (through a stale handle, say), it is pooled twice, the pool no longer
    holds distinct identifiers, and two later calls of [CreateEntity]
    return the same identifier. *)
Theorem DestroyEntity_twice_pools_twice (w : World) (entity : N) :
  m_availableEntityIDs w = [] →
  m_entitiesToDestroy w = ∅ →
  let w1 := after ProcessDestructions (after (DestroyEntity entity) w) in
  let w2 := after ProcessDestructions (after (DestroyEntity entity) w1) in
  m_availableEntityIDs w2 = [entity; entity] ∧
  ¬ ids_wf w2 ∧
  result CreateEntity w2 = Ret entity ∧
  result CreateEntity (after CreateEntity w2) = Ret entity ∧
  live (after CreateEntity w2) entity.
Proof.
  intros Hpool Hpending w1 w2.
  assert (Hflush : ∀ w0, m_entitiesToDestroy w0 = ∅ →
            let w0' := after ProcessDestructions (after (DestroyEntity entity) w0) in
            m_availableEntityIDs w0' = m_availableEntityIDs w0 ++ [entity] ∧
            m_entitiesToDestroy w0' = ∅).
  { intros w0 Hp0 w0'.
    destruct (ProcessDestructions_fields (after (DestroyEntity entity) w0))
      as (_ & _ & _ & _ & Hav & _ & Hp).
    fold w0' in Hav, Hp. split; [|done]. rewrite Hav.
    unfold after at 2, DestroyEntity, modify. simpl. rewrite Hp0.
    replace ({[entity]} ∪ ∅ : gset N) with ({[entity]} : gset N) by set_solver.
    by rewrite ascending_singleton. }
  destruct (Hflush w Hpending) as [Hav1 Hp1]. fold w1 in Hav1, Hp1.
  destruct (Hflush w1 Hp1) as [Hav2 _]. fold w2 in Hav2.
  rewrite Hav1, Hpool in Hav2. simpl in Hav2.
  pose proof (CreateEntity_run w2) as Hc2.
  unfold upcoming in Hc2. rewrite Hav2 in Hc2. simpl in Hc2.
  split_and!.
  - done.
  - intros (Hnd & _). rewrite Hav2 in Hnd.
    apply NoDup_cons in Hnd as [Hin _]. apply Hin. by left.
  - unfold result. by rewrite Hc2.
  - unfold result, after. rewrite Hc2. cbn [snd]. by rewrite CreateEntity_run.
  - unfold live, after. rewrite Hc2. simpl. rewrite lookup_insert_eq. eauto.
Qed.

(** X9.  With nothing pending, [ProcessDestructions] does nothing; so a second
    flush right after a first does nothing. *)
Theorem ProcessDestructions_without_pending (w : World) :
  (m_entitiesToDestroy w = ∅ → ProcessDestructions w = (Ret tt, w)) ∧
  ProcessDestructions (after ProcessDestructions w)
  = (Ret tt, after ProcessDestructions w).
Proof.
  assert (Hnone : ∀ w0, m_entitiesToDestroy w0 = ∅ →
            ProcessDestructions w0 = (Ret tt, w0)).
  { intros w0 Hp. rewrite ProcessDestructions_run, Hp, ascending_empty. simpl.
    f_equal. destruct w0; simpl in *. by rewrite Hp. }
  split; [apply Hnone|]. apply Hnone.
  by destruct (ProcessDestructions_fields w) as (_ & _ & _ & _ & _ & _ & ?).
Qed.
End pool.

(** In the world where entity 0 of two was destroyed and flushed, the pool
    is [0]: one creation returns it, the next returns the counter, 2. *)
Lemma CreateEntity_takes_the_pool_front_first_witness :
  m_availableEntityIDs recycled_world = [0] ∧
  result (create_list 1) recycled_world = Ret [0] ∧
  result CreateEntity (after (create_list 1) recycled_world) = Ret 2.
Proof.
  destruct (CreateEntity_takes_the_pool_front_first recycled_world)
    as (Hids & _ & _ & Hnext & _).
  split; [vm_compute; reflexivity|]. split; [exact Hids|exact Hnext].
Defined.

(** The hero, entity 0, is destroyed and flushed: the next creation returns
    0, without a HeroComponent. *)
Lemma destroyed_identifier_comes_back_clean_witness :
  let w2 := after (ProcessDestructions (order := ascending_keys))
              (after (DestroyEntity 0) hero_with_ability) in
  (m_availableEntityIDs hero_with_ability = [] ∧
   m_entitiesToDestroy hero_with_ability = ∅) ∧
  result (HasComponent "HeroComponent" 0) hero_with_ability = Ret true ∧
  result CreateEntity w2 = Ret 0 ∧
  result (HasComponent "HeroComponent" 0) (after CreateEntity w2) = Ret false.
Proof.
  assert (Hpool : m_availableEntityIDs hero_with_ability = [])
    by (vm_compute; reflexivity).
  assert (Hpending : m_entitiesToDestroy hero_with_ability = ∅)
    by (vm_compute; reflexivity).
  destruct (destroyed_identifier_comes_back_clean (order := ascending_keys)
              hero_with_ability 0 Hpool Hpending)
    as (Hid & _ & _ & _ & _ & _ & _ & Hno).
  destruct (Hno "HeroComponent") as [Hhas _]; [vm_compute; reflexivity|].
  cbv zeta. split; [exact (conj Hpool Hpending)|].
  split; [vm_compute; reflexivity|].
  split; [exact Hid|exact Hhas].
Defined.

(** Entity 0 is created, then destroyed and flushed twice: the next two
    creations both return 0. *)
Lemma DestroyEntity_twice_pools_twice_witness :
  let w := after CreateEntity initial in
  let w1 := after (ProcessDestructions (order := ascending_keys))
              (after (DestroyEntity 0) w) in
  let w2 := after (ProcessDestructions (order := ascending_keys))
              (after (DestroyEntity 0) w1) in
  (m_availableEntityIDs w = [] ∧ m_entitiesToDestroy w = ∅) ∧
  m_availableEntityIDs w2 = [0; 0] ∧
  result CreateEntity w2 = Ret 0 ∧
  result CreateEntity (after CreateEntity w2) = Ret 0.
Proof.
  set (w := after CreateEntity initial).
  assert (Hpool : m_availableEntityIDs w = []) by (vm_compute; reflexivity).
  assert (Hpending : m_entitiesToDestroy w = ∅) by (vm_compute; reflexivity).
  destruct (DestroyEntity_twice_pools_twice (order := ascending_keys) w 0 Hpool Hpending)
    as (Hav & _ & Hfirst & Hsecond & _).
  cbv zeta. split; [exact (conj Hpool Hpending)|].
  split; [exact Hav|]. split; [exact Hfirst|exact Hsecond].
Defined.
(** ** Components: replacement, and attach followed by detach *)

Lemma setbit_set (m i : N) : N.testbit m i = true → N.setbit m i = m.
Proof.
  intros Hbit. apply N.bits_inj. intros j. rewrite N.setbit_eqb.
  destruct (N.eqb_spec i j) as [->|?]; [by rewrite Hbit|done].
Qed.

Lemma clearbit_setbit (m i : N) :
  N.testbit m i = false → N.clearbit (N.setbit m i) i = m.
Proof.
  intros Hbit. apply N.bits_inj. intros j. rewrite N.clearbit_eqb, N.setbit_eqb.
  destruct (N.eqb_spec i j) as [->|?]; simpl; [by rewrite Hbit|].
  by rewrite andb_true_r.
Qed.

Lemma with_entities_eq (entities : gset N) (s : System) :
  entities = m_entities s → with_entities entities s = s.
Proof. intros ->. apply with_entities_same. Qed.

Section components.
Context `{order : UnorderedMapOrder}.

(** The identifiers of the types after an [AddComponent] that returns. *)
Lemma AddComponent_types (T : string) (entity component : N) (w : World) :
  typeid_of T w < MAX_COMPONENTS →
  let w' := after (AddComponent T entity component) w in
  let w0 := after (GetComponentTypeID T) w in
  s_componentTypeCounter w' = s_componentTypeCounter w0 ∧
  s_systemTypeCounter w' = s_systemTypeCounter w0 ∧
  componentTypeID w' = componentTypeID w0 ∧
  systemTypeID w' = systemTypeID w0.
Proof.
  intros Hcap. simpl. unfold after at 1 3 5 7.
  rewrite AddComponent_run by done. simpl. rewrite visit_all_eq. done.
Qed.

Lemma RemoveComponent_types (T : string) (entity mask component : N) (w : World) :
  typeid_of T w < MAX_COMPONENTS →
  m_entityMasks w !! entity = Some mask →
  N.testbit mask (typeid_of T w) = true →
  components_of entity w !! typeid_of T w = Some component →
  let w' := after (RemoveComponent T entity) w in
  let w0 := after (GetComponentTypeID T) w in
  s_componentTypeCounter w' = s_componentTypeCounter w0 ∧
  s_systemTypeCounter w' = s_systemTypeCounter w0 ∧
  componentTypeID w' = componentTypeID w0 ∧
  systemTypeID w' = systemTypeID w0.
Proof.
  intros Hcap Hmask Hbit Hcomp. simpl. unfold after at 1 3 5 7.
  rewrite (RemoveComponent_run T entity mask component) by done. simpl.
  rewrite visit_all_eq. done.
Qed.

(** X10.  [AddComponent<T>] on an entity that has a component of type [T]
    replaces the stored instance: the call returns the new instance, which
    is what [GetComponent<T>] returns from then on; the mask and the other
    components of the entity are the same; [Initialize] is called on the
    new instance, and [Finalize] is called on no component, the old
    instance included. *)
Theorem AddComponent_again_replaces (w : World) (T : string)
    (entity old new mask : N) :
  typeid_of T w < MAX_COMPONENTS →
  m_entityMasks w !! entity = Some mask →
  N.testbit mask (typeid_of T w) = true →
  components_of entity w !! typeid_of T w = Some old →
  let w' := after (AddComponent T entity new) w in
  result (AddComponent T entity new) w = Ret (Some new) ∧
  result (GetComponent T entity) w' = Ret (Some new) ∧
  m_entityMasks w' = m_entityMasks w ∧
  (∀ componentID, componentID ≠ typeid_of T w →
     components_of entity w' !! componentID
     = components_of entity w !! componentID) ∧
  (∃ hooks, emitted w w' = Component_Initialize new :: hooks) ∧
  (∀ component, Component_Finalize component ∉ emitted w w').
Proof.
  intros Hcap Hmask Hbit Hold. simpl.
  destruct (AddComponent_fields T entity new w Hcap)
    as (Hreg & Hmasks & Hcs & _ & Htr & _).
  rewrite Hmask in Hmasks, Htr. simpl in Hmasks, Htr.
  rewrite (setbit_set _ _ Hbit) in Hmasks, Htr.
  set (w' := after (AddComponent T entity new) w) in *.
  assert (Hid : typeid_of T w' = typeid_of T w).
  { apply typeid_of_known. rewrite Hreg. apply GetComponentTypeID_again. }
  assert (Hmask' : m_entityMasks w' !! entity = Some mask)
    by (rewrite Hmasks; apply lookup_insert_eq).
  assert (Hnew : components_of entity w' !! typeid_of T w = Some new).
  { unfold components_of at 1. rewrite Hcs, lookup_insert_eq. simpl.
    apply lookup_insert_eq. }
  split_and!.
  - unfold result. by rewrite AddComponent_run.
  - unfold result. rewrite (GetComponent_run T entity mask w').
    + simpl. by rewrite Hid, Hbit, Hnew.
    + by rewrite Hid.
    + done.
    + intros _. rewrite Hid, Hnew. eauto.
  - rewrite Hmasks. by apply insert_id.
  - intros componentID Hne. unfold components_of at 1.
    rewrite Hcs, lookup_insert_eq. simpl. by rewrite lookup_insert_ne.
  - eexists. by apply emitted_app.
  - intros component. rewrite (emitted_app w w' _ Htr).
    intros [?|Hin]%elem_of_cons; [done|].
    apply list_elem_of_bind in Hin as ([id s] & Hin & _).
    unfold heard, on_attach in Hin. simpl in Hin.
    destruct (Bitset.covers mask (m_componentMask s)); simpl in Hin.
    + by apply list_elem_of_singleton in Hin.
    + by apply elem_of_nil in Hin.
Qed.

(** X11.  Attach followed by detach is a round trip.  For a live entity that has
    no component of type [T], in a world whose subscriptions follow the
    masks, [AddComponent<T>] then [RemoveComponent<T>] both return and lead
    to the world in which the type was looked up, but for the trace: the
    masks, the components and the subscriber sets are the ones before, and
    [Initialize] and [Finalize] were called on the instance. *)
Theorem attach_then_detach_restores (w : World) (T : string)
    (entity component mask : N) (components : gmap N N) :
  m_entityMasks w !! entity = Some mask →
  typeid_of T w < MAX_COMPONENTS →
  N.testbit mask (typeid_of T w) = false →
  m_entityComponents w !! entity = Some components →
  components !! typeid_of T w = None →
  consistent w →
  let w1 := after (AddComponent T entity component) w in
  let w2 := after (RemoveComponent T entity) w1 in
  result (AddComponent T entity component) w = Ret (Some component) ∧
  result (RemoveComponent T entity) w1 = Ret tt ∧
  w2 = set_trace (trace w2) (after (GetComponentTypeID T) w) ∧
  Component_Initialize component ∈ emitted w w2 ∧
  Component_Finalize component ∈ emitted w w2.
Proof.
  intros Hmask Hcap Hbit Hcs Hnone Hcons. simpl.
  destruct (AddComponent_fields T entity component w Hcap)
    as (Hreg1 & Hmasks1 & Hcs1 & Hsys1 & Htr1 & Hav1 & Hnx1 & Hp1).
  destruct (AddComponent_types T entity component w Hcap)
    as (Hcc1 & Hsc1 & _ & Hst1).
  rewrite Hmask in Hmasks1, Hsys1, Htr1. simpl in Hmasks1, Hsys1, Htr1.
  set (cid := typeid_of T w) in *.
  set (w1 := after (AddComponent T entity component) w) in *.
  assert (Hid1 : typeid_of T w1 = cid).
  { apply typeid_of_known. rewrite Hreg1. apply GetComponentTypeID_again. }
  assert (Hmask1 : m_entityMasks w1 !! entity = Some (N.setbit mask cid))
    by (rewrite Hmasks1; apply lookup_insert_eq).
  assert (Hcomps : components_of entity w = components)
    by (unfold components_of; by rewrite Hcs).
  assert (Hcomp1 : components_of entity w1 = <[cid := component]> components).
  { unfold components_of at 1. rewrite Hcs1, lookup_insert_eq. simpl.
    by rewrite Hcomps. }
  assert (Hcap1 : typeid_of T w1 < MAX_COMPONENTS) by (by rewrite Hid1).
  assert (Hbit1 : N.testbit (N.setbit mask cid) (typeid_of T w1) = true)
    by (rewrite Hid1; apply N.setbit_eq).
  assert (Hc1 : components_of entity w1 !! typeid_of T w1 = Some component)
    by (rewrite Hid1, Hcomp1; apply lookup_insert_eq).
  destruct (RemoveComponent_fields T entity _ component w1 Hcap1 Hmask1 Hbit1 Hc1)
    as (Hreg2 & Hmasks2 & Hcs2 & Hsys2 & Htr2 & Hav2 & Hnx2 & Hp2).
  destruct (RemoveComponent_types T entity _ component w1 Hcap1 Hmask1 Hbit1 Hc1)
    as (Hcc2 & Hsc2 & _ & Hst2).
  rewrite Hid1 in Hmasks2, Hcs2, Hsys2, Htr2.
  rewrite (clearbit_setbit _ _ Hbit) in Hmasks2, Hsys2, Htr2.
  set (w2 := after (RemoveComponent T entity) w1) in *.
  assert (Hdecl : after (GetComponentTypeID T) w1 = w1).
  { unfold after, GetComponentTypeID. rewrite Hreg1.
    by rewrite (GetComponentTypeID_again T w). }
  rewrite Hdecl in Hreg2, Hcc2, Hsc2, Hst2.
  destruct (GetComponentTypeID_frame T w) as (G1 & G2 & G3 & G4 & G5 & G6 & G7).
  split_and!.
  - unfold result. by rewrite AddComponent_run.
  - unfold result.
    by rewrite (RemoveComponent_run T entity _ component w1 Hcap1 Hmask1 Hbit1 Hc1).
  - apply World_eq; simpl; try congruence.
    + rewrite Hmasks2, Hmasks1, insert_insert_eq, G1. by apply insert_id.
    + rewrite Hcs2, Hcs1, Hcomp1, insert_insert_eq, G2.
      rewrite delete_insert_id by done. by apply insert_id.
    + rewrite G5. apply map_eq. intros id. rewrite Hsys2, Hsys1.
      destruct (m_systems w !! id) as [s|] eqn:Hs; [|done]. simpl. f_equal.
      pose proof (Hcons id s entity mask Hs Hmask) as Hin.
      rewrite <- covers_superset in Hin.
      unfold visited, on_detach, on_attach, on_remove.
      destruct (Bitset.covers (N.setbit mask cid) (m_componentMask s)) eqn:Hcov1;
        simpl.
      * destruct (Bitset.covers mask (m_componentMask s)) eqn:Hcov; simpl.
        -- apply with_entities_eq.
           assert (entity ∈ m_entities s) by (by apply Hin). set_solver.
        -- rewrite bool_decide_eq_true_2 by set_solver. simpl.
           unfold with_entities. simpl.
           assert (entity ∉ m_entities s) by (by intros ?%Hin).
           destruct s; simpl in *. f_equal. set_solver.
      * assert (Hcov : Bitset.covers mask (m_componentMask s) = false).
        { apply not_true_is_false. intros Hsup%covers_superset.
          apply (superset_setbit _ _ cid), covers_superset in Hsup. congruence. }
        rewrite Hcov. simpl.
        rewrite bool_decide_eq_false_2; [done|]. intros ?%Hin. congruence.
  - rewrite (emitted_app w w2 _ ltac:(rewrite Htr2, Htr1, <- app_assoc; reflexivity)).
    simpl. by left.
  - rewrite (emitted_app w w2 _ ltac:(rewrite Htr2, Htr1, <- app_assoc; reflexivity)).
    simpl. right. apply elem_of_app. right. by left.
Qed.
End components.

(** The hero with its two components gets a second AbilitySlot, at address
    102: it replaces the one at 101, and no [Finalize] is called. *)
Lemma AddComponent_again_replaces_witness :
  let w' := after (AddComponent (order := ascending_keys) "AbilitySlot" 0 102)
              hero_with_ability in
  (typeid_of "AbilitySlot" hero_with_ability < MAX_COMPONENTS ∧
   m_entityMasks hero_with_ability !! 0 = Some 3 ∧
   N.testbit 3 (typeid_of "AbilitySlot" hero_with_ability) = true ∧
   components_of 0 hero_with_ability !! typeid_of "AbilitySlot" hero_with_ability
   = Some 101) ∧
  result (GetComponent "AbilitySlot" 0) w' = Ret (Some 102) ∧
  m_entityMasks w' = m_entityMasks hero_with_ability ∧
  Component_Finalize 101 ∉ emitted hero_with_ability w'.
Proof.
  assert (H1 : typeid_of "AbilitySlot" hero_with_ability < MAX_COMPONENTS)
    by (vm_compute; reflexivity).
  assert (H2 : m_entityMasks hero_with_ability !! 0 = Some 3)
    by (vm_compute; reflexivity).
  assert (H3 : N.testbit 3 (typeid_of "AbilitySlot" hero_with_ability) = true)
    by (vm_compute; reflexivity).
  assert (H4 : components_of 0 hero_with_ability
               !! typeid_of "AbilitySlot" hero_with_ability = Some 101)
    by (vm_compute; reflexivity).
  destruct (AddComponent_again_replaces (order := ascending_keys)
              hero_with_ability "AbilitySlot" 0 101 102 3 H1 H2 H3 H4)
    as (_ & Hget & Hmasks & _ & _ & Hfin).
  cbv zeta. split; [exact (conj H1 (conj H2 (conj H3 H4)))|].
  split; [exact Hget|]. split; [exact Hmasks|apply Hfin].
Defined.

(** The hero gets an AbilitySlot and loses it: the systems, the masks and
    the components are those of the world of the hero. *)
Lemma attach_then_detach_restores_witness :
  let w2 := after (RemoveComponent (order := ascending_keys) "AbilitySlot" 0)
              hero_with_ability in
  (m_entityMasks hero_world !! 0 = Some 1 ∧
   typeid_of "AbilitySlot" hero_world < MAX_COMPONENTS ∧
   N.testbit 1 (typeid_of "AbilitySlot" hero_world) = false ∧
   m_entityComponents hero_world !! 0 = Some {[0 := 100]} ∧
   ({[0 := 100]} : gmap N N) !! typeid_of "AbilitySlot" hero_world = None ∧
   consistent hero_world) ∧
  w2 = set_trace (trace w2) (after (GetComponentTypeID "AbilitySlot") hero_world) ∧
  m_systems w2 = m_systems hero_world.
Proof.
  assert (H1 : m_entityMasks hero_world !! 0 = Some 1) by (vm_compute; reflexivity).
  assert (H2 : typeid_of "AbilitySlot" hero_world < MAX_COMPONENTS)
    by (vm_compute; reflexivity).
  assert (H3 : N.testbit 1 (typeid_of "AbilitySlot" hero_world) = false)
    by (vm_compute; reflexivity).
  assert (H4 : m_entityComponents hero_world !! 0 = Some {[0 := 100]})
    by (vm_compute; reflexivity).
  assert (H5 : ({[0 := 100]} : gmap N N) !! typeid_of "AbilitySlot" hero_world = None)
    by (vm_compute; reflexivity).
  assert (H6 : consistent hero_world)
    by (apply consistent_check_sound; vm_compute; reflexivity).
  destruct (attach_then_detach_restores (order := ascending_keys)
              hero_world "AbilitySlot" 0 101 1 _ H1 H2 H3 H4 H5 H6)
    as (_ & _ & Heq & _).
  cbv zeta. split; [exact (conj H1 (conj H2 (conj H3 (conj H4 (conj H5 H6)))))|].
  split; [exact Heq|].
  etrans; [exact (f_equal m_systems Heq)|]. vm_compute. reflexivity.
Defined.
(** ** The mask and the component map agree, within the capacity *)

Lemma backed_same (w w' : World) :
  m_entityMasks w' = m_entityMasks w →
  m_entityComponents w' = m_entityComponents w →
  backed w → backed w'.
Proof. intros Hm Hc Hb e cs id c. rewrite Hm, Hc. apply Hb. Qed.

(** Masks may be added, and component maps that hold nothing new. *)
Lemma backed_weaken (w w' : World) :
  (∀ e mask, m_entityMasks w !! e = Some mask → m_entityMasks w' !! e = Some mask) →
  (∀ e cs id c, m_entityComponents w' !! e = Some cs → cs !! id = Some c →
     ∃ cs0, m_entityComponents w !! e = Some cs0 ∧ cs0 !! id = Some c) →
  backed w → backed w'.
Proof.
  intros Hm Hc Hb e cs id c Hcs Hid.
  destruct (Hc e cs id c Hcs Hid) as (cs0 & Hcs0 & Hid0).
  destruct (Hb e cs0 id c Hcs0 Hid0) as (mask & Hmask & Hbit).
  exists mask. split; [by apply Hm|done].
Qed.

Lemma backed_initial : backed initial.
Proof. intros e cs id c. simpl. by rewrite lookup_empty. Qed.

Lemma components_of_Some (w : World) (entity componentID component : N) :
  components_of entity w !! componentID = Some component →
  ∃ cs, m_entityComponents w !! entity = Some cs ∧ cs !! componentID = Some component.
Proof.
  unfold components_of. destruct (m_entityComponents w !! entity) as [cs|]; simpl.
  - eauto.
  - by rewrite lookup_empty.
Qed.

Section exact.
Context `{order : UnorderedMapOrder}.

Lemma backed_CreateEntity (w : World) : backed w → backed (after CreateEntity w).
Proof.
  intros Hb e cs id c. unfold after. rewrite CreateEntity_run. simpl.
  destruct (decide (e = upcoming w)) as [->|Hne].
  - rewrite lookup_insert_eq. intros [= <-]. by rewrite lookup_empty.
  - rewrite !lookup_insert_ne by done. apply Hb.
Qed.

Lemma backed_ProcessDestructions (w : World) :
  backed w → backed (after ProcessDestructions w).
Proof.
  intros Hb e cs id c.
  destruct (ProcessDestructions_fields w) as (_ & _ & Hm & Hc & _).
  rewrite Hm, Hc. destruct (decide _); [done|]. apply Hb.
Qed.

Lemma backed_AddComponent (w : World) (T : string) (entity component : N) :
  typeid_of T w < MAX_COMPONENTS →
  backed w → backed (after (AddComponent T entity component) w).
Proof.
  intros Hcap Hb e cs id c.
  destruct (AddComponent_fields T entity component w Hcap) as (_ & Hm & Hc & _).
  rewrite Hm, Hc. destruct (decide (e = entity)) as [->|Hne].
  - rewrite !lookup_insert_eq. intros [= <-] Hid. eexists. split; [done|].
    destruct (decide (id = typeid_of T w)) as [->|Hneid].
    + apply N.setbit_eq.
    + rewrite lookup_insert_ne in Hid by done.
      apply components_of_Some in Hid as (cs0 & Hcs0 & Hid0).
      destruct (Hb _ _ _ _ Hcs0 Hid0) as (mask & -> & Hbit). simpl.
      rewrite N.setbit_iff. by right.
  - rewrite !lookup_insert_ne by done. apply Hb.
Qed.

Lemma backed_RemoveComponent (w : World) (T : string) (entity : N) :
  backed w → backed (after (RemoveComponent T entity) w).
Proof.
  intros Hb.
  destruct (GetComponentTypeID_frame T w) as (Hm & Hc & _).
  assert (Hadd : backed (set_entityMasks (<[entity := Bitset.empty]> (m_entityMasks w))
                           (after (GetComponentTypeID T) w))
                 ∨ is_Some (m_entityMasks w !! entity)).
  { destruct (m_entityMasks w !! entity) as [mask|] eqn:Hmask; [right; eauto|left].
    apply (backed_weaken w); [| |done]; simpl.
    - intros e mask He. rewrite lookup_insert_ne; [done|]. intros ->. congruence.
    - intros e cs id c. rewrite Hc. eauto. }
  destruct (m_entityMasks w !! entity) as [mask|] eqn:Hmask.
  - destruct (decide (typeid_of T w < MAX_COMPONENTS)) as [Hcap|Hcap].
    + destruct (N.testbit mask (typeid_of T w)) eqn:Hbit.
      * destruct (components_of entity w !! typeid_of T w) as [c|] eqn:Hcomp.
        -- destruct (RemoveComponent_fields T entity mask c w Hcap Hmask Hbit Hcomp)
             as (_ & Hmasks & Hcs & _).
           intros e cs id c'. rewrite Hmasks, Hcs.
           destruct (decide (e = entity)) as [->|Hne].
           ++ rewrite !lookup_insert_eq. intros [= <-] Hid. eexists. split; [done|].
              destruct (decide (id = typeid_of T w)) as [->|Hneid];
                [by rewrite lookup_delete_eq in Hid|].
              rewrite lookup_delete_ne in Hid by done.
              apply components_of_Some in Hid as (cs0 & Hcs0 & Hid0).
              destruct (Hb _ _ _ _ Hcs0 Hid0) as (mask0 & Hmask0 & Hbit0).
              assert (mask0 = mask) as -> by congruence.
              rewrite N.clearbit_eqb, Hbit0. simpl.
              apply negb_true_iff, N.eqb_neq. done.
           ++ rewrite !lookup_insert_ne by done. apply Hb.
        -- unfold after.
           rewrite (RemoveComponent_undefined T entity mask) by done. simpl.
           apply (backed_weaken w); [| |done]; simpl.
           ++ intros e m0. by rewrite Hm.
           ++ intros e cs id c'.
              destruct (decide (e = entity)) as [->|Hne].
              ** rewrite lookup_insert_eq. intros [= <-] Hid.
                 by apply components_of_Some.
              ** rewrite lookup_insert_ne by done. eauto.
      * unfold after. rewrite (RemoveComponent_absent T entity mask) by done.
        by apply (backed_same w).
    + unfold after. rewrite RemoveComponent_throws by lia. simpl.
      unfold after at 1.
      rewrite (entityMasks_index_live entity mask) by (by rewrite Hm).
      by apply (backed_same w).
  - destruct Hadd as [Hadd|[? ?]]; [|done].
    destruct (decide (typeid_of T w < MAX_COMPONENTS)) as [Hcap|Hcap].
    + unfold after. by rewrite RemoveComponent_unknown.
    + unfold after. rewrite RemoveComponent_throws by lia. simpl.
      unfold after at 1. rewrite entityMasks_index_new by (by rewrite Hm).
      simpl. by rewrite Hm.
Qed.

Lemma backed_perform (w : World) (c : Call) :
  within_capacity w c → backed w → backed (perform w c).
Proof.
  intros Hcap Hb. destruct c; simpl.
  - by apply backed_CreateEntity.
  - by apply (backed_same w).
  - by apply backed_ProcessDestructions.
  - by apply backed_AddComponent.
  - by apply backed_RemoveComponent.
  - rewrite HasComponent_after.
    destruct (GetComponentTypeID_frame T w) as (Hm & Hc & _).
    by apply (backed_same w).
  - rewrite GetComponent_after.
    destruct (GetComponentTypeID_frame T w) as (Hm & Hc & _).
    by apply (backed_same w).
  - apply (backed_same w); [| |done];
      unfold after, GetComponentMask, entityMasks_at;
      by destruct (m_entityMasks w !! entity).
  - destruct (RegisterSystem_same_store w T requires) as (Hm & Hc & _).
    by apply (backed_same w).
  - apply (backed_same w); [| |done];
      unfold after, System_SetActive, bind, system_deref;
      by destruct (m_systems w !! system).
  - unfold after. rewrite UpdateSystems_run. by apply (backed_same w).
  - unfold after. rewrite RenderSystems_run. by apply (backed_same w).
Qed.

(** X12.  In every world reached from the start by calls of the interface in
    which each [AddComponent] is for a component type whose identifier the
    mask can hold, the mask of a live entity has the bit of a component
    type exactly when the entity has a stored component of that type. *)
Theorem mask_bit_iff_component_stored (calls : list Call) :
  all_within_capacity initial calls →
  let w := perform_all calls in
  ∀ entity mask componentID,
    m_entityMasks w !! entity = Some mask →
    (N.testbit mask componentID = true ↔
     is_Some (components_of entity w !! componentID)).
Proof.
  intros Hcalls w.
  assert (Hboth : stored w ∧ backed w).
  { unfold w, perform_all.
    assert (H0 : stored initial ∧ backed initial)
      by (split; [apply stored_initial|apply backed_initial]).
    revert H0 Hcalls. generalize initial as w0.
    induction calls as [|c calls IH]; intros w0 H0 Hcalls; [done|].
    destruct Hcalls as [Hc Hrest]. destruct H0 as [Hst Hb]. simpl.
    apply IH; [|done]. split; [by apply stored_perform|by apply backed_perform]. }
  destruct Hboth as [Hst Hb]. intros entity mask componentID Hmask. split.
  - intros Hbit. by apply (stored_components w entity mask).
  - intros [c Hc]. apply components_of_Some in Hc as (cs & Hcs & Hid).
    destruct (Hb _ _ _ _ Hcs Hid) as (mask0 & Hmask0 & Hbit). congruence.
Qed.
End exact.

(** An entity gets a Transform and a MeshRenderer, and loses the Transform:
    its mask is 2, and it has a component of type 1 and none of type 0. *)
Lemma mask_bit_iff_component_stored_witness :
  let calls := [CallCreateEntity; CallAddComponent "Transform" 0 100;
                CallAddComponent "MeshRenderer" 0 101;
                CallRemoveComponent "Transform" 0] in
  let w := perform_all (H := ascending_keys) calls in
  all_within_capacity (H := ascending_keys) initial calls ∧
  m_entityMasks w !! 0 = Some 2 ∧
  is_Some (components_of 0 w !! 1) ∧
  (¬ is_Some (components_of 0 w !! 0)).
Proof.
  set (calls := [CallCreateEntity; CallAddComponent "Transform" 0 100;
                 CallAddComponent "MeshRenderer" 0 101;
                 CallRemoveComponent "Transform" 0]).
  assert (Hcalls : all_within_capacity (H := ascending_keys) initial calls).
  { simpl. repeat split; vm_compute; reflexivity. }
  assert (Hmask : m_entityMasks (perform_all (H := ascending_keys) calls) !! 0 = Some 2)
    by (vm_compute; reflexivity).
  pose proof (mask_bit_iff_component_stored (order := ascending_keys) calls Hcalls
                0 2) as Hiff.
  cbv zeta. split; [exact Hcalls|]. split; [exact Hmask|]. split.
  - apply (Hiff 1 Hmask). vm_compute. reflexivity.
  - intros Hc. apply (Hiff 0 Hmask) in Hc. vm_compute in Hc. discriminate.
Defined.
(** ** A call for one entity leaves the other entities alone *)

Lemma emitted_same (w w' : World) : trace w' = trace w → emitted w w = [] ∧ emitted w w' = [].
Proof.
  intros Htr. unfold emitted. rewrite Htr. by rewrite drop_all.
Qed.

(** Only the entries of another entity were written. *)
Lemma untouched_at (w w' : World) (other : N) :
  m_entityMasks w' !! other = m_entityMasks w !! other →
  m_entityComponents w' !! other = m_entityComponents w !! other →
  m_systems w' = m_systems w →
  trace w' = trace w →
  untouched w w' other.
Proof.
  intros Hm Hc Hs Htr. split_and!; try done.
  - intros system. unfold subscribed. by rewrite Hs.
  - intros system. destruct (emitted_same w w' Htr) as [_ ->].
    split; apply not_elem_of_nil.
Qed.

(** The systems were visited for another entity. *)
Lemma untouched_visited (w w' : World) (other : N) (f : N → System → System)
    (evs : list Event) :
  m_entityMasks w' !! other = m_entityMasks w !! other →
  m_entityComponents w' !! other = m_entityComponents w !! other →
  (∀ id, m_systems w' !! id = f id <$> m_systems w !! id) →
  (∀ id s, other ∈ m_entities (f id s) ↔ other ∈ m_entities s) →
  trace w' = trace w ++ evs →
  (∀ system, (System_OnEntityAdded system other ∉ evs) ∧
             (System_OnEntityRemoved system other ∉ evs)) →
  untouched w w' other.
Proof.
  intros Hm Hc Hs Hf Htr Hevs. split_and!; try done.
  - intros system. unfold subscribed. rewrite Hs. split.
    + intros (s' & Hs' & Hin). destruct (m_systems w !! system) as [s|]; [|done].
      injection Hs' as <-. exists s. split; [done|]. by apply Hf in Hin.
    + intros (s & -> & Hin). exists (f system s). split; [done|]. by apply Hf.
  - by rewrite (emitted_app w w' evs Htr).
Qed.

Lemma entityMasks_index_other (entity other : N) (w : World) :
  other ≠ entity →
  let w' := after (entityMasks_index entity) w in
  m_entityMasks w' !! other = m_entityMasks w !! other ∧
  m_entityComponents w' = m_entityComponents w ∧
  m_systems w' = m_systems w ∧ trace w' = trace w.
Proof.
  intros Hne. unfold after, entityMasks_index.
  destruct (m_entityMasks w !! entity); simpl; [done|].
  by rewrite lookup_insert_ne.
Qed.

Section others.
Context `{order : UnorderedMapOrder}.

Lemma AddComponent_untouched (w : World) (T : string) (entity component other : N) :
  other ≠ entity → untouched w (after (AddComponent T entity component) w) other.
Proof.
  intros Hne.
  destruct (GetComponentTypeID_frame T w) as (G1 & G2 & _ & _ & G5 & _ & G7).
  destruct (decide (typeid_of T w < MAX_COMPONENTS)) as [Hcap|Hcap].
  - destruct (AddComponent_fields T entity component w Hcap)
      as (_ & Hm & Hc & Hs & Htr & _).
    eapply untouched_visited; [| |exact Hs| |exact Htr|].
    + rewrite Hm. by apply lookup_insert_ne.
    + rewrite Hc. by apply lookup_insert_ne.
    + intros id s. destruct (visited_on_attach entity
        (N.setbit (default Bitset.empty (m_entityMasks w !! entity)) (typeid_of T w))
        id s) as [_ ->].
      destruct (Bitset.covers _ _); set_solver.
    + intros system. split.
      * intros [?|Hin]%elem_of_cons; [done|].
        apply list_elem_of_bind in Hin as ([id s] & Hin & _).
        unfold heard, on_attach in Hin. simpl in Hin.
        destruct (Bitset.covers _ _); simpl in Hin.
        -- apply list_elem_of_singleton in Hin. congruence.
        -- by apply elem_of_nil in Hin.
      * intros [?|Hin]%elem_of_cons; [done|].
        apply list_elem_of_bind in Hin as ([id s] & Hin & _).
        unfold heard, on_attach in Hin. simpl in Hin.
        destruct (Bitset.covers _ _); simpl in Hin.
        -- by apply list_elem_of_singleton in Hin.
        -- by apply elem_of_nil in Hin.
  - unfold after at 1. rewrite AddComponent_throws by lia. cbn [snd].
    match goal with |- untouched _ (after _ ?w0) _ => set (w1 := w0) end.
    destruct (entityMasks_index_other entity other w1 Hne) as (E1 & E2 & E3 & E4).
    apply untouched_at.
    + rewrite E1. unfold w1. cbn [m_entityMasks set_entityComponents]. by rewrite G1.
    + rewrite E2. unfold w1. cbn [m_entityComponents set_entityComponents].
      by rewrite lookup_insert_ne.
    + rewrite E3. unfold w1. cbn [m_systems set_entityComponents]. done.
    + rewrite E4. unfold w1. cbn [trace set_entityComponents]. done.
Qed.

Lemma RemoveComponent_untouched (w : World) (T : string) (entity other : N) :
  other ≠ entity → untouched w (after (RemoveComponent T entity) w) other.
Proof.
  intros Hne.
  destruct (GetComponentTypeID_frame T w) as (G1 & G2 & _ & _ & G5 & _ & G7).
  destruct (decide (typeid_of T w < MAX_COMPONENTS)) as [Hcap|Hcap]; cycle 1.
  { unfold after at 1. rewrite RemoveComponent_throws by lia. cbn [snd].
    destruct (entityMasks_index_other entity other (after (GetComponentTypeID T) w) Hne)
      as (E1 & E2 & E3 & E4).
    apply untouched_at; by rewrite ?E1, ?E2, ?E3, ?E4, ?G1, ?G2, ?G5, ?G7. }
  destruct (m_entityMasks w !! entity) as [mask|] eqn:Hmask; cycle 1.
  { unfold after at 1. rewrite RemoveComponent_unknown by done. cbn [snd].
    apply untouched_at;
      cbn [m_entityMasks m_entityComponents m_systems trace set_entityMasks];
      try congruence.
    by rewrite lookup_insert_ne. }
  destruct (N.testbit mask (typeid_of T w)) eqn:Hbit; cycle 1.
  { unfold after at 1. rewrite (RemoveComponent_absent T entity mask) by done.
    cbn [snd]. apply untouched_at; by rewrite ?G1, ?G2, ?G5, ?G7. }
  destruct (components_of entity w !! typeid_of T w) as [c|] eqn:Hcomp; cycle 1.
  { unfold after at 1. rewrite (RemoveComponent_undefined T entity mask) by done.
    cbn [snd]. apply untouched_at;
      cbn [m_entityMasks m_entityComponents m_systems trace set_entityComponents];
      try congruence.
    by rewrite lookup_insert_ne. }
  destruct (RemoveComponent_fields T entity mask c w Hcap Hmask Hbit Hcomp)
    as (_ & Hm & Hc & Hs & Htr & _).
  eapply untouched_visited; [| |exact Hs| |exact Htr|].
  - rewrite Hm. by apply lookup_insert_ne.
  - rewrite Hc. by apply lookup_insert_ne.
  - intros id s.
    destruct (visited_on_detach entity (N.clearbit mask (typeid_of T w)) id s)
      as [_ ->].
    destruct (Bitset.covers _ _); set_solver.
  - intros system. split.
    + intros [?|Hin]%elem_of_cons; [done|].
      by apply elem_of_removals in Hin as (? & ? & ? & _).
    + intros [?|Hin]%elem_of_cons; [done|].
      apply elem_of_removals in Hin as (? & ? & ? & _). congruence.
Qed.

(** X13.  The calls that are made for one entity leave every other entity
    alone.  After [AddComponent] and after [RemoveComponent] for an entity,
    whether they return or throw, after [ProcessDestructions] for an entity
    that is not pending, and after [CreateEntity] for an identifier other
    than the one it returns: the other entity has the mask, the components
    and the subscriptions it had, and neither [OnEntityAdded] nor
    [OnEntityRemoved] was called for it. *)
Theorem calls_leave_other_entities_alone (w : World) (T : string)
    (entity component other : N) :
  other ≠ entity →
  untouched w (after (AddComponent T entity component) w) other ∧
  untouched w (after (RemoveComponent T entity) w) other ∧
  (other ∉ m_entitiesToDestroy w → untouched w (after ProcessDestructions w) other) ∧
  (other ≠ upcoming w → untouched w (after CreateEntity w) other).
Proof.
  intros Hne. split_and!.
  - by apply AddComponent_untouched.
  - by apply RemoveComponent_untouched.
  - intros Hother.
    destruct (ProcessDestructions_fields w) as (_ & Hs & Hm & Hc & _).
    destruct (ProcessDestructions_trace w) as (evs & Htr & _ & Hevs).
    eapply untouched_visited; [| |exact Hs| |exact Htr|].
    + rewrite Hm. by rewrite decide_False.
    + rewrite Hc. by rewrite decide_False.
    + intros id s. simpl. set_solver.
    + intros system. split.
      * intros Hin. by apply Hevs in Hin as (? & ? & ? & _).
      * intros Hin. apply Hevs in Hin as (? & ? & ? & ? & _). congruence.
  - intros Hup. unfold after. rewrite CreateEntity_run. simpl.
    apply untouched_at; simpl; try done; by rewrite lookup_insert_ne.
Qed.
End others.

(** The hero, entity 0, gets its AbilitySlot; a second entity, created
    before, keeps its empty mask and is subscribed to no system. *)
Lemma calls_leave_other_entities_alone_witness :
  let w := after CreateEntity hero_world in
  let w' := after (AddComponent (order := ascending_keys) "AbilitySlot" 0 101) w in
  (1 : N) ≠ 0 ∧
  m_entityMasks w !! 1 = Some 0 ∧
  m_entityMasks w' !! 1 = Some 0 ∧
  m_entityMasks w' !! 0 = Some 3.
Proof.
  assert (Hne : (1 : N) ≠ 0) by done.
  destruct (calls_leave_other_entities_alone (order := ascending_keys)
              (after CreateEntity hero_world) "AbilitySlot" 0 101 1 Hne)
    as ((Hmask & _) & _).
  cbv zeta. split; [exact Hne|]. split; [vm_compute; reflexivity|].
  split; [|vm_compute; reflexivity].
  etrans; [exact Hmask|]. vm_compute. reflexivity.
Defined.
(** ** Inactive systems, and the turn of the engine *)

Lemma active_systems_set_trace `{UnorderedMapOrder} (tr : list Event) (w : World) :
  active_systems (set_trace tr w) = active_systems w.
Proof. done. Qed.

Section dispatching.
Context `{order : UnorderedMapOrder}.

(** X14.  [SetActive(false)] takes a system out of [UpdateSystems] and
    [RenderSystems], and out of nothing else: the other systems are
    dispatched as before, and [AddComponent] still subscribes a matching
    entity to the inactive system and calls its [OnEntityAdded];
    [SetActive(true)] on a system that was active gives back the world
    before. *)
Theorem SetActive_false_only_stops_dispatch (w : World) (system : N) (s : System)
    (T : string) (entity component : N) (deltaTime : float) :
  m_systems w !! system = Some s →
  typeid_of T w < MAX_COMPONENTS →
  Bitset.covers
    (N.setbit (default Bitset.empty (m_entityMasks w !! entity)) (typeid_of T w))
    (m_componentMask s) = true →
  let w1 := after (System_SetActive system false) w in
  System_SetActive system false w
  = (Ret tt, set_systems (<[system := with_active false s]> (m_systems w)) w) ∧
  (System_Update system deltaTime ∉ emitted w1 (after (UpdateSystems deltaTime) w1)) ∧
  (System_Render system ∉ emitted w1 (after RenderSystems w1)) ∧
  (∀ other, other ≠ system →
     (other ∈ active_systems w1 ↔ other ∈ active_systems w)) ∧
  (let w2 := after (AddComponent T entity component) w1 in
   subscribed w2 system entity ∧
   System_OnEntityAdded system entity ∈ emitted w1 w2) ∧
  (m_active s = true → after (System_SetActive system true) w1 = w).
Proof.
  intros Hs Hcap Hcov. simpl.
  assert (Hset : ∀ b w0 s0, m_systems w0 !! system = Some s0 →
            System_SetActive system b w0
            = (Ret tt, set_systems (<[system := with_active b s0]> (m_systems w0)) w0)).
  { intros b w0 s0 Hs0. unfold System_SetActive.
    run_with (unfold system_deref; by rewrite Hs0). done. }
  assert (Hw1 : after (System_SetActive system false) w
                = set_systems (<[system := with_active false s]> (m_systems w)) w).
  { unfold after. by rewrite (Hset false w s Hs). }
  rewrite Hw1. set (w1 := set_systems _ w).
  assert (Hs1 : m_systems w1 !! system = Some (with_active false s))
    by (unfold w1; simpl; apply lookup_insert_eq).
  assert (Hinactive : system ∉ active_systems w1).
  { rewrite elem_of_active_systems. intros (s' & Hs' & Hact).
    rewrite Hs1 in Hs'. by injection Hs' as <-. }
  destruct (AddComponent_fields T entity component w1 Hcap)
    as (_ & _ & _ & Hsys & Htr & _).
  change (typeid_of T w1) with (typeid_of T w) in *.
  change (m_entityMasks w1) with (m_entityMasks w) in *.
  set (mask' := N.setbit _ _) in *.
  split_and!.
  - by apply Hset.
  - unfold after. rewrite UpdateSystems_run. simpl.
    erewrite emitted_app by (simpl; reflexivity).
    intros (id & [= <-] & Hin)%list_elem_of_fmap. done.
  - unfold after. rewrite RenderSystems_run. simpl.
    erewrite emitted_app by (simpl; reflexivity).
    intros (id & [= <-] & Hin)%list_elem_of_fmap. done.
  - intros other Hne. rewrite !elem_of_active_systems. unfold w1. simpl.
    by rewrite lookup_insert_ne.
  - exists (visited (on_attach entity mask') system (with_active false s)).
    split; [by rewrite Hsys, Hs1|].
    destruct (visited_on_attach entity mask' system (with_active false s))
      as [_ ->].
    simpl. rewrite Hcov. set_solver.
  - rewrite (emitted_app _ _ _ Htr). right.
    apply list_elem_of_bind. exists (system, with_active false s). split.
    + unfold heard, on_attach. simpl. rewrite Hcov. simpl. by left.
    + by apply elem_of_iterate.
  - intros Hact. unfold after. rewrite (Hset true w1 _ Hs1). simpl.
    unfold w1. apply World_eq; simpl; try done.
    rewrite insert_insert_eq. apply insert_id. rewrite Hs. f_equal.
    destruct s; simpl in *. by rewrite Hact.
Qed.

Lemma fixed_updates_no_callbacks (fixedDeltaTime accumulator : binary32)
    (fuel : nat) (w : World) :
  fixed_updates no_callbacks fixedDeltaTime fuel accumulator w
  = if binary32_ge accumulator fixedDeltaTime then
      match fuel with
      | O => (Ret None, w)
      | S k =>
          fixed_updates no_callbacks fixedDeltaTime k
            (binary32_sub accumulator fixedDeltaTime) w
      end
    else (Ret (Some accumulator), w).
Proof. destruct fuel; simpl; by destruct (binary32_ge _ _). Qed.

(** Without a callback the inner loop changes nothing in the manager. *)
Lemma fixed_updates_world (fixedDeltaTime accumulator : binary32) (fuel : nat)
    (w : World) :
  ∃ rest, fixed_updates no_callbacks fixedDeltaTime fuel accumulator w = (Ret rest, w).
Proof.
  revert accumulator. induction fuel as [|k IH]; intros accumulator;
    rewrite fixed_updates_no_callbacks; destruct (binary32_ge _ _); eauto.
Qed.

(** A loop that has ended within a bound has ended, with the same
    accumulator, within every greater bound. *)
Lemma fixed_updates_more (fixedDeltaTime accumulator rest : binary32)
    (fuel more : nat) (w : World) :
  fixed_updates no_callbacks fixedDeltaTime fuel accumulator w = (Ret (Some rest), w) →
  fixed_updates no_callbacks fixedDeltaTime (fuel + more) accumulator w
  = (Ret (Some rest), w).
Proof.
  revert accumulator. induction fuel as [|k IH]; intros accumulator.
  - rewrite !(fixed_updates_no_callbacks _ accumulator).
    destruct (binary32_ge _ _); [done|]. by destruct (0 + more)%nat.
  - rewrite !(fixed_updates_no_callbacks _ accumulator). simpl.
    destruct (binary32_ge _ _); [apply IH|done].
Qed.

(** A loop that would go on from an accumulator that its step does not
    change has no end. *)
Lemma fixed_updates_stuck (fixedDeltaTime accumulator : binary32) (fuel : nat)
    (w : World) :
  binary32_ge accumulator fixedDeltaTime = true →
  binary32_sub accumulator fixedDeltaTime = accumulator →
  fixed_updates no_callbacks fixedDeltaTime fuel accumulator w = (Ret None, w).
Proof.
  intros Hge Hsub. induction fuel as [|k IH];
    rewrite fixed_updates_no_callbacks, Hge; [done|]. by rewrite Hsub.
Qed.

(** X15.  One turn of the loop of [Engine::Run], no callback being registered:
    the pending entities are flushed first, then [Update] is called on the
    systems that are active; then comes the loop of the fixed updates, and
    when it has ended, [Render] is called on the same systems.  The loop
    changes nothing in the manager.  It ends at once when the accumulator,
    with the time of the turn added, is below the time step; it has no end
    when the accumulator is not below the step and the subtraction of the
    step leaves it as it is: then [Render] is not reached.  An entity that
    was pending when the turn began is in no subscriber set, and has no
    mask, when the systems are updated; the flush leaves the active systems
    as they were. *)
Theorem Engine_turn_flushes_updates_renders (w : World) (engine : Engine)
    (deltaTime : float) :
  let w1 := after ProcessDestructions w in
  let updated :=
    set_trace (trace w1
               ++ ((λ id, System_Update id deltaTime) <$> active_systems w1)) w1 in
  let rendered :=
    set_trace (trace w1
               ++ ((λ id, System_Update id deltaTime) <$> active_systems w1)
               ++ (System_Render <$> active_systems w1)) w1 in
  let accumulator :=
    binary32_add (m_fixedUpdateAccumulator engine) (float_value deltaTime) in
  let fixedDeltaTime :=
    binary32_div (binary32_of_int 1) (m_fixedUpdateRate engine) in
  let ended rest :=
    {| m_deltaTime := float_value deltaTime;
       m_frameRate := binary32_div (binary32_of_int 1) (float_value deltaTime);
       m_fixedUpdateRate := m_fixedUpdateRate engine;
       m_fixedUpdateAccumulator := rest |} in
  (∀ fuel,
     (∃ rest,
        fixed_updates no_callbacks fixedDeltaTime fuel accumulator updated
        = (Ret (Some rest), updated) ∧
        (∀ more, Engine_turn no_callbacks deltaTime (fuel + more) engine w
                 = (Ret (Some (ended rest)), rendered))) ∨
     (fixed_updates no_callbacks fixedDeltaTime fuel accumulator updated
      = (Ret None, updated) ∧
      Engine_turn no_callbacks deltaTime fuel engine w = (Ret None, updated))) ∧
  (binary32_ge accumulator fixedDeltaTime = false →
   ∀ fuel, Engine_turn no_callbacks deltaTime fuel engine w
           = (Ret (Some (ended accumulator)), rendered)) ∧
  (binary32_ge accumulator fixedDeltaTime = true →
   binary32_sub accumulator fixedDeltaTime = accumulator →
   ∀ fuel, Engine_turn no_callbacks deltaTime fuel engine w = (Ret None, updated)) ∧
  (∀ entity system, entity ∈ m_entitiesToDestroy w →
     ¬ subscribed w1 system entity ∧ ¬ live w1 entity) ∧
  (∀ system, system ∈ active_systems w1 ↔ system ∈ active_systems w).
Proof.
  cbv zeta. set (w1 := after ProcessDestructions w).
  set (updated := set_trace (trace w1 ++ _) w1).
  set (accumulator := binary32_add _ _).
  set (fixedDeltaTime := binary32_div _ (m_fixedUpdateRate engine)).
  destruct (ProcessDestructions_fields w) as (Hret & Hsys & Hmasks & _).
  fold w1 in Hsys, Hmasks.
  assert (Hw1 : ProcessDestructions w = (Ret tt, w1)).
  { unfold w1, after. by rewrite ProcessDestructions_run. }
  assert (Hturn : ∀ fuel rest,
    fixed_updates no_callbacks fixedDeltaTime fuel accumulator updated
    = (Ret rest, updated) →
    Engine_turn no_callbacks deltaTime fuel engine w
    = match rest with
      | Some rest =>
          (Ret (Some
             {| m_deltaTime := float_value deltaTime;
                m_frameRate :=
                  binary32_div (binary32_of_int 1) (float_value deltaTime);
                m_fixedUpdateRate := m_fixedUpdateRate engine;
                m_fixedUpdateAccumulator := rest |}),
           set_trace (trace w1
                      ++ ((λ id, System_Update id deltaTime) <$> active_systems w1)
                      ++ (System_Render <$> active_systems w1)) w1)
      | None => (Ret None, updated)
      end).
  { intros fuel rest Hloop. unfold Engine_turn. cbv zeta.
    run_with (exact Hw1).
    unfold Engine_Update. simpl.
    run_with (run_with (apply UpdateSystems_run); reflexivity).
    fold accumulator fixedDeltaTime. fold updated.
    run_with (exact Hloop).
    destruct rest as [rest|]; [|done].
    unfold Engine_Render. simpl.
    run_with (run_with (apply RenderSystems_run); reflexivity).
    unfold ret, updated. f_equal.
    rewrite active_systems_set_trace. simpl. by rewrite <- app_assoc. }
  split_and!.
  - intros fuel.
    destruct (fixed_updates_world fixedDeltaTime accumulator fuel updated)
      as [[rest|] Hloop]; [left|right].
    + exists rest. split; [done|]. intros more.
      by rewrite (Hturn _ (Some rest)
                    (fixed_updates_more _ _ _ _ more _ Hloop)).
    + split; [done|]. by rewrite (Hturn _ None Hloop).
  - intros Hge fuel. rewrite (Hturn fuel (Some accumulator)); [done|].
    rewrite fixed_updates_no_callbacks. by rewrite Hge.
  - intros Hge Hsub fuel. rewrite (Hturn fuel None); [done|].
    by apply fixed_updates_stuck.
  - intros entity system Hin. split.
    + intros (s & Hs & Hsub). rewrite Hsys in Hs.
      destruct (m_systems w !! system) as [s0|]; [|done].
      injection Hs as <-. simpl in Hsub. set_solver.
    + unfold live. rewrite Hmasks, decide_True by done. by intros [? ?].
  - intros system. rewrite !elem_of_active_systems, Hsys. split.
    + intros (s & Hs & Hact). destruct (m_systems w !! system) as [s0|]; [|done].
      injection Hs as <-. by exists s0.
    + intros (s & -> & Hact). by eexists.
Qed.
End dispatching.

(** HeroSystem, system 0, is switched off in the world of the hero: the
    update reaches AbilitySystem only, and the AbilitySlot of the hero still
    calls the [OnEntityAdded] of HeroSystem. *)
Lemma SetActive_false_only_stops_dispatch_witness :
  let w1 := after (System_SetActive 0 false) hero_world in
  (m_systems hero_world !! 0
   = Some {| m_componentMask := 1; m_entities := {[0]}; m_id := 0; m_active := true |} ∧
   typeid_of "AbilitySlot" hero_world < MAX_COMPONENTS ∧
   Bitset.covers
     (N.setbit (default Bitset.empty (m_entityMasks hero_world !! 0))
        (typeid_of "AbilitySlot" hero_world)) 1 = true) ∧
  emitted w1 (after (UpdateSystems (order := ascending_keys) (float_bits 0)) w1)
  = [System_Update 1 (float_bits 0)] ∧
  System_OnEntityAdded 0 0
  ∈ emitted w1 (after (AddComponent (order := ascending_keys) "AbilitySlot" 0 101) w1).
Proof.
  assert (Hs : m_systems hero_world !! 0
               = Some {| m_componentMask := 1; m_entities := {[0]}; m_id := 0;
                         m_active := true |}) by (vm_compute; reflexivity).
  assert (Hcap : typeid_of "AbilitySlot" hero_world < MAX_COMPONENTS)
    by (vm_compute; reflexivity).
  assert (Hcov : Bitset.covers
            (N.setbit (default Bitset.empty (m_entityMasks hero_world !! 0))
               (typeid_of "AbilitySlot" hero_world)) 1 = true)
    by (vm_compute; reflexivity).
  destruct (SetActive_false_only_stops_dispatch (order := ascending_keys)
              hero_world 0 _ "AbilitySlot" 0 101 (float_bits 0) Hs Hcap Hcov)
    as (_ & _ & _ & _ & (_ & Hadded) & _).
  cbv zeta. split; [exact (conj Hs (conj Hcap Hcov))|].
  split; [vm_compute; reflexivity|exact Hadded].
Defined.

(** The engine as it is built, in the world of the hero.  A turn of no
    duration makes no fixed update, and its frame rate is infinite.  In a turn of 0.05 seconds, the pattern
    3D4CCCCD, the loop ends after two fixed updates of a sixtieth of a
    second.  With 2^20 seconds in the accumulator the subtraction of a
    sixtieth changes nothing: the loop has no end. *)
Lemma Engine_turn_flushes_updates_renders_witness :
  (binary32_ge
     (binary32_add (m_fixedUpdateAccumulator Engine_new) (float_value (float_bits 0)))
     (binary32_div (binary32_of_int 1) (m_fixedUpdateRate Engine_new)) = false ∧
   binary32_ge
     (binary32_add (m_fixedUpdateAccumulator stalled_engine)
        (float_value (float_bits 0)))
     (binary32_div (binary32_of_int 1) (m_fixedUpdateRate stalled_engine)) = true ∧
   binary32_sub
     (binary32_add (m_fixedUpdateAccumulator stalled_engine)
        (float_value (float_bits 0)))
     (binary32_div (binary32_of_int 1) (m_fixedUpdateRate stalled_engine))
   = binary32_add (m_fixedUpdateAccumulator stalled_engine)
       (float_value (float_bits 0))) ∧
  (∀ fuel,
     result (Engine_turn (order := ascending_keys) no_callbacks (float_bits 0) fuel
               Engine_new) hero_world
     = Ret (Some {| m_deltaTime := binary32_of_int 0;
                    m_frameRate := S754_infinity false;
                    m_fixedUpdateRate := binary32_of_int 60;
                    m_fixedUpdateAccumulator := binary32_of_int 0 |})) ∧
  result (Engine_turn (order := ascending_keys) no_callbacks (float_bits 0x3D4CCCCD) 1
            Engine_new) hero_world
  = Ret None ∧
  (∀ more, ∃ engine,
     result (Engine_turn (order := ascending_keys) no_callbacks
               (float_bits 0x3D4CCCCD) (2 + more) Engine_new) hero_world
     = Ret (Some engine)) ∧
  (∀ fuel,
     result (Engine_turn (order := ascending_keys) no_callbacks (float_bits 0) fuel
               stalled_engine) hero_world
     = Ret None).
Proof.
  assert (H1 : binary32_ge
     (binary32_add (m_fixedUpdateAccumulator Engine_new) (float_value (float_bits 0)))
     (binary32_div (binary32_of_int 1) (m_fixedUpdateRate Engine_new)) = false)
    by (vm_compute; reflexivity).
  assert (H2 : binary32_ge
     (binary32_add (m_fixedUpdateAccumulator stalled_engine)
        (float_value (float_bits 0)))
     (binary32_div (binary32_of_int 1) (m_fixedUpdateRate stalled_engine)) = true)
    by (vm_compute; reflexivity).
  assert (H3 : binary32_sub
     (binary32_add (m_fixedUpdateAccumulator stalled_engine)
        (float_value (float_bits 0)))
     (binary32_div (binary32_of_int 1) (m_fixedUpdateRate stalled_engine))
   = binary32_add (m_fixedUpdateAccumulator stalled_engine)
       (float_value (float_bits 0)))
    by (vm_compute; reflexivity).
  destruct (Engine_turn_flushes_updates_renders (order := ascending_keys)
              hero_world Engine_new (float_bits 0)) as (_ & Hnone & _).
  destruct (Engine_turn_flushes_updates_renders (order := ascending_keys)
              hero_world Engine_new (float_bits 0x3D4CCCCD)) as (Hloop & _).
  destruct (Engine_turn_flushes_updates_renders (order := ascending_keys)
              hero_world stalled_engine (float_bits 0)) as (_ & _ & Hstuck & _).
  split; [exact (conj H1 (conj H2 H3))|].
  split.
  { intros fuel. unfold result. rewrite (Hnone H1 fuel). vm_compute. reflexivity. }
  split; [vm_compute; reflexivity|].
  split.
  { intros more. destruct (Hloop 2%nat) as [(rest & _ & Hturn)|[Hnot _]].
    - eexists. unfold result. rewrite (Hturn more). reflexivity.
    - exfalso. vm_compute in Hnot. discriminate Hnot. }
  intros fuel. unfold result. by rewrite (Hstuck H2 H3 fuel).
Defined.
(** ** The creation of a hero *)

Lemma typeid_of_le (T : string) (w : World) :
  component_types_wf w → typeid_of T w ≤ s_componentTypeCounter w.
Proof.
  intros [Hlt _]. unfold typeid_of.
  destruct (componentTypeID w !! T) as [id|] eqn:HT; simpl; [|lia].
  specialize (Hlt _ _ HT). lia.
Qed.

Lemma GetComponentTypeID_counter (T : string) (w : World) :
  s_componentTypeCounter w + 1 < 2 ^ 32 →
  s_componentTypeCounter (after (GetComponentTypeID T) w) ≤ s_componentTypeCounter w + 1.
Proof.
  intros Hc. unfold after, GetComponentTypeID.
  destruct (componentTypeID w !! T); simpl; [lia|].
  unfold uint32_incr. rewrite N.mod_small; lia.
Qed.

Section hero.
Context `{order : UnorderedMapOrder}.

(** [AddComponent] subscribes the entity to a system that the new mask
    covers, and calls the hook of the system, whether or not the entity was
    subscribed. *)
Lemma AddComponent_subscribes (w : World) (T : string) (entity component system : N)
    (s : System) :
  m_systems w !! system = Some s →
  typeid_of T w < MAX_COMPONENTS →
  superset (N.setbit (default Bitset.empty (m_entityMasks w !! entity)) (typeid_of T w))
    (m_componentMask s) →
  let w' := after (AddComponent T entity component) w in
  result (AddComponent T entity component) w = Ret (Some component) ∧
  (∃ s', m_systems w' !! system = Some s' ∧ m_componentMask s' = m_componentMask s ∧
         entity ∈ m_entities s') ∧
  System_OnEntityAdded system entity ∈ emitted w w' ∧
  m_entityMasks w' !! entity
  = Some (N.setbit (default Bitset.empty (m_entityMasks w !! entity)) (typeid_of T w)) ∧
  (component_types_wf w → s_componentTypeCounter w + 1 < 2 ^ 32 →
   component_types_wf w' ∧ s_componentTypeCounter w' ≤ s_componentTypeCounter w + 1).
Proof.
  intros Hs Hcap Hsup%covers_superset. cbv zeta.
  destruct (AddComponent_fields T entity component w Hcap)
    as (Hreg & Hmasks & _ & Hsys & Htr & _).
  destruct (AddComponent_types T entity component w Hcap) as (Hcc & _).
  set (mask' := N.setbit _ _) in *.
  set (w' := after (AddComponent T entity component) w) in *.
  split_and!.
  - unfold result. by rewrite AddComponent_run.
  - exists (visited (on_attach entity mask') system s).
    rewrite Hsys, Hs. split; [done|].
    destruct (visited_on_attach entity mask' system s) as [-> ->].
    rewrite Hsup. split; [done|set_solver].
  - rewrite (emitted_app _ _ _ Htr). right.
    apply list_elem_of_bind. exists (system, s). split.
    + unfold heard, on_attach. simpl. rewrite Hsup. simpl. by left.
    + by apply elem_of_iterate.
  - rewrite Hmasks. apply lookup_insert_eq.
  - intros Hwf Hc. split.
    + destruct (component_types_wf_GetComponentTypeID T w Hwf Hc) as [Hlt Hinj].
      split.
      * intros T0 id. rewrite Hreg, Hcc. apply Hlt.
      * intros T1 T2 id. rewrite Hreg. apply Hinj.
    + rewrite Hcc. by apply GetComponentTypeID_counter.
Qed.

(** X16.  [HeroSystem::CreateHero], the system being registered with the mask of
    HeroComponent, and two more component types fitting into the mask: the
    call returns the identifier that [CreateEntity] gives; the entity gets
    the bits of the three component types and is a subscriber of the
    system; and the [OnEntityAdded] hook of the system is called for the
    one hero by each of the three calls of [AddComponent]. *)
Theorem CreateHero_calls_OnEntityAdded_three_times (w : World)
    (system h heroComponent transform meshRenderer : N) (s : System) :
  m_systems w !! system = Some s →
  componentTypeID w !! "HeroComponent" = Some h →
  m_componentMask s = N.setbit Bitset.empty h →
  component_types_wf w →
  s_componentTypeCounter w + 2 ≤ MAX_COMPONENTS →
  let entity := upcoming w in
  let w0 := after CreateEntity w in
  let w1 := after (AddComponent "HeroComponent" entity heroComponent) w0 in
  let w2 := after (AddComponent "Transform" entity transform) w1 in
  let w3 := after (AddComponent "MeshRenderer" entity meshRenderer) w2 in
  HeroSystem_CreateHero heroComponent transform meshRenderer w = (Ret entity, w3) ∧
  m_entityMasks w3 !! entity
  = Some (N.setbit (N.setbit (N.setbit Bitset.empty h) (typeid_of "Transform" w1))
            (typeid_of "MeshRenderer" w2)) ∧
  subscribed w3 system entity ∧
  System_OnEntityAdded system entity ∈ emitted w0 w1 ∧
  System_OnEntityAdded system entity ∈ emitted w1 w2 ∧
  System_OnEntityAdded system entity ∈ emitted w2 w3.
Proof.
  intros Hs Hh Hmask Hwf Hcount. cbv zeta.
  set (entity := upcoming w).
  pose proof (CreateEntity_run w) as Hcreate. fold entity in Hcreate.
  set (w0 := after CreateEntity w).
  assert (Hw0 : CreateEntity w = (Ret entity, w0)).
  { unfold w0, after. by rewrite Hcreate. }
  assert (Hs0 : m_systems w0 !! system = Some s)
    by (unfold w0, after; by rewrite Hcreate).
  assert (Hm0 : m_entityMasks w0 !! entity = Some Bitset.empty).
  { unfold w0, after. rewrite Hcreate. simpl. apply lookup_insert_eq. }
  assert (Hwf0 : component_types_wf w0)
    by (unfold w0, after; by rewrite Hcreate).
  assert (Hc0 : s_componentTypeCounter w0 = s_componentTypeCounter w)
    by (unfold w0, after; by rewrite Hcreate).
  assert (Hh0 : typeid_of "HeroComponent" w0 = h).
  { apply typeid_of_known. unfold w0, after. by rewrite Hcreate. }
  unfold MAX_COMPONENTS in Hcount.
  assert (Hcap0 : typeid_of "HeroComponent" w0 < MAX_COMPONENTS).
  { pose proof (typeid_of_le "HeroComponent" w0 Hwf0). unfold MAX_COMPONENTS. lia. }
  destruct (AddComponent_subscribes w0 "HeroComponent" entity heroComponent system s
              Hs0 Hcap0) as (Hr1 & (s1 & Hs1 & Hmask1 & _) & Hev1 & Hm1 & Hreg1).
  { rewrite Hm0, Hh0, Hmask. simpl. by intros i. }
  rewrite Hm0, Hh0 in Hm1. simpl in Hm1.
  set (w1 := after (AddComponent "HeroComponent" entity heroComponent) w0) in *.
  destruct Hreg1 as [Hwf1 Hc1]; [done|lia|].
  assert (Hcap1 : typeid_of "Transform" w1 < MAX_COMPONENTS).
  { pose proof (typeid_of_le "Transform" w1 Hwf1). unfold MAX_COMPONENTS. lia. }
  destruct (AddComponent_subscribes w1 "Transform" entity transform system s1
              Hs1 Hcap1) as (Hr2 & (s2 & Hs2 & Hmask2 & _) & Hev2 & Hm2 & Hreg2).
  { rewrite Hm1, Hmask1, Hmask. simpl. apply superset_setbit. by intros i. }
  rewrite Hm1 in Hm2. simpl in Hm2.
  set (w2 := after (AddComponent "Transform" entity transform) w1) in *.
  assert (Hcounter1 : s_componentTypeCounter w1 = s_componentTypeCounter w0).
  { destruct (AddComponent_types "HeroComponent" entity heroComponent w0 Hcap0)
      as (Hcc & _).
    unfold w1. rewrite Hcc. unfold after, GetComponentTypeID.
    assert (componentTypeID w0 !! "HeroComponent" = Some h) as ->
      by (unfold w0, after; by rewrite Hcreate).
    done. }
  destruct Hreg2 as [Hwf2 Hc2]; [done|lia|].
  assert (Hcap2 : typeid_of "MeshRenderer" w2 < MAX_COMPONENTS).
  { pose proof (typeid_of_le "MeshRenderer" w2 Hwf2). unfold MAX_COMPONENTS. lia. }
  destruct (AddComponent_subscribes w2 "MeshRenderer" entity meshRenderer system s2
              Hs2 Hcap2) as (Hr3 & (s3 & Hs3 & _ & Hin3) & Hev3 & Hm3 & _).
  { rewrite Hm2, Hmask2, Hmask1, Hmask. simpl. do 2 apply superset_setbit.
    by intros i. }
  rewrite Hm2 in Hm3. simpl in Hm3.
  set (w3 := after (AddComponent "MeshRenderer" entity meshRenderer) w2) in *.
  split_and!; try done.
  - unfold HeroSystem_CreateHero. run_with (exact Hw0).
    assert (Hrun : ∀ {A} (m : M A) w a, result m w = Ret a → m w = (Ret a, after m w)).
    { intros A m w' a. unfold result, after. destruct (m w') as [o w'']. simpl.
      by intros ->. }
    run_with (apply Hrun; exact Hr1). fold w1.
    run_with (apply Hrun; exact Hr2). fold w2.
    run_with (apply Hrun; exact Hr3). done.
  - by exists s3.
Qed.
End hero.

(** HeroSystem is registered, and a hero is created: it is entity 0, with
    the mask 7, and the hook of the system, system 0, is called three
    times. *)
Lemma CreateHero_calls_OnEntityAdded_three_times_witness :
  let w := after (RegisterSystem (order := ascending_keys)
                    "HeroSystem" ["HeroComponent"]) initial in
  (m_systems w !! 0
   = Some {| m_componentMask := 1; m_entities := ∅; m_id := 0; m_active := true |} ∧
   componentTypeID w !! "HeroComponent" = Some 0 ∧
   component_types_wf w ∧
   s_componentTypeCounter w + 2 ≤ MAX_COMPONENTS) ∧
  result (HeroSystem_CreateHero (order := ascending_keys) 100 101 102) w = Ret 0 ∧
  emitted w (after (HeroSystem_CreateHero (order := ascending_keys) 100 101 102) w)
  = [Component_Initialize 100; System_OnEntityAdded 0 0;
     Component_Initialize 101; System_OnEntityAdded 0 0;
     Component_Initialize 102; System_OnEntityAdded 0 0].
Proof.
  set (w := after (RegisterSystem (order := ascending_keys)
                     "HeroSystem" ["HeroComponent"]) initial).
  assert (Hs : m_systems w !! 0
            = Some {| m_componentMask := 1; m_entities := ∅; m_id := 0;
                      m_active := true |}) by (vm_compute; reflexivity).
  assert (Hh : componentTypeID w !! "HeroComponent" = Some 0)
    by (vm_compute; reflexivity).
  assert (Hwf : component_types_wf w).
  { unfold w, after. cbn [snd].
    assert (Hreg : componentTypeID w = {[ "HeroComponent" := 0 ]})
      by (vm_compute; reflexivity).
    assert (Hc : s_componentTypeCounter w = 1) by (vm_compute; reflexivity).
    fold (after (RegisterSystem (order := ascending_keys)
                   "HeroSystem" ["HeroComponent"]) initial). fold w.
    split.
    - intros T id. rewrite Hreg, Hc. intros [_ <-]%lookup_singleton_Some. lia.
    - intros T T' id. rewrite Hreg.
      intros [<- _]%lookup_singleton_Some [<- _]%lookup_singleton_Some. done. }
  assert (Hcount : s_componentTypeCounter w + 2 ≤ MAX_COMPONENTS)
    by (vm_compute; discriminate).
  destruct (CreateHero_calls_OnEntityAdded_three_times (order := ascending_keys)
              w 0 0 100 101 102 _ Hs Hh eq_refl Hwf Hcount) as (Hrun & _).
  cbv zeta. split; [exact (conj Hs (conj Hh (conj Hwf Hcount)))|].
  split.
  - unfold result. rewrite Hrun. vm_compute. reflexivity.
  - vm_compute. reflexivity.
Defined.
(** ** The consensus: votes and their count *)

Lemma filter_none {A} (P : A → Prop) `{∀ x, Decision (P x)} (l : list A) :
  (∀ x, x ∈ l → ¬ P x) → filter P l = [].
Proof.
  induction l as [|x l IH]; intros Hl; [done|].
  rewrite filter_cons, decide_False by (apply Hl; by left).
  apply IH. intros y Hy. apply Hl. by right.
Qed.


Lemma int64_small (z : Z) : (- 2 ^ 63 ≤ z < 2 ^ 63)%Z → int64 z = z.
Proof. intros Hz. unfold int64. rewrite Z.mod_small; lia. Qed.

Lemma int64_add_l (x y : Z) : int64 (int64 x + y) = int64 (x + y).
Proof.
  unfold int64. f_equal.
  replace ((x + 2 ^ 63) mod 2 ^ 64 - 2 ^ 63 + y + 2 ^ 63)%Z
    with ((x + 2 ^ 63) mod 2 ^ 64 + y)%Z by lia.
  rewrite Zplus_mod_idemp_l. f_equal. lia.
Qed.

Lemma isRegistered_spec (address : string) (validators : list Validator) :
  isRegistered address validators = true ↔ address ∈ Address <$> validators.
Proof.
  induction validators as [|v vs IH]; simpl.
  - split; [done|]. by intros ?%elem_of_nil.
  - rewrite elem_of_cons. destruct (String.eqb_spec (Address v) address) as [->|Hne].
    + split; [by left|done].
    + rewrite IH. split; [by right|]. intros [?|?]; [congruence|done].
Qed.

Lemma substring_prefix (blockHash key : string) :
  (String.length blockHash ≤ String.length key)%nat →
  String.eqb (String.substring 0 (String.length blockHash) key) blockHash
  = starts_with blockHash key.
Proof.
  unfold starts_with. revert key.
  induction blockHash as [|a h IH]; intros key Hlen; simpl.
  - by destruct key.
  - destruct key as [|b key]; simpl in *; [lia|].
    destruct (Ascii.ascii_dec a b) as [->|Hne].
    + rewrite Ascii.eqb_refl. apply IH. lia.
    + destruct (Ascii.eqb_spec b a); [congruence|done].
Qed.

Lemma starts_with_app (blockHash rest : string) :
  starts_with blockHash (blockHash +:+ rest) = true.
Proof.
  unfold starts_with. induction blockHash as [|a h IH]; simpl.
  - by destruct rest.
  - destruct (Ascii.ascii_dec a a) as [_|?]; [exact IH|done].
Qed.

Lemma append_assoc (a b c : string) : (a +:+ b) +:+ c = a +:+ (b +:+ c).
Proof.
  induction a as [|x a IH]; [done|].
  change (String x ((a +:+ b) +:+ c) = String x (a +:+ (b +:+ c))).
  by rewrite IH.
Qed.

Lemma starts_with_length (blockHash key : string) :
  starts_with blockHash key = true →
  (String.length blockHash ≤ String.length key)%nat.
Proof.
  unfold starts_with. revert key.
  induction blockHash as [|a h IH]; intros key; simpl; [lia|].
  destruct key as [|b key]; [done|]. simpl.
  destruct (Ascii.ascii_dec a b); [|done]. intros ?%IH. lia.
Qed.

(** The loop panics exactly when an entry has a key shorter than the hash. *)
Lemma tally_Panic (blockHash : string) (entries : list (string * bool)) (counts : Z * Z) :
  tally blockHash entries counts = Panic ↔
  ∃ key approved, (key, approved) ∈ entries ∧
    (String.length key < String.length blockHash)%nat.
Proof.
  revert counts. induction entries as [|[key approved] rest IH]; intros counts; simpl.
  - split; [done|]. by intros (? & ? & ?%elem_of_nil & _).
  - unfold slice_to.
    destruct (Nat.leb_spec (String.length blockHash) (String.length key)) as [Hle|Hlt].
    + assert (Hrest : ∀ c, tally blockHash rest c = Panic ↔
                ∃ key0 approved0, (key0, approved0) ∈ (key, approved) :: rest ∧
                  (String.length key0 < String.length blockHash)%nat).
      { intros c. rewrite IH. split.
        - intros (k & b & Hin & Hshort). exists k, b. split; [by right|done].
        - intros (k & b & [[= -> ->]|Hin]%elem_of_cons & Hshort); [lia|].
          by exists k, b. }
      destruct (String.eqb _ _); apply Hrest.
    + split; [|done]. intros _. exists key, approved. split; [by left|done].
Qed.

(** The counts after the loop, when it does not panic. *)
Lemma tally_counts (blockHash : string) (entries : list (string * bool))
    (approvalCount totalVotes : Z) :
  (∀ key approved, (key, approved) ∈ entries →
     (String.length blockHash ≤ String.length key)%nat) →
  tally blockHash entries (int64 approvalCount, int64 totalVotes)
  = Value (int64 (approvalCount
                  + Z.of_nat (length (approvals_for blockHash entries))),
           int64 (totalVotes + Z.of_nat (length (votes_for blockHash entries)))).
Proof.
  revert approvalCount totalVotes.
  induction entries as [|[key approved] rest IH]; intros a t Hlen.
  - simpl. by rewrite !Z.add_0_r.
  - assert (Hkey : (String.length blockHash ≤ String.length key)%nat)
      by (apply (Hlen key approved); by left).
    assert (Hrest : ∀ k b, (k, b) ∈ rest →
              (String.length blockHash ≤ String.length k)%nat)
      by (intros k b Hin; apply (Hlen k b); by right).
    simpl. unfold slice_to.
    destruct (Nat.leb_spec (String.length blockHash) (String.length key)); [|lia].
    rewrite substring_prefix by done.
    unfold approvals_for, votes_for. rewrite filter_cons. simpl.
    destruct (starts_with blockHash key) eqn:Hstart.
    + rewrite decide_True by done. rewrite filter_cons. simpl.
      rewrite !int64_add_l. destruct approved.
      * rewrite decide_True by done. rewrite (IH _ _ Hrest).
        unfold approvals_for, votes_for. simpl length. f_equal. f_equal; f_equal; lia.
      * rewrite decide_False by done. rewrite (IH _ _ Hrest).
        unfold approvals_for, votes_for. simpl length. f_equal. f_equal; f_equal; lia.
    + rewrite decide_False by done. by rewrite (IH _ _ Hrest).
Qed.

(** The loop gives the same result in whatever order it visits the entries. *)
Lemma tally_Permutation (blockHash : string) (entries entries' : list (string * bool))
    (counts : Z * Z) :
  entries ≡ₚ entries' → tally blockHash entries counts = tally blockHash entries' counts.
Proof.
  intros Hperm. revert counts.
  induction Hperm as [|[k b] l l' _ IH|[k1 b1] [k2 b2] l|l1 l2 l3 _ IH1 _ IH2];
    intros counts.
  - done.
  - simpl. destruct (slice_to k _); [|done]. destruct (String.eqb _ _); apply IH.
  - simpl. destruct (slice_to k1 _) as [h1|], (slice_to k2 _) as [h2|]; try done.
    + destruct (String.eqb h1 blockHash), (String.eqb h2 blockHash); try done.
      simpl. rewrite !int64_add_l.
      destruct b1, b2; simpl; rewrite ?int64_add_l; done.
    + by destruct (String.eqb h1 blockHash).
    + by destruct (String.eqb h2 blockHash).
  - by rewrite IH1, IH2.
Qed.

(** X17.  A validator that is not registered cannot vote: [VoteForBlock] returns
    the error and records nothing.  The vote of a registered validator is
    stored under the key made of the hash, a colon and the address, and
    nothing else changes; a second vote of the validator for the block
    replaces the first.  This is so when the [ProofOfPlay] has a map of
    votes, as one made by [NewProofOfPlay] has, or one whose votes were
    reset; without a map, as in the zero value of the type, the vote of a
    registered validator panics. *)
Theorem VoteForBlock_records_registered_votes (pop : ProofOfPlay)
    (blockHash validatorAddress : string) (approve again : bool) :
  (validatorAddress ∉ Address <$> Validators pop →
   VoteForBlock blockHash validatorAddress approve pop
   = Value (pop, Some "validator not registered")) ∧
  (validatorAddress ∈ Address <$> Validators pop →
   let voteKey := blockHash +:+ ":" +:+ validatorAddress in
   (Votes pop = None →
    VoteForBlock blockHash validatorAddress approve pop = Panic) ∧
   (∀ votes, Votes pop = Some votes →
      ∃ pop',
        VoteForBlock blockHash validatorAddress approve pop = Value (pop', None) ∧
        Votes pop' = Some (<[voteKey := approve]> votes) ∧
        recorded_votes pop' !! voteKey = Some approve ∧
        (∀ key, key ≠ voteKey →
           recorded_votes pop' !! key = recorded_votes pop !! key) ∧
        Validators pop' = Validators pop ∧
        MinValidators pop' = MinValidators pop ∧
        FinalityThreshold pop' = FinalityThreshold pop ∧
        VoteForBlock blockHash validatorAddress again pop'
        = Value (with_Votes (Some (<[voteKey := again]> votes)) pop, None)) ∧
   ∃ pop',
     VoteForBlock blockHash validatorAddress approve (ResetVotes pop)
     = Value (pop', None) ∧
     Votes pop' = Some {[ voteKey := approve ]}) ∧
  (∀ stake isGameNode now,
     Votes NewProofOfPlay = Some ∅ ∧
     Votes (RegisterValidator validatorAddress stake isGameNode now pop) = Votes pop ∧
     VoteForBlock blockHash validatorAddress approve
       (RegisterValidator validatorAddress stake isGameNode now zero_ProofOfPlay)
     = Panic).
Proof.
  unfold VoteForBlock. split_and!.
  - intros Hnot. rewrite <- isRegistered_spec in Hnot.
    apply not_true_is_false in Hnot. by rewrite Hnot.
  - intros Hin. pose proof Hin as Hreg. rewrite <- isRegistered_spec in Hreg.
    cbv zeta. rewrite Hreg. simpl. split_and!.
    + by intros ->.
    + intros votes Hvotes. rewrite Hvotes. eexists. split; [reflexivity|].
      unfold recorded_votes. simpl. rewrite Hreg, Hvotes. simpl. split_and!; try done.
      * apply lookup_insert_eq.
      * intros key Hne. by apply lookup_insert_ne.
      * by rewrite insert_insert_eq.
    + rewrite Hreg. simpl. eexists. split; [reflexivity|]. simpl.
      by rewrite insert_empty.
  - intros stake isGameNode now. split_and!; try done.
    simpl. by rewrite String.eqb_refl.
Qed.

(** X18.  [HasConsensus] panics exactly when some recorded vote has a key shorter
    than the hash it is asked about; this does not depend on the order in
    which the votes are visited.  With no vote whose key begins with the
    hash, and none that is shorter, it returns false and 0: so after
    [ResetVotes], whatever the hash. *)
Theorem HasConsensus_panics_on_short_keys (pop : ProofOfPlay) (blockHash : string) :
  (∀ entries counts, entries ≡ₚ map_to_list (recorded_votes pop) →
     tally blockHash entries counts
     = tally blockHash (map_to_list (recorded_votes pop)) counts) ∧
  (HasConsensus blockHash pop = Panic ↔
   ∃ key approved, recorded_votes pop !! key = Some approved ∧
     (String.length key < String.length blockHash)%nat) ∧
  ((∀ key approved, recorded_votes pop !! key = Some approved →
      (String.length blockHash ≤ String.length key)%nat ∧
      starts_with blockHash key = false) →
   HasConsensus blockHash pop = Value (false, float64_of_int 0)) ∧
  HasConsensus blockHash (ResetVotes pop) = Value (false, float64_of_int 0).
Proof.
  split_and!.
  - intros entries counts Hperm. by apply tally_Permutation.
  - unfold HasConsensus.
    destruct (tally blockHash (map_to_list (recorded_votes pop)) (0%Z, 0%Z))
      as [c|] eqn:Ht.
    + split; [done|]. intros (key & b & Hin%elem_of_map_to_list & Hshort).
      assert (tally blockHash (map_to_list (recorded_votes pop)) (0%Z, 0%Z) = Panic)
        by (apply tally_Panic; eauto).
      congruence.
    + split; [|done]. intros _.
      apply tally_Panic in Ht as (key & b & Hin%elem_of_map_to_list & Hshort). eauto.
  - intros Hnone. unfold HasConsensus.
    change (0%Z, 0%Z) with (int64 0, int64 0).
    rewrite tally_counts.
    + unfold approvals_for, votes_for.
      assert (Hempty : filter (λ entry : string * bool,
                  starts_with blockHash entry.1 = true)
                (map_to_list (recorded_votes pop)) = []).
      { apply filter_none. intros [key b] Hin%elem_of_map_to_list.
        simpl. destruct (Hnone key b Hin) as [_ ->]. done. }
      rewrite Hempty. done.
    + intros key b Hin%elem_of_map_to_list. by destruct (Hnone key b Hin).
  - unfold HasConsensus, ResetVotes, recorded_votes. simpl.
    by rewrite map_to_list_empty.
Qed.

(** X19.  When no recorded vote has a key shorter than the hash, [HasConsensus]
    counts the votes whose key begins with the hash, and returns the verdict
    on these counts.  The key of a vote is the hash of its block, a colon and
    the address: so a vote cast for a block is also counted for every hash
    that the hash of the block begins with. *)
Theorem HasConsensus_counts_keys_by_prefix (pop : ProofOfPlay) (blockHash : string) :
  (∀ key approved, recorded_votes pop !! key = Some approved →
     (String.length blockHash ≤ String.length key)%nat) →
  HasConsensus blockHash pop
  = Value (verdict pop
      (int64 (Z.of_nat
         (length (approvals_for blockHash (map_to_list (recorded_votes pop))))),
       int64 (Z.of_nat
         (length (votes_for blockHash (map_to_list (recorded_votes pop))))))) ∧
  (∀ entry, entry ∈ votes_for blockHash (map_to_list (recorded_votes pop)) ↔
     recorded_votes pop !! entry.1 = Some entry.2 ∧
     starts_with blockHash entry.1 = true) ∧
  (∀ rest validatorAddress,
     starts_with blockHash ((blockHash +:+ rest) +:+ ":" +:+ validatorAddress) = true).
Proof.
  intros Hlen. split_and!.
  - unfold HasConsensus. change (0%Z, 0%Z) with (int64 0, int64 0).
    rewrite tally_counts; [done|].
    intros key b Hin%elem_of_map_to_list. by apply (Hlen key b).
  - intros [key b]. unfold votes_for. rewrite list_elem_of_filter. simpl.
    rewrite elem_of_map_to_list. tauto.
  - intros rest a. rewrite append_assoc. apply starts_with_app.
Qed.

(** X20.  [UpdatePlayScore] changes the first validator that has the address, and
    no other: it adds the activity to the score and records the time.  When
    no validator has the address, it returns the error and changes
    nothing.  [RegisterValidator] appends without looking for the address:
    of two validators with one address, the second is never updated. *)
Theorem UpdatePlayScore_updates_first_match (pop : ProofOfPlay) (address : string)
    (activityValue : float64) (now : Z) :
  (address ∉ Address <$> Validators pop →
   UpdatePlayScore address activityValue now pop = (pop, Some "validator not found")) ∧
  (∀ before validator rest,
     Validators pop = before ++ validator :: rest →
     Address validator = address →
     address ∉ Address <$> before →
     UpdatePlayScore address activityValue now pop
     = (with_Validators
          (before ++
           {| Address := address; Stake := Stake validator;
              PlayScore := float64_add (PlayScore validator) activityValue;
              LastActivity := now; IsGameNode := IsGameNode validator |} :: rest)
          pop, None)) ∧
  (∀ stake isGameNode registered,
     Validators (RegisterValidator address stake isGameNode registered pop)
     = Validators pop ++
       [{| Address := address; Stake := stake; PlayScore := float64_of_int 0;
           LastActivity := registered; IsGameNode := isGameNode |}]).
Proof.
  split_and!.
  - intros Hnot. unfold UpdatePlayScore.
    assert (Hnone : update_first address activityValue now (Validators pop) = None).
    { induction (Validators pop) as [|v vs IH]; [done|]. simpl.
      rewrite fmap_cons, not_elem_of_cons in Hnot. destruct Hnot as [Hne Hnot].
      destruct (String.eqb_spec (Address v) address); [congruence|].
      by rewrite IH. }
    by rewrite Hnone.
  - intros before validator rest Hvs Haddr Hnot. unfold UpdatePlayScore. rewrite Hvs.
    assert (Hsome : update_first address activityValue now (before ++ validator :: rest)
              = Some (before ++
                  {| Address := address; Stake := Stake validator;
                     PlayScore := float64_add (PlayScore validator) activityValue;
                     LastActivity := now; IsGameNode := IsGameNode validator |} :: rest)).
    { clear Hvs. induction before as [|v vs IH]; simpl.
      - by rewrite Haddr, String.eqb_refl.
      - rewrite fmap_cons, not_elem_of_cons in Hnot. destruct Hnot as [Hne Hnot].
        destruct (String.eqb_spec (Address v) address); [congruence|].
        by rewrite IH. }
    by rewrite Hsome.
  - done.
Qed.



(** The vote of alice for the block "abc" is counted for the hash "ab", with
    an approval of 100 per cent. *)
Lemma HasConsensus_counts_keys_by_prefix_witness :
  (∀ key approved, recorded_votes one_vote !! key = Some approved →
     (String.length "ab" ≤ String.length key)%nat) ∧
  VoteForBlock "abc" "alice" true one_validator = Value (one_vote, None) ∧
  recorded_votes one_vote = {[ "abc:alice" := true ]} ∧
  HasConsensus "ab" one_vote = Value (true, float64_of_int 100).
Proof.
  assert (Hvotes : recorded_votes one_vote = {[ "abc:alice" := true ]})
    by reflexivity.
  assert (Hlen : ∀ key approved, recorded_votes one_vote !! key = Some approved →
            (String.length "ab" ≤ String.length key)%nat).
  { intros key b. rewrite Hvotes. intros [<- _]%lookup_singleton_Some. simpl. lia. }
  destruct (HasConsensus_counts_keys_by_prefix one_vote "ab" Hlen) as (Hcount & _).
  split; [exact Hlen|]. split; [vm_compute; reflexivity|]. split; [exact Hvotes|].
  rewrite Hcount. vm_compute. reflexivity.
Defined.

(** bob is not registered and cannot vote; the vote of alice is recorded
    under "abc:alice"; with the zero value of the type, her vote panics. *)
Lemma VoteForBlock_records_registered_votes_witness :
  VoteForBlock "abc" "bob" true one_validator
  = Value (one_validator, Some "validator not registered") ∧
  VoteForBlock "abc" "alice" true one_validator = Value (one_vote, None) ∧
  VoteForBlock "abc" "alice" false one_vote
  = Value (with_Votes (Some {[ "abc:alice" := false ]}) one_validator, None) ∧
  VoteForBlock "abc" "alice" true no_map = Panic.
Proof.
  destruct (VoteForBlock_records_registered_votes one_validator "abc" "bob" true false)
    as (Hbob & _).
  destruct (VoteForBlock_records_registered_votes one_validator "abc" "alice" true false)
    as (_ & Halice & _).
  destruct (VoteForBlock_records_registered_votes no_map "abc" "alice" true false)
    as (_ & Hnil & _).
  assert (Hin : "alice" ∈ Address <$> Validators one_validator)
    by (rewrite <- isRegistered_spec; vm_compute; reflexivity).
  assert (Hin' : "alice" ∈ Address <$> Validators no_map)
    by (rewrite <- isRegistered_spec; vm_compute; reflexivity).
  destruct (Halice Hin) as (_ & Hvote & _).
  destruct (Hvote ∅ eq_refl)
    as (pop' & Hfirst & Hvotes & _ & _ & Hvs & Hmin & Hfin & Hsecond).
  destruct (Hnil Hin') as (Hpanic & _).
  assert (Hpop' : pop' = one_vote).
  { destruct pop' as [m f vs votes]. simpl in Hvotes, Hvs, Hmin, Hfin.
    rewrite Hvotes, Hvs, Hmin, Hfin. vm_compute. reflexivity. }
  rewrite Hpop' in Hfirst, Hsecond.
  split.
  { apply Hbob. rewrite <- isRegistered_spec. vm_compute. discriminate. }
  split; [exact Hfirst|]. split.
  { rewrite Hsecond. vm_compute. reflexivity. }
  apply Hpanic. reflexivity.
Defined.

(** The key "abc:alice" has 9 bytes: a query for a hash of 12 bytes panics,
    and a query for "zz" finds no vote. *)
Lemma HasConsensus_panics_on_short_keys_witness :
  HasConsensus "abcdefghijkl" one_vote = Panic ∧
  HasConsensus "zz" one_vote = Value (false, float64_of_int 0).
Proof.
  destruct (HasConsensus_panics_on_short_keys one_vote "abcdefghijkl")
    as (_ & Hpanic & _).
  destruct (HasConsensus_panics_on_short_keys one_vote "zz") as (_ & _ & Hnone & _).
  assert (Hvotes : recorded_votes one_vote = {[ "abc:alice" := true ]})
    by reflexivity.
  split.
  - apply Hpanic. exists "abc:alice", true. rewrite Hvotes. split.
    + apply lookup_singleton_eq.
    + simpl. lia.
  - apply Hnone. intros key b. rewrite Hvotes.
    intros [<- _]%lookup_singleton_Some. split; [simpl; lia|reflexivity].
Defined.

(** Of the two validators with the address alice, the first gets the
    score. *)
Lemma UpdatePlayScore_updates_first_match_witness :
  PlayScore <$> Validators alice_twice = [float64_of_int 0; float64_of_int 0] ∧
  PlayScore <$> Validators
    (UpdatePlayScore "alice" (float64_of_int 5) 2000 alice_twice).1
  = [float64_of_int 5; float64_of_int 0] ∧
  UpdatePlayScore "carol" (float64_of_int 5) 2000 alice_twice
  = (alice_twice, Some "validator not found").
Proof.
  destruct (UpdatePlayScore_updates_first_match alice_twice "alice"
              (float64_of_int 5) 2000) as (_ & Hfirst & _).
  destruct (UpdatePlayScore_updates_first_match alice_twice "carol"
              (float64_of_int 5) 2000) as (Hnone & _).
  split; [vm_compute; reflexivity|]. split.
  - rewrite (Hfirst [] _ _ eq_refl eq_refl).
    + vm_compute. reflexivity.
    + apply not_elem_of_nil.
  - apply Hnone. rewrite <- isRegistered_spec. vm_compute. discriminate.
Defined.


Lemma weigh_length (clock : nat → Z) (i : nat) (validators : list Validator)
    (totalWeight : float64) :
  length (weigh clock i validators totalWeight).1 = length validators.
Proof.
  revert i totalWeight. induction validators as [|v vs IH]; intros i t; [done|].
  simpl. destruct (_ <? _)%Z.
  - specialize (IH (S i) t). destruct (weigh clock (S i) vs t). simpl in *. lia.
  - specialize (IH (S i) (float64_add t (weight_of v))).
    destruct (weigh clock (S i) vs _). simpl in *. lia.
Qed.

(** When every reading of the clock finds the validator inactive, the total
    weight is the one the loop started with. *)
Lemma weigh_inactive (clock : nat → Z) (i : nat) (validators : list Validator)
    (totalWeight : float64) :
  (∀ j validator, validators !! j = Some validator →
     (86400 < int64 (clock (i + j)%nat - LastActivity validator))%Z) →
  (weigh clock i validators totalWeight).2 = totalWeight.
Proof.
  revert i. induction validators as [|v vs IH]; intros i Hall; [done|].
  simpl. pose proof (Hall 0%nat v eq_refl) as Hv. rewrite Nat.add_0_r in Hv.
  apply Z.ltb_lt in Hv. rewrite Hv.
  specialize (IH (S i)). destruct (weigh clock (S i) vs totalWeight). simpl in *.
  apply IH. intros j v' Hj. replace (S (i + j))%nat with (i + S j)%nat by lia.
  by apply (Hall (S j)).
Qed.

Lemma pick_lt (selection : float64) (i k : nat) (weights : list float64)
    (cumulativeWeight : float64) :
  pick selection i weights cumulativeWeight = Some k →
  (i ≤ k < i + length weights)%nat.
Proof.
  revert i cumulativeWeight. induction weights as [|x ws IH]; intros i c; [done|].
  simpl. destruct (float64_ge _ _).
  - intros [= <-]. lia.
  - intros Hk%IH. lia.
Qed.

(** X22.  [SelectBlockProducer] never panics.  It returns either an error, with an
    empty address, or the address of a registered validator: the error "not
    enough validators" exactly when there are fewer validators than
    [MinValidators], and otherwise the error "no active validators with
    positive weight" when every validator was last active more than a day
    before the clock reading made for it. *)
Theorem SelectBlockProducer_returns_a_validator (clock : nat → Z) (draw : float64)
    (pop : ProofOfPlay) :
  (∃ address error,
     SelectBlockProducer clock draw pop = Value (address, error) ∧
     match error with
     | None => address ∈ Address <$> Validators pop
     | Some message =>
         address = EmptyString ∧
         (message = "not enough validators" ∨
          message = "no active validators with positive weight")
     end) ∧
  (SelectBlockProducer clock draw pop = Value (EmptyString, Some "not enough validators") ↔
   (Z.of_nat (length (Validators pop)) < MinValidators pop)%Z) ∧
  ((MinValidators pop ≤ Z.of_nat (length (Validators pop)))%Z →
   (∀ i validator, Validators pop !! i = Some validator →
      (86400 < int64 (clock i - LastActivity validator))%Z) →
   SelectBlockProducer clock draw pop
   = Value (EmptyString, Some "no active validators with positive weight")).
Proof.
  assert (Haddr : ∀ i, (i < length (Validators pop))%nat →
            ∃ address, address_at pop i = Value (address, None) ∧
                       address ∈ Address <$> Validators pop).
  { intros i Hi. unfold address_at.
    destruct (lookup_lt_is_Some_2 (Validators pop) i Hi) as [v Hv]. rewrite Hv.
    exists (Address v). split; [done|].
    apply list_elem_of_fmap. exists v. split; [done|].
    by apply list_elem_of_lookup_2 in Hv. }
  unfold SelectBlockProducer.
  pose proof (weigh_length clock 0 (Validators pop) (float64_of_int 0)) as Hlen.
  destruct (Z.ltb_spec (Z.of_nat (length (Validators pop))) (MinValidators pop))
    as [Hfew|Hmany].
  { split_and!.
    - exists EmptyString, (Some "not enough validators"). split; [done|]. split; [done|].
      by left.
    - done.
    - lia. }
  destruct (weigh clock 0 (Validators pop) (float64_of_int 0)) as [weights totalWeight]
    eqn:Hweigh.
  simpl in Hlen.
  assert (Hinactive : (∀ i validator, Validators pop !! i = Some validator →
              (86400 < int64 (clock i - LastActivity validator))%Z) →
            SFleb totalWeight (float64_of_int 0) = true).
  { intros Hall.
    pose proof (weigh_inactive clock 0 (Validators pop) (float64_of_int 0) Hall) as Ht.
    rewrite Hweigh in Ht. simpl in Ht. by rewrite Ht. }
  destruct (SFleb totalWeight (float64_of_int 0)) eqn:Hle.
  { split_and!.
    - exists EmptyString, (Some "no active validators with positive weight").
      split; [done|]. split; [done|]. by right.
    - split; [done|lia].
    - done. }
  assert (Hnonempty : (0 < length (Validators pop))%nat).
  { destruct (Validators pop) as [|v vs] eqn:Hvs; [|simpl; lia].
    simpl in Hweigh. injection Hweigh as <- <-. done. }
  assert (Hresult : ∃ address,
      match pick (float64_mul draw totalWeight) 0 weights (float64_of_int 0) with
      | Some i => address_at pop i
      | None => address_at pop 0
      end = Value (address, None) ∧ address ∈ Address <$> Validators pop).
  { destruct (pick _ _ _ _) as [k|] eqn:Hpick.
    - apply pick_lt in Hpick. apply Haddr. lia.
    - by apply Haddr. }
  destruct Hresult as (address & Hresult & Hin). split_and!.
  - exists address, None. by split.
  - rewrite Hresult. split; [intros H; discriminate H|intros ?; lia].
  - intros _ Hall. discriminate (Hinactive Hall).
Qed.

(** Of three validators, all active at time 2000, the draw 0 selects the
    first; one day and a second after their registration none is active. *)
Lemma SelectBlockProducer_returns_a_validator_witness :
  SelectBlockProducer (λ _, 2000%Z) (float64_of_int 0) three_validators
  = Value ("alice", None) ∧
  SelectBlockProducer (λ _, 87401%Z) (float64_of_int 0) three_validators
  = Value (EmptyString, Some "no active validators with positive weight") ∧
  SelectBlockProducer (λ _, 2000%Z) (float64_of_int 0) one_validator
  = Value (EmptyString, Some "not enough validators").
Proof.
  destruct (SelectBlockProducer_returns_a_validator (λ _, 87401%Z) (float64_of_int 0)
              three_validators) as (_ & _ & Hinactive).
  destruct (SelectBlockProducer_returns_a_validator (λ _, 2000%Z) (float64_of_int 0)
              one_validator) as (_ & Hfew & _).
  split; [vm_compute; reflexivity|]. split.
  - apply Hinactive; [vm_compute; discriminate|].
    intros i v Hv. apply list_elem_of_lookup_2 in Hv.
    assert (Hlast : LastActivity v = 1000%Z).
    { unfold three_validators, one_validator, RegisterValidator in Hv. simpl in Hv.
      repeat (apply elem_of_cons in Hv as [Hv|Hv]; [rewrite Hv; reflexivity|]).
      by apply elem_of_nil in Hv. }
    rewrite Hlast. vm_compute. reflexivity.
  - apply Hfew. vm_compute. reflexivity.
Defined.
